(** * Holiday countdown plugin: the refresh routine of [HolidayFetcher]

    A shallow embedding of [src/main.py]: the cache directory, the download
    of missing years, the cleanup of stale cache files and the scan for the
    nearest off-day, and what the plugin shows of the result on its widget,
    followed by the properties of the refresh routine.

    Conventions of the model.
    - A Python [str] is a list of Unicode code points ([char := N]).
    - A Python [float] is held as the text that [repr] gives for it;
      [float] of a number literal is a parameter, [parse_float].
    - [int] refuses a decimal text of more than 4300 digits, the default
      of the interpreter.
    - The interpreter's recursion limit is outside the model: a statement
      about a document that the parser has read bounds its nesting.
    - The Unicode table of decimal digits (what [\d] matches in a [str]
      pattern and what [int] converts) is a parameter, [decimal]. *)

From Stdlib Require Import String Ascii ZArith NArith Bool Lia List.
From Stdlib Require DecimalN DecimalFacts DecimalPos.
Import ListNotations.
Open Scope Z_scope.

(** ** Text *)

Definition char := N.
Definition str := list char.

(** A literal of the source, as code points. *)
Definition lit (s : string) : str :=
  List.map N_of_ascii (list_ascii_of_string s).

Fixpoint str_eqb (a b : str) : bool :=
  match a, b with
  | [], [] => true
  | x :: a', y :: b' => N.eqb x y && str_eqb a' b'
  | _, _ => false
  end.

(** [strip_prefix p s] is the rest of [s] after the prefix [p]. *)
Fixpoint strip_prefix (p s : str) : option str :=
  match p with
  | [] => Some s
  | x :: p' =>
      match s with
      | y :: s' => if N.eqb x y then strip_prefix p' s' else None
      | [] => None
      end
  end.

Definition in_range (lo hi c : char) : bool := (N.leb lo c && N.leb c hi)%bool.

(** The ASCII digits, the part of the decimal table that is fixed here. *)
Definition ascii_digit (c : char) : option N :=
  if in_range 48%N 57%N c then Some (c - 48)%N else None.

(** Python's [str(n)] for an integer. *)
Fixpoint uint_str (u : Decimal.uint) : str :=
  match u with
  | Decimal.Nil => []
  | Decimal.D0 u' => 48%N :: uint_str u'
  | Decimal.D1 u' => 49%N :: uint_str u'
  | Decimal.D2 u' => 50%N :: uint_str u'
  | Decimal.D3 u' => 51%N :: uint_str u'
  | Decimal.D4 u' => 52%N :: uint_str u'
  | Decimal.D5 u' => 53%N :: uint_str u'
  | Decimal.D6 u' => 54%N :: uint_str u'
  | Decimal.D7 u' => 55%N :: uint_str u'
  | Decimal.D8 u' => 56%N :: uint_str u'
  | Decimal.D9 u' => 57%N :: uint_str u'
  end.

Definition int_str (z : Z) : str :=
  if z <? 0 then 45%N :: uint_str (N.to_uint (Z.abs_N z))
  else uint_str (N.to_uint (Z.abs_N z)).

(** ** Exceptions and signals *)

Inductive exn : Type :=
| KeyError
| TypeError
| ValueError
| AttributeError
| OSError
| UnicodeEncodeError
| JSONDecodeError
| ConnectionError
| HTTPError (status : Z).

(** ** [datetime] *)

Record datetime : Type := mkDatetime {
  dt_year : Z; dt_month : Z; dt_day : Z;
  dt_hour : Z; dt_minute : Z; dt_second : Z; dt_microsecond : Z
}.

Definition is_leap (y : Z) : bool :=
  ((y mod 4 =? 0) && (negb (y mod 100 =? 0) || (y mod 400 =? 0)))%bool.

Definition days_in_month (y m : Z) : Z :=
  if m =? 2 then (if is_leap y then 29 else 28)
  else if (m =? 4) || (m =? 6) || (m =? 9) || (m =? 11) then 30
  else 31.

Definition days_before_year (y : Z) : Z :=
  let y := y - 1 in y * 365 + y / 4 - y / 100 + y / 400.

(** The table [_DAYS_BEFORE_MONTH] of the datetime module. *)
Definition days_before_month_table (m : Z) : Z :=
  nth (Z.to_nat m) [0; 0; 31; 59; 90; 120; 151; 181; 212; 243; 273; 304; 334] 0.

Definition days_before_month (y m : Z) : Z :=
  days_before_month_table m + (if (2 <? m) && is_leap y then 1 else 0).

Definition toordinal (d : datetime) : Z :=
  days_before_year (dt_year d) + days_before_month (dt_year d) (dt_month d)
  + dt_day d.

(** What the [datetime] constructor accepts. *)
Definition valid_date (y m d : Z) : bool :=
  ((1 <=? y) && (y <=? 9999) && (1 <=? m) && (m <=? 12)
   && (1 <=? d) && (d <=? days_in_month y m))%bool.

Definition valid_datetime (t : datetime) : bool :=
  (valid_date (dt_year t) (dt_month t) (dt_day t)
   && (0 <=? dt_hour t) && (dt_hour t <? 24)
   && (0 <=? dt_minute t) && (dt_minute t <? 60)
   && (0 <=? dt_second t) && (dt_second t <? 60)
   && (0 <=? dt_microsecond t) && (dt_microsecond t <? 1000000))%bool.

(** Comparison of two datetimes: the tuples of fields, lexicographically. *)
Fixpoint cmp_tuple (a b : list Z) : comparison :=
  match a, b with
  | x :: a', y :: b' =>
      match x ?= y with
      | Eq => cmp_tuple a' b'
      | c => c
      end
  | [], [] => Eq
  | [], _ :: _ => Lt
  | _ :: _, [] => Gt
  end.

Definition dt_tuple (t : datetime) : list Z :=
  [dt_year t; dt_month t; dt_day t; dt_hour t; dt_minute t; dt_second t;
   dt_microsecond t].

(** [a >= b] *)
Definition dt_ge (a b : datetime) : bool :=
  match cmp_tuple (dt_tuple a) (dt_tuple b) with
  | Lt => false
  | _ => true
  end.

(** [timedelta(days, seconds, microseconds).days]: the constructor carries
    microseconds into seconds and seconds into days with floor division. *)
Definition timedelta_days (days seconds microseconds : Z) : Z :=
  let s := seconds + microseconds / 1000000 in
  days + s / 86400.

Definition dt_seconds (t : datetime) : Z :=
  dt_second t + dt_minute t * 60 + dt_hour t * 3600.

(** [(a - b).days] *)
Definition sub_days (a b : datetime) : Z :=
  timedelta_days (toordinal a - toordinal b)
                 (dt_seconds a - dt_seconds b)
                 (dt_microsecond a - dt_microsecond b).

(** ** JSON values, as the [json] module represents them *)

(** A Python [float]: not a number, an infinity, or a finite number, held
    as the text that [repr] gives for it. *)
Inductive pyfloat : Type :=
| FNan
| FInf (negative : bool)
| FFinite (repr : str).

(** [repr(x)] *)
Definition float_repr (x : pyfloat) : str :=
  match x with
  | FNan => lit "nan"
  | FInf false => lit "inf"
  | FInf true => lit "-inf"
  | FFinite r => r
  end.

#[warnings="-register-all"]
Inductive json : Type :=
| JNull
| JBool (b : bool)
| JInt (n : Z)
| JFloat (x : pyfloat)
| JStr (s : str)
| JList (l : list json)
| JDict (d : list (str * json)).

(** Truth value of a Python object. *)
Definition truthy (v : json) : bool :=
  match v with
  | JNull => false
  | JBool b => b
  | JInt n => negb (n =? 0)
  | JFloat (FFinite r) => negb (str_eqb r (lit "0.0") || str_eqb r (lit "-0.0"))
  | JFloat _ => true
  | JStr s => match s with [] => false | _ => true end
  | JList l => match l with [] => false | _ => true end
  | JDict d => match d with [] => false | _ => true end
  end.

Fixpoint dict_get (k : str) (d : list (str * json)) : option json :=
  match d with
  | [] => None
  | (k', v) :: d' => if str_eqb k k' then Some v else dict_get k d'
  end.

(** [d[k] = v]: an existing key keeps its place, a new key goes last. *)
Fixpoint dict_set (k : str) (v : json) (d : list (str * json))
  : list (str * json) :=
  match d with
  | [] => [(k, v)]
  | (k', v') :: d' =>
      if str_eqb k k' then (k', v) :: d' else (k', v') :: dict_set k v d'
  end.

(** [dict(pairs)] *)
Definition dict_of_pairs (pairs : list (str * json)) : list (str * json) :=
  fold_left (fun d kv => dict_set (fst kv) (snd kv) d) pairs [].

(** [v[k]] for a string key [k]. *)
Definition subscript (v : json) (k : str) : exn + json :=
  match v with
  | JDict d => match dict_get k d with Some x => inr x | None => inl KeyError end
  | _ => inl TypeError
  end.

(** The elements that [list += v] appends; a value that is not iterable
    raises TypeError. *)
Definition py_iter (v : json) : exn + list json :=
  match v with
  | JList l => inr l
  | JStr s => inr (List.map (fun c => JStr [c]) s)
  | JDict d => inr (List.map (fun kv => JStr (fst kv)) d)
  | _ => inl TypeError
  end.

(** *** Serialisation: [json.dump(data, f, ensure_ascii=False, indent=2)] *)

Definition hex_digit (n : N) : char :=
  if (n <? 10)%N then (48 + n)%N else (87 + n)%N.

(** [ESCAPE_DCT] of json.encoder: the replacement of one character. *)
Definition escape_char (c : char) : str :=
  if (c =? 92)%N then lit "\\"
  else if (c =? 34)%N then [92; 34]%N
  else if (c =? 8)%N then lit "\b"
  else if (c =? 12)%N then lit "\f"
  else if (c =? 10)%N then lit "\n"
  else if (c =? 13)%N then lit "\r"
  else if (c =? 9)%N then lit "\t"
  else if (c <? 32)%N then
    lit "\u00" ++ [hex_digit (c / 16); hex_digit (c mod 16)]
  else [c].

Definition encode_basestring (s : str) : str :=
  34%N :: flat_map escape_char s ++ [34%N].

Definition newline_indent (level : nat) : str :=
  10%N :: repeat 32%N (2 * level).

(** [floatstr] of json.encoder, with [allow_nan] left at its default. *)
Definition float_text (x : pyfloat) : str :=
  match x with
  | FNan => lit "NaN"
  | FInf false => lit "Infinity"
  | FInf true => lit "-Infinity"
  | FFinite r => r
  end.

(** The text of a value that the encoder yields in one piece. *)
Definition encode_scalar (v : json) : option str :=
  match v with
  | JStr s => Some (encode_basestring s)
  | JNull => Some (lit "null")
  | JBool true => Some (lit "true")
  | JBool false => Some (lit "false")
  | JInt n => Some (int_str n)
  | JFloat x => Some (float_text x)
  | JList _ | JDict _ => None
  end.

(** One item of a list: a scalar is yielded together with [buf], what
    precedes it; a container after [buf]. *)
Definition item_chunks (enc : json -> list str) (buf : str) (x : json)
  : list str :=
  match encode_scalar x with
  | Some t => [buf ++ t]
  | None => buf :: enc x
  end.

(** The value of a key. *)
Definition value_chunks (enc : json -> list str) (x : json) : list str :=
  match encode_scalar x with
  | Some t => [t]
  | None => enc x
  end.

(** The loop of [_iterencode_list]: [buf] is the opening bracket at first
    and the separator afterwards. *)
Definition list_chunks (enc : json -> list str) (sep : str)
  : str -> list json -> list str :=
  fix go (buf : str) (l : list json) : list str :=
    match l with
    | [] => []
    | x :: l' => item_chunks enc buf x ++ go sep l'
    end.

(** The loop of [_iterencode_dict]: the separator, the key, the colon and
    the value are yielded apart. *)
Definition dict_chunks (enc : json -> list str) (sep : str)
  : bool -> list (str * json) -> list str :=
  fix go (first : bool) (d : list (str * json)) : list str :=
    match d with
    | [] => []
    | (k, x) :: d' =>
        (if first then [] else [sep])
        ++ [encode_basestring k; lit ": "]
        ++ value_chunks enc x
        ++ go false d'
    end.

(** [_make_iterencode]: the chunks that [json.dump] writes one by one. *)
Fixpoint iterencode (level : nat) (v : json) : list str :=
  match v with
  | JList [] => [lit "[]"]
  | JList l =>
      list_chunks (iterencode (S level)) (44%N :: newline_indent (S level))
                  (91%N :: newline_indent (S level)) l
      ++ [newline_indent level; lit "]"]
  | JDict [] => [lit "{}"]
  | JDict d =>
      [lit "{"; newline_indent (S level)]
      ++ dict_chunks (iterencode (S level))
                     (44%N :: newline_indent (S level)) true d
      ++ [newline_indent level; lit "}"]
  | _ => match encode_scalar v with Some t => [t] | None => [] end
  end.

(** The whole document. *)
Definition json_dumps (v : json) : str := concat (iterencode 0 v).

(** Code points that UTF-8 cannot encode: the surrogates. *)
Definition encodable (c : char) : bool := negb (in_range 55296%N 57343%N c).

Definition encodable_str (s : str) : bool := forallb encodable s.

(** What is on disk when writing the chunks stops at the first one that
    cannot be encoded: the chunks before it. *)
Fixpoint written_chunks (chunks : list str) : str :=
  match chunks with
  | [] => []
  | c :: rest => if encodable_str c then c ++ written_chunks rest else []
  end.

(** *** Parsing: [json.load] *)

Definition is_ws (c : char) : bool :=
  ((c =? 32) || (c =? 9) || (c =? 10) || (c =? 13))%N.

Fixpoint skip_ws (s : str) : str :=
  match s with
  | c :: s' => if is_ws c then skip_ws s' else s
  | [] => []
  end.

Definition hex_value (c : char) : option N :=
  if in_range 48%N 57%N c then Some (c - 48)%N
  else if in_range 97%N 102%N c then Some (c - 87)%N
  else if in_range 65%N 70%N c then Some (c - 55)%N
  else None.

(** [_decode_uXXXX]: four hexadecimal digits. *)
Definition decode_uXXXX (s : str) : option (N * str) :=
  match s with
  | a :: b :: c :: d :: s' =>
      match hex_value a, hex_value b, hex_value c, hex_value d with
      | Some x, Some y, Some z, Some w =>
          Some ((((x * 16 + y) * 16 + z) * 16 + w)%N, s')
      | _, _, _, _ => None
      end
  | _ => None
  end.

(** The table [BACKSLASH] of json.decoder. *)
Definition backslash (c : char) : option char :=
  if (c =? 34)%N then Some 34%N
  else if (c =? 92)%N then Some 92%N
  else if (c =? 47)%N then Some 47%N
  else if (c =? 98)%N then Some 8%N
  else if (c =? 102)%N then Some 12%N
  else if (c =? 110)%N then Some 10%N
  else if (c =? 114)%N then Some 13%N
  else if (c =? 116)%N then Some 9%N
  else None.

(** [scanstring(s, end, strict=True)], from the character after the
    opening quote: the decoded string and what follows the closing quote. *)
Fixpoint scanstring (fuel : nat) (s : str) : option (str * str) :=
  match fuel with
  | O => None
  | S f =>
      match s with
      | [] => None
      | c :: s1 =>
          if (c =? 34)%N then Some ([], s1)
          else if (c =? 92)%N then
            match s1 with
            | [] => None
            | e :: s2 =>
                if (e =? 117)%N then
                  match decode_uXXXX s2 with
                  | None => None
                  | Some (uni, s3) =>
                      let lone :=
                        match scanstring f s3 with
                        | Some (t, r) => Some (uni :: t, r)
                        | None => None
                        end in
                      if in_range 55296%N 56319%N uni then
                        match strip_prefix (lit "\u") s3 with
                        | Some s4 =>
                            match decode_uXXXX s4 with
                            | None => None
                            | Some (uni2, s5) =>
                                if in_range 56320%N 57343%N uni2 then
                                  match scanstring f s5 with
                                  | Some (t, r) =>
                                      Some ((65536 + ((uni - 55296) * 1024
                                                      + (uni2 - 56320)))%N
                                            :: t, r)
                                  | None => None
                                  end
                                else lone
                            end
                        | None => lone
                        end
                      else lone
                  end
                else
                  match backslash e with
                  | Some ch =>
                      match scanstring f s2 with
                      | Some (t, r) => Some (ch :: t, r)
                      | None => None
                      end
                  | None => None
                  end
            end
          else if (c <? 32)%N then None
          else
            match scanstring f s1 with
            | Some (t, r) => Some (c :: t, r)
            | None => None
            end
      end
  end.

(** The digits at the head of [s], and the rest. *)
Fixpoint scan_uint (s : str) : Decimal.uint * str :=
  match s with
  | [] => (Decimal.Nil, [])
  | c :: s' =>
      let k (d : Decimal.uint -> Decimal.uint) :=
        let (u, r) := scan_uint s' in (d u, r) in
      if (c =? 48)%N then k Decimal.D0
      else if (c =? 49)%N then k Decimal.D1
      else if (c =? 50)%N then k Decimal.D2
      else if (c =? 51)%N then k Decimal.D3
      else if (c =? 52)%N then k Decimal.D4
      else if (c =? 53)%N then k Decimal.D5
      else if (c =? 54)%N then k Decimal.D6
      else if (c =? 55)%N then k Decimal.D7
      else if (c =? 56)%N then k Decimal.D8
      else if (c =? 57)%N then k Decimal.D9
      else (Decimal.Nil, s)
  end.

Definition starts_with_digit (s : str) : bool :=
  match s with
  | c :: _ => in_range 48%N 57%N c
  | [] => false
  end.

(** Does a fraction or an exponent follow the integer part? *)
Definition float_follows (s : str) : bool :=
  match s with
  | c :: s' =>
      if (c =? 46)%N then starts_with_digit s'
      else if ((c =? 101) || (c =? 69))%N then
        match s' with
        | g :: s'' =>
            if ((g =? 43) || (g =? 45))%N then starts_with_digit s''
            else starts_with_digit s'
        | [] => false
        end
      else false
  | [] => false
  end.

(** The digits at the head of [s], as text, and the rest. *)
Fixpoint span_digits (s : str) : str * str :=
  match s with
  | c :: s' =>
      if in_range 48%N 57%N c
      then let (ds, r) := span_digits s' in (c :: ds, r)
      else ([], s)
  | [] => ([], [])
  end.

(** The fraction at the head of [s]: a point and at least one digit. *)
Definition scan_fraction (s : str) : str * str :=
  match s with
  | c :: s' =>
      if ((c =? 46)%N && starts_with_digit s')%bool
      then let (ds, r) := span_digits s' in (c :: ds, r)
      else ([], s)
  | [] => ([], s)
  end.

(** The exponent at the head of [s]: the letter e, a sign if there is
    one, and at least one digit; nothing is taken when no digit comes. *)
Definition scan_exponent (s : str) : str * str :=
  match s with
  | c :: s' =>
      if ((c =? 101) || (c =? 69))%N then
        match s' with
        | g :: s'' =>
            if (((g =? 43) || (g =? 45))%N && starts_with_digit s'')%bool
            then let (ds, r) := span_digits s'' in (c :: g :: ds, r)
            else if starts_with_digit s'
                 then let (ds, r) := span_digits s' in (c :: ds, r)
                 else ([], s)
        | [] => ([], s)
        end
      else ([], s)
  | [] => ([], s)
  end.

(** What [_match_number] finds after the sign: the integer part (a zero,
    or a non-zero digit followed by digits), the text of the fraction and
    of the exponent, and the rest. *)
Definition number_body (neg : bool) (s1 : str)
  : option (bool * Decimal.uint * str * str) :=
  match s1 with
  | c :: s2 =>
      if in_range 48%N 57%N c then
        let (u, r) := if (c =? 48)%N then (Decimal.D0 Decimal.Nil, s2)
                      else scan_uint s1 in
        let (frac, r1) := scan_fraction r in
        let (exp, r2) := scan_exponent r1 in
        Some (neg, u, frac ++ exp, r2)
      else None
  | [] => None
  end.

(** What [_match_number] finds at the head of [s]: whether there is a
    minus sign, and the parts that follow it. *)
Definition number_parts (s : str)
  : option (bool * Decimal.uint * str * str) :=
  match s with
  | c :: s' => if (c =? 45)%N then number_body true s' else number_body false s
  | [] => None
  end.

(** The text that [number_parts] has matched. *)
Definition number_text (neg : bool) (u : Decimal.uint) (tail : str) : str :=
  (if neg then [45%N] else []) ++ uint_str u ++ tail.

(** A JSON number with a fraction or an exponent, and nothing else. *)
Definition float_literal (r : str) : bool :=
  match number_parts r with
  | Some (_, _, _ :: _, []) => true
  | _ => false
  end.

(** The number of digits beyond which [int] refuses a decimal text
    ([sys.get_int_max_str_digits()], left at its default). *)
Definition int_max_str_digits : nat := 4300.

(** What the interpreter provides and the model leaves open: [float(s)]
    for a number literal [s] that has a fraction or an exponent. *)
Class Python : Type := { parse_float : str -> pyfloat }.

Section Parser.

Context {py : Python}.

(** A number: [int] of the text when it has neither a fraction nor an
    exponent, [float] of it otherwise. *)
Definition scan_number (s : str) : exn + json * str :=
  match number_parts s with
  | None => inl JSONDecodeError
  | Some (neg, u, [], r) =>
      if (int_max_str_digits <? List.length (uint_str u))%nat
      then inl ValueError
      else
        let n := Z.of_N (N.of_uint u) in
        inr (JInt (if neg then - n else n), r)
  | Some (neg, u, tail, r) =>
      inr (JFloat (parse_float (number_text neg u tail)), r)
  end.

Fixpoint scan_once (fuel : nat) (s : str) : exn + json * str :=
  match fuel with
  | O => inl JSONDecodeError
  | S f =>
      match s with
      | [] => inl JSONDecodeError
      | c :: s' =>
          if (c =? 34)%N then
            match scanstring (List.length s') s' with
            | Some (t, r) => inr (JStr t, r)
            | None => inl JSONDecodeError
            end
          else if (c =? 123)%N then
            match skip_ws s' with
            | c1 :: s2 =>
                if (c1 =? 125)%N then inr (JDict [], s2)
                else if (c1 =? 34)%N then object_items f s2 []
                else inl JSONDecodeError
            | [] => inl JSONDecodeError
            end
          else if (c =? 91)%N then
            match skip_ws s' with
            | c1 :: s2 =>
                if (c1 =? 93)%N then inr (JList [], s2)
                else array_items f (c1 :: s2) []
            | [] => inl JSONDecodeError
            end
          else
            match strip_prefix (lit "null") s with
            | Some r => inr (JNull, r)
            | None =>
            match strip_prefix (lit "true") s with
            | Some r => inr (JBool true, r)
            | None =>
            match strip_prefix (lit "false") s with
            | Some r => inr (JBool false, r)
            | None =>
            match strip_prefix (lit "NaN") s with
            | Some r => inr (JFloat FNan, r)
            | None =>
            match strip_prefix (lit "Infinity") s with
            | Some r => inr (JFloat (FInf false), r)
            | None =>
            match strip_prefix (lit "-Infinity") s with
            | Some r => inr (JFloat (FInf true), r)
            | None => scan_number s
            end end end end end end
      end
  end

(** The loop of [JSONArray], at the start of a value; [acc] holds the
    values read so far, latest first. *)
with array_items (fuel : nat) (s : str) (acc : list json)
  : exn + json * str :=
  match fuel with
  | O => inl JSONDecodeError
  | S f =>
      match scan_once f s with
      | inl e => inl e
      | inr (v, s1) =>
          match skip_ws s1 with
          | c :: s2 =>
              if (c =? 93)%N then inr (JList (rev (v :: acc)), s2)
              else if (c =? 44)%N then array_items f (skip_ws s2) (v :: acc)
              else inl JSONDecodeError
          | [] => inl JSONDecodeError
          end
      end
  end

(** The loop of [JSONObject], after the opening quote of a key. *)
with object_items (fuel : nat) (s : str) (acc : list (str * json))
  : exn + json * str :=
  match fuel with
  | O => inl JSONDecodeError
  | S f =>
      match scanstring (List.length s) s with
      | None => inl JSONDecodeError
      | Some (k, s1) =>
          match skip_ws s1 with
          | c :: s2 =>
              if (c =? 58)%N then
                match scan_once f (skip_ws s2) with
                | inl e => inl e
                | inr (v, s3) =>
                    match skip_ws s3 with
                    | c3 :: s4 =>
                        if (c3 =? 125)%N then
                          inr (JDict (dict_of_pairs (rev ((k, v) :: acc))), s4)
                        else if (c3 =? 44)%N then
                          match skip_ws s4 with
                          | c5 :: s6 =>
                              if (c5 =? 34)%N then
                                object_items f s6 ((k, v) :: acc)
                              else inl JSONDecodeError
                          | [] => inl JSONDecodeError
                          end
                        else inl JSONDecodeError
                    | [] => inl JSONDecodeError
                    end
                end
              else inl JSONDecodeError
          | [] => inl JSONDecodeError
          end
      end
  end.

(** Does the text start with the byte order mark U+FEFF? *)
Definition has_bom (text : str) : bool :=
  match text with
  | c :: _ => (c =? 65279)%N
  | [] => false
  end.

(** [json.loads(text)]: no byte order mark, one value, nothing after it. *)
Definition json_loads (text : str) : exn + json :=
  if has_bom text then inl JSONDecodeError
  else
    match scan_once (S (List.length text)) (skip_ws text) with
    | inr (v, r) =>
        match skip_ws r with
        | [] => inr v
        | _ => inl JSONDecodeError
        end
    | inl e => inl e
    end.

End Parser.

(** ** The cache directory, the network and the log *)

(** One entry of the cache directory: the text that reading the file
    yields, or [None] when opening or reading it raises (a directory, a
    file without read permission, bytes that are not UTF-8). The list is in
    the order in which [os.listdir] reports the names. *)
Definition files := list (str * option str).

Definition file_exists (name : str) (fs : files) : bool :=
  existsb (fun e => str_eqb name (fst e)) fs.

Fixpoint file_lookup (name : str) (fs : files) : option (option str) :=
  match fs with
  | [] => None
  | (n, c) :: fs' => if str_eqb name n then Some c else file_lookup name fs'
  end.

Fixpoint file_put (name : str) (c : option str) (fs : files) : files :=
  match fs with
  | [] => [(name, c)]
  | (n, c') :: fs' =>
      if str_eqb name n then (n, c) :: fs' else (n, c') :: file_put name c fs'
  end.

Definition file_remove (name : str) (fs : files) : files :=
  filter (fun e => negb (str_eqb name (fst e))) fs.

(** What [requests.get] does for one year: it raises (no connection, a
    timeout), or it returns a response with a status and a body. *)
Inductive response : Type :=
| RequestFailed
| Response (status : Z) (body : str).

Inductive log_record : Type :=
| LogDownloaded (year : Z)
| LogDownloadFailed (year : Z) (e : exn)
| LogReadFailed (path : str) (e : exn)
| LogCleaned (filename : str).

(** What the routine finds outside itself. *)
Record world : Type := mkWorld {
  w_get : Z -> response;        (* the answer to the GET for a year *)
  w_can_write : str -> bool;    (* [open(path, "w")] succeeds *)
  w_can_remove : str -> bool;   (* [os.remove(path)] succeeds *)
  w_now : datetime              (* [datetime.now()] inside [run] *)
}.

Record state : Type := mkState {
  st_files : files;
  st_requests : list Z;          (* years requested over HTTP, in order *)
  st_log : list log_record       (* log records, in order *)
}.

(** ** A state and exception monad *)

Definition M (A : Type) : Type := state -> (exn + A) * state.

Definition ret {A} (a : A) : M A := fun st => (inr a, st).

Definition raise {A} (e : exn) : M A := fun st => (inl e, st).

Definition bind {A B} (m : M A) (k : A -> M B) : M B :=
  fun st =>
    match m st with
    | (inr a, st') => k a st'
    | (inl e, st') => (inl e, st')
    end.

Definition try_except {A} (m : M A) (handler : exn -> M A) : M A :=
  fun st =>
    match m st with
    | (inr a, st') => (inr a, st')
    | (inl e, st') => handler e st'
    end.

Definition lift {A} (r : exn + A) : M A :=
  match r with
  | inr a => ret a
  | inl e => raise e
  end.

Declare Scope monad_scope.
Delimit Scope monad_scope with monad.
Notation "x <- m ;; k" := (bind m (fun x => k))
  (at level 61, m at next level, right associativity) : monad_scope.
Notation "m ;; k" := (bind m (fun _ => k))
  (at level 61, right associativity) : monad_scope.
Open Scope monad_scope.

Fixpoint for_each {B} (l : list B) (body : B -> M unit) : M unit :=
  match l with
  | [] => ret tt
  | x :: l' => body x ;; for_each l' body
  end.

Fixpoint foldM {A B} (body : A -> B -> M A) (l : list B) (a : A) : M A :=
  match l with
  | [] => ret a
  | x :: l' => a' <- body a x ;; foldM body l' a'
  end.

Definition get_files : M files := fun st => (inr (st_files st), st).

Definition set_files (fs : files) : M unit :=
  fun st => (inr tt, mkState fs (st_requests st) (st_log st)).

Definition log (r : log_record) : M unit :=
  fun st => (inr tt, mkState (st_files st) (st_requests st) (st_log st ++ [r])).

Definition note_request (year : Z) : M unit :=
  fun st => (inr tt, mkState (st_files st) (st_requests st ++ [year]) (st_log st)).

(** ** The program *)

Definition first_some {A B} (f : A -> option B) : list A -> option B :=
  fix go l :=
    match l with
    | [] => None
    | x :: l' => match f x with Some y => Some y | None => go l' end
    end.

Section Program.

(** The Unicode table of decimal digits: the digit value of a code point
    of category Nd, [None] for any other code point. *)
Variable decimal : char -> option N.

Context {py : Python}.

(** *** [datetime.strptime(s, "%Y-%m-%d")] *)

(** [%Y]: four digits, read by [int]. *)
Definition re_year (s : str) : option (Z * str) :=
  match s with
  | a :: b :: c :: d :: s' =>
      match decimal a, decimal b, decimal c, decimal d with
      | Some x, Some y, Some z, Some w =>
          Some (Z.of_N (((x * 10 + y) * 10 + z) * 10 + w), s')
      | _, _, _, _ => None
      end
  | _ => None
  end.

(** [%m]: the alternatives [1[0-2]], [0[1-9]], [[1-9]] in this order,
    each with the month it reads and the rest of the string. *)
Definition re_month (s : str) : list (Z * str) :=
  match s with
  | a :: s1 =>
      match s1 with
      | b :: s2 =>
          (if ((a =? 49)%N && in_range 48%N 50%N b)%bool
           then [(10 + Z.of_N (b - 48), s2)] else [])
          ++ (if ((a =? 48)%N && in_range 49%N 57%N b)%bool
              then [(Z.of_N (b - 48), s2)] else [])
      | [] => []
      end
      ++ (if in_range 49%N 57%N a then [(Z.of_N (a - 48), s1)] else [])
  | [] => []
  end.

(** [%d]: the first of [3[0-1]], [[1-2]\d], [0[1-9]], [[1-9]], [ [1-9]]
    that matches. *)
Definition re_day (s : str) : option (Z * str) :=
  match s with
  | a :: s1 =>
      let two :=
        match s1 with
        | b :: s2 =>
            if ((a =? 51)%N && in_range 48%N 49%N b)%bool
            then Some (30 + Z.of_N (b - 48), s2)
            else if in_range 49%N 50%N a then
              match decimal b with
              | Some d => Some (Z.of_N ((a - 48) * 10 + d), s2)
              | None => None
              end
            else if ((a =? 48)%N && in_range 49%N 57%N b)%bool
            then Some (Z.of_N (b - 48), s2)
            else None
        | [] => None
        end in
      match two with
      | Some r => Some r
      | None =>
          if in_range 49%N 57%N a then Some (Z.of_N (a - 48), s1)
          else
            match s1 with
            | b :: s2 =>
                if ((a =? 32)%N && in_range 49%N 57%N b)%bool
                then Some (Z.of_N (b - 48), s2) else None
            | [] => None
            end
      end
  | [] => None
  end.

(** The format as a regular expression: year, hyphen, month, hyphen, day.
    The month is the first alternative after which the rest matches. *)
Definition re_date (s : str) : option (Z * Z * Z * str) :=
  match re_year s with
  | None => None
  | Some (y, s1) =>
      match strip_prefix [45%N] s1 with
      | None => None
      | Some s2 =>
          first_some
            (fun ms : Z * str =>
               match strip_prefix [45%N] (snd ms) with
               | None => None
               | Some s3 =>
                   match re_day s3 with
                   | Some (d, s4) => Some (y, fst ms, d, s4)
                   | None => None
                   end
               end) (re_month s2)
      end
  end.

Definition strptime (v : json) : exn + datetime :=
  match v with
  | JStr s =>
      match re_date s with
      | Some (y, m, d, []) =>
          if valid_date y m d then inr (mkDatetime y m d 0 0 0 0)
          else inl ValueError
      | _ => inl ValueError
      end
  | _ => inl TypeError
  end.

(** *** The fetcher *)

Record HolidayFetcher : Type := mkFetcher {
  current_year : Z;
  required_years : list Z
}.

(** [__init__], given what [datetime.now()] returns at construction. *)
Definition init (today : datetime) : HolidayFetcher :=
  mkFetcher (dt_year today) [dt_year today; dt_year today + 1].

(** [f"holidays_{year}.json"]; a file of the cache directory is named by
    its file name. *)
Definition cache_name (year : Z) : str :=
  lit "holidays_" ++ int_str year ++ lit ".json".

Record Holiday : Type := mkHoliday {
  name : json;
  date : json;
  days_left : Z
}.

Inductive signal : Type :=
| data_ready (nearest : option Holiday)   (* [None] stands for [{}] *)
| fetch_failed (e : exn).

Variable self : HolidayFetcher.
Variable w : world.

(** [raise_for_status]: a 4xx or 5xx status raises. *)
Definition raise_for_status (status : Z) : M unit :=
  if ((400 <=? status) && (status <? 600))%bool then raise (HTTPError status)
  else ret tt.

(** [with open(path, "w", encoding="utf-8") as f: json.dump(data, f, ...)] *)
Definition dump_to_file (path : str) (data : json) : M unit :=
  if w_can_write w path then
    fs <- get_files ;;
    let chunks := iterencode 0 data in
    if forallb encodable_str chunks then
      set_files (file_put path (Some (List.concat chunks)) fs)
    else
      set_files (file_put path (Some (written_chunks chunks)) fs) ;;
      raise UnicodeEncodeError
  else raise OSError.

Definition _fetch_and_cache (year : Z) (cache_path : str) : M json :=
  try_except
    (note_request year ;;
     match w_get w year with
     | RequestFailed => raise ConnectionError
     | Response status body =>
         raise_for_status status ;;
         match json_loads body with
         | inl e => raise e
         | inr data =>
             dump_to_file cache_path data ;;
             log (LogDownloaded year) ;;
             ret data
         end
     end)
    (fun e => log (LogDownloadFailed year e) ;; raise e).

(** [with open(path, "r", encoding="utf-8") as f: json.load(f)] *)
Definition load_file (path : str) : M json :=
  fs <- get_files ;;
  match file_lookup path fs with
  | Some (Some text) => lift (json_loads text)
  | _ => raise OSError
  end.

(** [v.get("days", [])] *)
Definition get_days (v : json) : exn + json :=
  match v with
  | JDict d =>
      match dict_get (lit "days") d with
      | Some x => inr x
      | None => inr (JList [])
      end
  | _ => inl AttributeError
  end.

Definition _load_cache (cache_path : str) : M json :=
  try_except
    (v <- load_file cache_path ;; lift (get_days v))
    (fun e => log (LogReadFailed cache_path e) ;; ret (JList [])).

(** The regular expression [holidays_(\d{4})\.json], matched at the start
    of the name, and [int] of its group. *)
Definition match_year (filename : str) : option Z :=
  match strip_prefix (lit "holidays_") filename with
  | None => None
  | Some s1 =>
      match re_year s1 with
      | None => None
      | Some (y, s2) =>
          match strip_prefix (lit ".json") s2 with
          | Some _ => Some y
          | None => None
          end
      end
  end.

Definition os_remove (filename : str) : M unit :=
  if w_can_remove w filename then
    fs <- get_files ;; set_files (file_remove filename fs)
  else raise OSError.

(** The body of the loop of [_cleanup_old_cache]. *)
Definition cleanup_file (filename : str) : M unit :=
  match match_year filename with
  | Some year =>
      if negb (existsb (Z.eqb year) (required_years self)) then
        os_remove filename ;;
        log (LogCleaned filename)
      else ret tt
  | None => ret tt
  end.

Definition _cleanup_old_cache : M unit :=
  fs <- get_files ;;
  for_each (List.map fst fs) cleanup_file.

(** One turn of the loop over the loaded days. *)
Definition scan_day (now : datetime) (nearest : option Holiday) (day : json)
  : exn + option Holiday :=
  match subscript day (lit "date") with
  | inl e => inl e
  | inr dv =>
      match strptime dv with
      | inl e => inl e
      | inr d =>
          if dt_ge d now then
            match subscript day (lit "isOffDay") with
            | inl e => inl e
            | inr off =>
                if truthy off then
                  let left := sub_days d now in
                  if match nearest with
                     | None => true
                     | Some n => left <? days_left n
                     end
                  then
                    match subscript day (lit "name") with
                    | inl e => inl e
                    | inr nm => inr (Some (mkHoliday nm dv left))
                    end
                  else inr nearest
                else inr nearest
            end
          else inr nearest
      end
  end.

Fixpoint scan (now : datetime) (data : list json) (nearest : option Holiday)
  : exn + option Holiday :=
  match data with
  | [] => inr nearest
  | day :: data' =>
      match scan_day now nearest day with
      | inl e => inl e
      | inr nearest' => scan now data' nearest'
      end
  end.

(** The body of the loop over [required_years]. *)
Definition load_year (data : list json) (year : Z) : M (list json) :=
  let cache_file := cache_name year in
  fs <- get_files ;;
  (if negb (file_exists cache_file fs)
   then _fetch_and_cache year cache_file ;; ret tt
   else ret tt) ;;
  loaded <- _load_cache cache_file ;;
  more <- lift (py_iter loaded) ;;
  ret (data ++ more).

Definition run_body : M (option Holiday) :=
  data <- foldM load_year (required_years self) [] ;;
  _cleanup_old_cache ;;
  lift (scan (w_now w) data None).

(** [run]: the signal emitted and the state left behind. *)
Definition run (st : state) : signal * state :=
  match run_body st with
  | (inr nearest, st') => (data_ready nearest, st')
  | (inl e, st') => (fetch_failed e, st')
  end.

End Program.

(** ** Notions used in the statements *)

(** A name that the cleanup deletes: it matches the pattern and its year
    is not a required one. *)
Definition stale (decimal : char -> option N) (self : HolidayFetcher)
           (filename : str) : bool :=
  match match_year decimal filename with
  | Some year => negb (existsb (Z.eqb year) (required_years self))
  | None => false
  end.

(** The entries left once the stale names among [names] are deleted. *)
Definition sweep (decimal : char -> option N) (self : HolidayFetcher)
           (names : list str) (fs : files) : files :=
  filter (fun e => negb (stale decimal self (fst e)
                         && existsb (str_eqb (fst e)) names)) fs.

(** The download of a year fails: the request raises, the status is a
    4xx or a 5xx, or the body is not a JSON document. *)
Definition fetch_fails {py : Python} (w : world) (year : Z) : bool :=
  match w_get w year with
  | RequestFailed => true
  | Response status body =>
      ((400 <=? status) && (status <? 600)
       || match json_loads body with inl _ => true | inr _ => false end)%bool
  end.

(** A cache file from which no [days] can be read: reading raises, the
    text is not a JSON document, the document is not an object, or the
    object has no key [days]. *)
Definition no_days {py : Python} (entry : option str) : bool :=
  match entry with
  | None => true
  | Some text =>
      match json_loads text with
      | inr (JDict d) =>
          match dict_get (lit "days") d with Some _ => false | None => true end
      | _ => true
      end
  end.

(** A cache file that holds a JSON object. *)
Definition holds_object {py : Python} (entry : option str) : bool :=
  match entry with
  | Some text =>
      match json_loads text with
      | inr (JDict _) => true
      | _ => false
      end
  | None => false
  end.

Definition quoted (s : str) : str := 34%N :: s ++ [34%N].

(** The text of a document, all at once. *)
Fixpoint json_text (level : nat) (v : json) : str :=
  match v with
  | JNull => lit "null"
  | JBool true => lit "true"
  | JBool false => lit "false"
  | JInt n => int_str n
  | JFloat x => float_text x
  | JStr s => encode_basestring s
  | JList [] => lit "[]"
  | JList (x :: l) =>
      91%N :: newline_indent (S level) ++ json_text (S level) x
      ++ flat_map (fun y => 44%N :: newline_indent (S level)
                            ++ json_text (S level) y) l
      ++ newline_indent level ++ lit "]"
  | JDict [] => lit "{}"
  | JDict ((k, x) :: d) =>
      123%N :: newline_indent (S level)
      ++ encode_basestring k ++ lit ": " ++ json_text (S level) x
      ++ flat_map (fun kv => 44%N :: newline_indent (S level)
                             ++ encode_basestring (fst kv) ++ lit ": "
                             ++ json_text (S level) (snd kv)) d
      ++ newline_indent level ++ lit "}"
  end.

Fixpoint keys_distinct (ks : list str) : bool :=
  match ks with
  | [] => true
  | k :: ks' => (negb (existsb (str_eqb k) ks') && keys_distinct ks')%bool
  end.

Definition pyfloat_eqb (x y : pyfloat) : bool :=
  match x, y with
  | FNan, FNan => true
  | FInf a, FInf b => Bool.eqb a b
  | FFinite r, FFinite r' => str_eqb r r'
  | _, _ => false
  end.

(** A value as the parser returns it: the keys of a dict are distinct, an
    integer is within the limit of [int], and a finite float is held as a
    text that is a JSON number with a fraction or an exponent and that
    [float] reads as that float. *)
Fixpoint parsed_ok {py : Python} (v : json) : bool :=
  match v with
  | JInt n =>
      (List.length (uint_str (N.to_uint (Z.abs_N n)))
       <=? int_max_str_digits)%nat
  | JFloat (FFinite r) =>
      (float_literal r && pyfloat_eqb (parse_float r) (FFinite r))%bool
  | JList l => forallb parsed_ok l
  | JDict d => (keys_distinct (List.map fst d)
                && forallb (fun kv => parsed_ok (snd kv)) d)%bool
  | _ => true
  end.

(** How deep the lists and the dicts of a value are nested. *)
Fixpoint json_depth (v : json) : nat :=
  match v with
  | JList l => S (fold_right Nat.max 0%nat (List.map json_depth l))
  | JDict d =>
      S (fold_right Nat.max 0%nat
                    (List.map (fun kv => json_depth (snd kv)) d))
  | _ => 0%nat
  end.

(** A nesting that the recursion limit of the interpreter allows, with
    room to spare, both to [json.load] and to [json.dump]. *)
Definition nesting_limit : nat := 100.

(** A cache file whose document, when it is one, is nested within the
    limit. *)
Definition within_nesting {py : Python} (entry : option str) : bool :=
  match entry with
  | Some text =>
      match json_loads text with
      | inr v => (json_depth v <=? nesting_limit)%nat
      | inl _ => true
      end
  | None => true
  end.

(** What [float] makes of a number literal with a fraction or an
    exponent is [nan], an infinity, or a float whose [repr] is such a
    literal, which [float] reads back as the same float. *)
Definition repr_round_trip {py : Python} : Prop :=
  forall s : str,
    float_literal s = true -> parsed_ok (JFloat (parse_float s)) = true.

(** Every string of the value can be encoded in UTF-8. *)
Fixpoint encodable_json (v : json) : bool :=
  match v with
  | JStr s => encodable_str s
  | JList l => forallb encodable_json l
  | JDict d => forallb (fun kv => encodable_str (fst kv)
                                  && encodable_json (snd kv))%bool d
  | _ => true
  end.

(** The fuel that reading a value back takes. *)
Fixpoint json_size (v : json) : nat :=
  match v with
  | JList l => S (list_sum (List.map (fun x => S (json_size x)) l))
  | JDict d => S (list_sum (List.map (fun kv => S (json_size (snd kv))) d))
  | _ => 1
  end.

(** What may follow a number for it to be read as that number: neither
    a digit nor the start of a fraction or an exponent. *)
Definition delimited (rest : str) : Prop :=
  starts_with_digit rest = false /\ float_follows rest = false.

(** The instant of a datetime, in microseconds from the start of the
    calendar. *)
Definition micros (t : datetime) : Z :=
  (toordinal t * 86400 + dt_seconds t) * 1000000 + dt_microsecond t.

(** A well-formed record of the working set: an object with a name, a date
    that [strptime] reads, and a boolean [isOffDay]. *)
Definition holiday_record (decimal : char -> option N) (day : json)
  : option (json * json * datetime * bool) :=
  match subscript day (lit "name"), subscript day (lit "date"),
        subscript day (lit "isOffDay") with
  | inr nm, inr dv, inr (JBool off) =>
      match strptime decimal dv with
      | inr d => Some (nm, dv, d, off)
      | inl _ => None
      end
  | _, _, _ => None
  end.

(** In the words of the specification: a record qualifies when its date
    is not before [now] and it is an off-day; its [days_left] is the
    number of whole days from [now] to its date, rounded down. *)
Definition spec_candidate (decimal : char -> option N) (now : datetime)
           (day : json) : option Holiday :=
  match holiday_record decimal day with
  | Some (nm, dv, d, off) =>
      if ((micros now <=? micros d) && off)%bool
      then Some (mkHoliday nm dv ((micros d - micros now) / 86400000000))
      else None
  | None => None
  end.

(** What the scan has found after a list of well-formed records. *)
Definition nearest_of (decimal : char -> option N) (now : datetime) (data : list json)
           (result : option Holiday) : Prop :=
  match result with
  | None => forall day, In day data -> spec_candidate decimal now day = None
  | Some h =>
      exists i day,
        nth_error data i = Some day
        /\ spec_candidate decimal now day = Some h
        /\ forall j day' h',
             nth_error data j = Some day' ->
             spec_candidate decimal now day' = Some h' ->
             days_left h <= days_left h'
             /\ ((j < i)%nat -> days_left h < days_left h')
  end.

(** The time of day is exactly midnight. *)
Definition at_midnight (t : datetime) : bool :=
  ((dt_hour t =? 0) && (dt_minute t =? 0) && (dt_second t =? 0)
   && (dt_microsecond t =? 0))%bool.

(** Text within the ASCII range. *)
Definition ascii_str (s : str) : Prop := Forall (fun c => (c < 128)%N) s.

(** The entries that exist keep their content. *)
Definition preserved (fs fs' : files) : Prop :=
  forall n, file_exists n fs = true -> file_lookup n fs' = file_lookup n fs.

(** What one turn of the loop over the years may change. *)
Definition step_inv (years : list Z) (st st' : state) : Prop :=
  preserved (st_files st) (st_files st')
  /\ exists rq lg,
       st_requests st' = st_requests st ++ rq
       /\ st_log st' = st_log st ++ lg
       /\ (forall x, In x lg -> forall n, x <> LogCleaned n)
       /\ (forall y, In y rq ->
             In y years /\ file_exists (cache_name y) (st_files st) = false).

(** ** The widget of the plugin *)

Inductive FluentIcon : Type := ASTERISK | CALORIES.

(** What the widget shows: the title and the content that
    [change_widget_content] sets, and the icon beside them, which has a
    picture (none until [setIcon] is called) and is visible or not. *)
Record widget : Type := mkWidget {
  wg_title : str;
  wg_content : str;
  icon_visible : bool;
  icon : option FluentIcon
}.

(** The plugin: its widget, whether [retry_timer] is running, and the
    errors that the handler of [fetch_failed] has logged, in order. *)
Record plugin : Type := mkPlugin {
  p_widget : widget;
  p_retry_active : bool;
  p_errors : list exn
}.

(** The title and the content shown while there is no holiday. *)
Definition loading_title : str :=
  [20551; 26399; 27491; 22312; 35013; 36733; 20013; 46; 46; 46]%N.

Definition days_suffix : str := [32; 22825]%N.

Section Plugin.

Variable decimal : char -> option N.

Context {py : Python}.

(** [repr] of a list or of a dict, which an f-string inserts for such a
    value; its text is left open. *)
Variable repr_container : json -> str.

(** [f"{v}"] *)
Definition format_value (v : json) : str :=
  match v with
  | JStr s => s
  | JInt n => int_str n
  | JFloat x => float_repr x
  | JBool true => lit "True"
  | JBool false => lit "False"
  | JNull => lit "None"
  | JList _ | JDict _ => repr_container v
  end.

(** [_update_ui]: the argument is [None] for the empty dict. *)
Definition _update_ui (holiday : option Holiday) (u : widget) : widget :=
  let u := mkWidget (wg_title u) (wg_content u) false (icon u) in
  match holiday with
  | None =>
      mkWidget loading_title (48%N :: days_suffix) true (Some ASTERISK)
  | Some h =>
      let title :=
        ([36317; 31163; 32]%N ++ format_value (name h)
         ++ [32; 36824; 26377]%N)%list in
      let content := (int_str (days_left h) ++ days_suffix)%list in
      if days_left h <? 2
      then mkWidget title content true (Some CALORIES)
      else mkWidget title content (icon_visible u) (icon u)
  end.

(** [update_holiday], from the stop of the timer to the delivery of the
    signal of the worker thread: [today] is what [datetime.now()] returns
    when the fetcher is constructed. *)
Definition update_holiday (today : datetime) (w : world) (p : plugin)
           (st : state) : plugin * state :=
  let worker_thread := init today in
  match run decimal worker_thread w st with
  | (data_ready holiday, st') =>
      (mkPlugin (_update_ui holiday (p_widget p)) false (p_errors p), st')
  | (fetch_failed e, st') =>
      (mkPlugin (p_widget p) false (p_errors p ++ [e]), st')
  end.

End Plugin.

(** ** Further notions used in the statements *)

(** What [_load_cache] returns for a path, as a function of the directory. *)
Definition cached_value {py : Python} (fs : files) (path : str) : json :=
  match file_lookup path fs with
  | Some (Some text) =>
      match json_loads text with
      | inr v => match get_days v with inr x => x | inl _ => JList [] end
      | inl _ => JList []
      end
  | _ => JList []
  end.

(** The records that [data += self._load_cache(path)] appends. *)
Definition cached_days {py : Python} (fs : files) (path : str)
  : exn + list json :=
  py_iter (cached_value fs path).

(** The error that reading the date of a record raises, if any. *)
Definition date_error (decimal : char -> option N) (day : json) : option exn :=
  match subscript day (lit "date") with
  | inl e => Some e
  | inr dv =>
      match strptime decimal dv with
      | inl e => Some e
      | inr _ => None
      end
  end.

(** A number below 100 in two digits, a number below 10000 in four. *)
Definition two_digits (n : Z) : str :=
  [(48 + Z.to_N (n / 10))%N; (48 + Z.to_N (n mod 10))%N].

Definition four_digits (n : Z) : str :=
  (two_digits (n / 100) ++ two_digits (n mod 100))%list.

(** A date in the form YYYY-MM-DD. *)
Definition iso_date (y m d : Z) : str :=
  (four_digits y ++ 45%N :: two_digits m ++ 45%N :: two_digits d)%list.

(** Two worlds that differ at most in what the network answers. *)
Definition same_but_network (w1 w2 : world) : Prop :=
  w_now w1 = w_now w2
  /\ (forall n, w_can_remove w1 n = w_can_remove w2 n).

(** What the scan holds at any point: a record whose date is read, is
    not before [now], and gives the days left. *)
Definition scanned_from (decimal : char -> option N) (now : datetime)
           (h : Holiday) : Prop :=
  exists d,
    strptime decimal (date h) = inr d
    /\ dt_ge d now = true
    /\ days_left h = sub_days d now.

(** ** Sample data for the worked cases *)

(** A conversion for the worked cases, whose literals are written as
    [repr] writes a float: such a literal is that float. Any text that is
    not a JSON number with a fraction or an exponent is given an
    infinity. *)
Definition sample_python : Python :=
  {| parse_float := fun s => if float_literal s then FFinite s
                             else FInf false |}.

Definition sample_record (n d : string) (off : bool) : json :=
  JDict [(lit "name", JStr (lit n)); (lit "date", JStr (lit d));
         (lit "isOffDay", JBool off)].

Definition sample_days_2025 : list json :=
  [sample_record "X" "2025-10-01" true; sample_record "Y" "2025-09-20" true].

Definition sample_days_2026 : list json :=
  [sample_record "NY" "2026-01-01" true].

Definition sample_payload (year : Z) (days : list json) : list (str * json) :=
  [(lit "year", JInt year); (lit "days", JList days)].

Definition sample_body_2025 : str :=
  json_dumps (JDict (sample_payload 2025 sample_days_2025)).

Definition sample_body_2026 : str :=
  json_dumps (JDict (sample_payload 2026 sample_days_2026)).

(** 25 September 2025, half past ten. *)
Definition sample_now : datetime := mkDatetime 2025 9 25 10 30 0 0.

Definition sample_get (y : Z) : response :=
  if y =? 2025 then Response 200 sample_body_2025
  else if y =? 2026 then Response 200 sample_body_2026
  else Response 404 [].

Definition sample_world : world :=
  mkWorld sample_get (fun _ => true) (fun _ => true) sample_now.

Definition sample_empty : state := mkState [] [] [].

Definition sample_cache : files :=
  [(cache_name 2025, Some sample_body_2025);
   (cache_name 2026, Some sample_body_2026)].

Definition sample_cached : state := mkState sample_cache [] [].

(** A directory with two stale files and an unrelated one. *)
Definition sample_stale : state :=
  mkState ([(lit "holidays_1999.json", Some []);
            (lit "holidays_2000.json.bak", Some []);
            (lit "notes.txt", Some [])] ++ sample_cache) [] [].

(** The server answers the year 2026 with a 500. *)
Definition failing_world : world :=
  mkWorld (fun y => if y =? 2026 then Response 500 [] else sample_get y)
          (fun _ => true) (fun _ => true) sample_now.

(** The server answers the year 2025 with status 300 and the document. *)
Definition redirect_world : world :=
  mkWorld (fun y => if y =? 2025 then Response 300 sample_body_2025
                    else sample_get y)
          (fun _ => true) (fun _ => true) sample_now.

(** The file holidays_1999.json cannot be removed. *)
Definition locked_world : world :=
  mkWorld sample_get (fun _ => true)
          (fun n => negb (str_eqb n (lit "holidays_1999.json"))) sample_now.

(** A cache file that is not a JSON document. *)
Definition corrupt_cached : state :=
  mkState [(cache_name 2025, Some (lit "not json"));
           (cache_name 2026, Some sample_body_2026)] [] [].

(** A cache file whose [days] is the number 5. *)
Definition days_number_text : str :=
  lit "{" ++ quoted (lit "days") ++ lit ": 5}".

Definition days_number_cached : state :=
  mkState [(cache_name 2025, Some days_number_text);
           (cache_name 2026, Some sample_body_2026)] [] [].

(** A document whose [days] holds the lone surrogate U+D800, written in
    the body as a JSON escape. *)
Definition surrogate_body : str :=
  lit "{" ++ quoted (lit "days") ++ lit ": [" ++ quoted (lit "\ud800")
  ++ lit "]}".

Definition surrogate_world : world :=
  mkWorld (fun _ => Response 200 surrogate_body)
          (fun _ => true) (fun _ => true) sample_now.

(** A document with a number that has a fraction. *)
Definition fraction_body : str :=
  lit "{" ++ quoted (lit "days") ++ lit ": [], " ++ quoted (lit "v")
  ++ lit ": 1.5}".

Definition fraction_world : world :=
  mkWorld (fun _ => Response 200 fraction_body)
          (fun _ => true) (fun _ => true) sample_now.

(** A record dated on the day of [sample_now]. *)
Definition sample_today_record : json :=
  sample_record "T" "2025-09-25" true.

(** The holiday that the worked refresh finds. *)
Definition sample_holiday : Holiday :=
  mkHoliday (JStr (lit "X")) (JStr (lit "2025-10-01")) 5.

(** A record whose date is written with slashes. *)
Definition bad_date_record : json :=
  JDict [(lit "date", JStr (lit "2025/10/01"))].

Definition bad_date_cached : state :=
  mkState
    [(cache_name 2025,
      Some (json_dumps
              (JDict (sample_payload 2025
                        [sample_record "X" "2025-10-01" true;
                         bad_date_record]))));
     (cache_name 2026, Some sample_body_2026)] [] [].

(** The server answers every year with an empty JSON list. *)
Definition list_world : world :=
  mkWorld (fun _ => Response 200 (lit "[]"))
          (fun _ => true) (fun _ => true) sample_now.

Definition sample_plugin : plugin :=
  mkPlugin (mkWidget [] [] false None) false [].

(** The text of a list or a dict is of no account in the worked cases. *)
Definition no_repr (v : json) : str := [].

(** * Properties *)

(** ** Text and directory lemmas *)

Lemma str_eqb_refl (a : str) : str_eqb a a = true.
Proof.
  induction a as [|x a IH]; simpl; [reflexivity|].
  now rewrite N.eqb_refl.
Qed.

Lemma str_eqb_eq (a b : str) : str_eqb a b = true <-> a = b.
Proof.
  split.
  - revert b; induction a as [|x a IH]; intros [|y b]; simpl; try discriminate.
    + reflexivity.
    + intros H. apply andb_true_iff in H as [Hx Hab].
      apply N.eqb_eq in Hx. subst. f_equal. now apply IH.
  - intros ->. apply str_eqb_refl.
Qed.

Lemma str_eqb_neq (a b : str) : str_eqb a b = false <-> a <> b.
Proof.
  destruct (str_eqb a b) eqn:E.
  - apply str_eqb_eq in E. split; [discriminate | congruence].
  - split; [|reflexivity]. intros _ H. apply str_eqb_eq in H. congruence.
Qed.


Lemma strip_prefix_Some (p s r : str) :
  strip_prefix p s = Some r -> s = p ++ r.
Proof.
  revert s; induction p as [|x p IH]; simpl; intros s H.
  - now inversion H.
  - destruct s as [|y s]; [discriminate|].
    destruct (N.eqb x y) eqn:E; [|discriminate].
    apply N.eqb_eq in E. subst. f_equal. now apply IH.
Qed.

Lemma file_exists_lookup (n : str) (fs : files) :
  file_exists n fs = true <-> file_lookup n fs <> None.
Proof.
  induction fs as [|[m c] fs IH]; simpl.
  - split; [discriminate | congruence].
  - destruct (str_eqb n m); simpl; [|exact IH].
    split; [discriminate | reflexivity].
Qed.

Lemma file_exists_In (n : str) (fs : files) :
  file_exists n fs = true <-> In n (List.map fst fs).
Proof.
  induction fs as [|[m c] fs IH]; simpl.
  - split; [discriminate | tauto].
  - destruct (str_eqb n m) eqn:E; simpl.
    + apply str_eqb_eq in E. subst. tauto.
    + apply str_eqb_neq in E. rewrite IH. split; [tauto|].
      intros [H|H]; [congruence | exact H].
Qed.

Lemma file_exists_put (n m : str) (c : option str) (fs : files) :
  file_exists n (file_put m c fs) = (str_eqb n m || file_exists n fs)%bool.
Proof.
  induction fs as [|[k c'] fs IH]; simpl.
  - now rewrite orb_false_r.
  - destruct (str_eqb m k) eqn:E; simpl.
    + apply str_eqb_eq in E. subst.
      destruct (str_eqb n k); reflexivity.
    + rewrite IH. destruct (str_eqb n m), (str_eqb n k); reflexivity.
Qed.

Lemma file_lookup_put_same (n : str) (c : option str) (fs : files) :
  file_lookup n (file_put n c fs) = Some c.
Proof.
  induction fs as [|[k c'] fs IH]; simpl.
  - now rewrite str_eqb_refl.
  - destruct (str_eqb n k) eqn:E; simpl; rewrite E; [reflexivity | exact IH].
Qed.

Lemma file_lookup_put_other (n m : str) (c : option str) (fs : files) :
  n <> m -> file_lookup n (file_put m c fs) = file_lookup n fs.
Proof.
  intros Hnm. induction fs as [|[k c'] fs IH]; simpl.
  - apply str_eqb_neq in Hnm. now rewrite Hnm.
  - destruct (str_eqb m k) eqn:E; simpl.
    + apply str_eqb_eq in E. subst.
      apply str_eqb_neq in Hnm. now rewrite Hnm.
    + now rewrite IH.
Qed.

Lemma file_put_new (n : str) (c : option str) (fs : files) :
  file_exists n fs = false -> file_put n c fs = fs ++ [(n, c)].
Proof.
  induction fs as [|[k c'] fs IH]; simpl; [reflexivity|].
  destruct (str_eqb n k); simpl; [discriminate|].
  intros H. now rewrite IH.
Qed.

Lemma file_lookup_remove_other (n m : str) (fs : files) :
  n <> m -> file_lookup n (file_remove m fs) = file_lookup n fs.
Proof.
  intros Hnm. induction fs as [|[k c] fs IH]; simpl; [reflexivity|].
  destruct (str_eqb m k) eqn:E; simpl.
  - apply str_eqb_eq in E. subst. apply str_eqb_neq in Hnm. now rewrite Hnm.
  - now rewrite IH.
Qed.

Lemma file_exists_remove (n m : str) (fs : files) :
  file_exists n (file_remove m fs)
  = (negb (str_eqb m n) && file_exists n fs)%bool.
Proof.
  induction fs as [|[k c] fs IH]; simpl.
  - now rewrite andb_false_r.
  - destruct (str_eqb m k) eqn:E; simpl.
    + rewrite IH. apply str_eqb_eq in E. subst.
      destruct (str_eqb k n) eqn:F.
      * reflexivity.
      * simpl. replace (str_eqb n k) with false; [reflexivity|].
        symmetry. apply str_eqb_neq. apply str_eqb_neq in F. congruence.
    + rewrite IH. destruct (str_eqb n k) eqn:F; simpl.
      * apply str_eqb_eq in F. subst. rewrite E. reflexivity.
      * reflexivity.
Qed.

(** ** Effects of the operations *)

Section Effects.

Variable decimal : char -> option N.

Context {py : Python}.
Variable self : HolidayFetcher.
Variable w : world.

Lemma preserved_refl (fs : files) : preserved fs fs.
Proof. intros n _. reflexivity. Qed.

Lemma preserved_exists (fs fs' : files) (n : str) :
  preserved fs fs' -> file_exists n fs = true -> file_exists n fs' = true.
Proof.
  intros H E. apply file_exists_lookup. rewrite (H n E).
  now apply file_exists_lookup.
Qed.

Lemma preserved_trans (a b c : files) :
  preserved a b -> preserved b c -> preserved a c.
Proof.
  intros Hab Hbc n E. rewrite (Hbc n (preserved_exists _ _ _ Hab E)).
  now apply Hab.
Qed.

Lemma preserved_put_new (n : str) (c : option str) (fs : files) :
  file_exists n fs = false -> preserved fs (file_put n c fs).
Proof.
  intros Hn m Hm. apply file_lookup_put_other. intros ->. congruence.
Qed.

Lemma dump_to_file_spec (path : str) (data : json) (st : state) :
  exists r fs',
    dump_to_file w path data st
    = (r, mkState fs' (st_requests st) (st_log st))
    /\ (fs' = st_files st
        \/ exists t, fs' = file_put path (Some t) (st_files st))
    /\ (r = inr tt -> file_exists path fs' = true).
Proof.
  destruct st as [fs rq lg]. unfold dump_to_file.
  destruct (w_can_write w path).
  - unfold bind, get_files, set_files, raise; simpl.
    destruct (forallb encodable_str (iterencode 0 data)); simpl.
    + eexists _, _. split; [reflexivity|]. split; [right; eauto|].
      intros _. rewrite file_exists_put, str_eqb_refl. reflexivity.
    + eexists _, _. split; [reflexivity|]. split; [right; eauto|].
      discriminate.
  - unfold raise. eexists _, _. simpl.
    split; [reflexivity|]. split; [now left | discriminate].
Qed.

Lemma fetch_and_cache_spec (year : Z) (path : str) (st : state) :
  exists r fs' lg,
    _fetch_and_cache w year path st
    = (r, mkState fs' (st_requests st ++ [year]) (st_log st ++ lg))
    /\ (fs' = st_files st
        \/ exists t, fs' = file_put path (Some t) (st_files st))
    /\ (forall x, In x lg -> forall n, x <> LogCleaned n)
    /\ (forall v, r = inr v -> file_exists path fs' = true).
Proof.
  destruct st as [fs rq lg].
  unfold _fetch_and_cache, try_except, bind, note_request; simpl.
  destruct (w_get w year) as [|status body].
  - unfold raise, log; simpl. eexists _, _, [_]. split; [reflexivity|].
    repeat split; try (now left).
    + intros x [<-|[]] n; discriminate.
    + discriminate.
  - unfold raise_for_status.
    destruct ((400 <=? status) && (status <? 600))%bool.
    + unfold raise, log; simpl. eexists _, _, [_]. split; [reflexivity|].
      repeat split; try (now left).
      * intros x [<-|[]] n; discriminate.
      * discriminate.
    + unfold ret at 1. cbv beta iota.
      destruct (json_loads body) as [e0|data].
      * unfold raise, log; simpl. eexists _, _, [_]. split; [reflexivity|].
        repeat split; try (now left).
        -- intros x [<-|[]] n; discriminate.
        -- discriminate.
      * match goal with
        | |- context [dump_to_file w path data ?s] =>
            destruct (dump_to_file_spec path data s)
              as (r & fs' & E & Hfs & Hok)
        end.
        rewrite E. simpl in *. destruct r as [e|[]].
        -- unfold raise, log; simpl. eexists _, _, [_].
           split; [reflexivity|]. repeat split; try assumption.
           ++ intros x [<-|[]] n; discriminate.
           ++ discriminate.
        -- unfold ret, log; simpl. eexists _, _, [_].
           split; [reflexivity|]. repeat split; try assumption.
           ++ intros x [<-|[]] n; discriminate.
           ++ intros _ _. now apply Hok.
Qed.

Lemma load_cache_spec (path : str) (st : state) :
  exists v lg,
    _load_cache path st
    = (inr v, mkState (st_files st) (st_requests st) (st_log st ++ lg))
    /\ (forall x, In x lg -> forall n, x <> LogCleaned n).
Proof.
  destruct st as [fs rq lg].
  cbv [_load_cache try_except bind load_file get_files lift raise ret log
       st_files st_requests st_log].
  destruct (file_lookup path fs) as [[text|]|]; simpl.
  1: destruct (json_loads text) as [e0|v]; simpl.
  2: destruct (get_days v) as [e|x]; simpl.
  3: { exists x, []. rewrite List.app_nil_r. split; [reflexivity | intros ? []]. }
  all: eexists _, [_]; (split; [reflexivity|]);
    intros x [<-|[]] n; discriminate.
Qed.

Lemma step_inv_refl (years : list Z) (st : state) : step_inv years st st.
Proof.
  split; [apply preserved_refl|]. exists [], [].
  rewrite !List.app_nil_r.
  split; [reflexivity|]. split; [reflexivity|].
  split; intros ? [].
Qed.

Lemma step_inv_trans (years : list Z) (a b c : state) :
  step_inv years a b -> step_inv years b c -> step_inv years a c.
Proof.
  intros [P1 (rq1 & lg1 & R1 & L1 & C1 & F1)] [P2 (rq2 & lg2 & R2 & L2 & C2 & F2)].
  split; [eapply preserved_trans; eassumption|].
  exists (rq1 ++ rq2), (lg1 ++ lg2).
  rewrite R2, R1, L2, L1, !List.app_assoc.
  split; [reflexivity|]. split; [reflexivity|]. split; [|intros y H; split].
  - intros x Hx. apply in_app_or in Hx as [Hx|Hx]; auto.
  - apply in_app_or in H as [H|H]; [now apply F1 | now apply F2].
  - apply in_app_or in H as [H|H]; [now apply F1|].
    destruct (F2 y H) as [_ E].
    destruct (file_exists (cache_name y) (st_files a)) eqn:Ea; [|reflexivity].
    rewrite (preserved_exists _ _ _ P1 Ea) in E. discriminate.
Qed.

Lemma load_year_spec (years : list Z) (data : list json) (year : Z)
      (st : state) :
  In year years ->
  exists r st',
    load_year w data year st = (r, st')
    /\ step_inv years st st'
    /\ (forall d, r = inr d ->
          file_exists (cache_name year) (st_files st') = true)
    /\ (st_files st' = st_files st
        \/ exists t,
             st_files st' = file_put (cache_name year) (Some t) (st_files st)).
Proof.
  intros Hin. unfold load_year.
  unfold bind at 1. unfold get_files at 1. cbv beta iota.
  unfold bind at 1.
  assert (Hrest : forall st1,
    step_inv years st st1 ->
    file_exists (cache_name year) (st_files st1) = true ->
    exists r st',
      (loaded <- _load_cache (cache_name year) ;;
       more <- lift (py_iter loaded) ;; ret (data ++ more)) st1 = (r, st')
      /\ step_inv years st st'
      /\ (forall d, r = inr d ->
            file_exists (cache_name year) (st_files st') = true)
      /\ st_files st' = st_files st1).
  { intros st1 Hinv Hex.
    destruct (load_cache_spec (cache_name year) st1) as (v & lg & E & Hlg).
    unfold bind at 1. rewrite E.
    assert (Hinv' : step_inv years st
              (mkState (st_files st1) (st_requests st1) (st_log st1 ++ lg))).
    { eapply step_inv_trans; [exact Hinv|].
      split; [apply preserved_refl|]. exists [], lg. simpl.
      rewrite List.app_nil_r.
      split; [reflexivity|]. split; [reflexivity|].
      split; [assumption | intros ? []]. }
    unfold bind, lift. destruct (py_iter v) as [e|more]; simpl.
    - eexists _, _. split; [reflexivity|]. split; [exact Hinv'|].
      split; [discriminate | reflexivity].
    - eexists _, _. split; [reflexivity|]. split; [exact Hinv'|].
      split; [intros _ _; exact Hex | reflexivity]. }
  destruct (file_exists (cache_name year) (st_files st)) eqn:Hex; simpl.
  - unfold ret at 1. cbv beta iota.
    destruct (Hrest st (step_inv_refl years st) Hex)
      as (r & st' & E & H1 & H2 & H3).
    exists r, st'. split; [exact E|]. split; [exact H1|].
    split; [exact H2 | now left].
  - unfold bind at 1.
    destruct (fetch_and_cache_spec year (cache_name year) st)
      as (r & fs' & lg & E & Hfs & Hlg & Hok).
    rewrite E.
    assert (Hinv : step_inv years st
              (mkState fs' (st_requests st ++ [year]) (st_log st ++ lg))).
    { split; simpl.
      - destruct Hfs as [->|[t ->]];
          [apply preserved_refl | now apply preserved_put_new].
      - exists [year], lg.
        split; [reflexivity|]. split; [reflexivity|].
        split; [assumption|]. intros y [<-|[]]. now split. }
    destruct r as [e|v].
    + eexists _, _. split; [reflexivity|]. split; [exact Hinv|].
      split; [discriminate | exact Hfs].
    + unfold ret at 1. cbv beta iota.
      destruct (Hrest _ Hinv (Hok v eq_refl))
        as (r & st' & E' & H1 & H2 & H3).
      exists r, st'. split; [exact E'|]. split; [exact H1|].
      split; [exact H2|]. rewrite H3. exact Hfs.
Qed.

Lemma fetch_fails_spec (year : Z) (path : str) (st : state) :
  fetch_fails w year = true ->
  exists e,
    _fetch_and_cache w year path st
    = (inl e, mkState (st_files st) (st_requests st ++ [year])
                      (st_log st ++ [LogDownloadFailed year e])).
Proof.
  unfold fetch_fails, _fetch_and_cache.
  cbv [try_except bind note_request raise_for_status raise ret log
       st_files st_requests st_log].
  destruct st as [fs rq lg].
  destruct (w_get w year) as [|status body]; [eauto|].
  destruct ((400 <=? status) && (status <? 600))%bool; [eauto|].
  destruct (json_loads body); [eauto | discriminate].
Qed.

Lemma load_years_spec (years : list Z) (l : list Z) (data : list json)
      (st : state) :
  incl l years ->
  exists r st',
    foldM (load_year w) l data st = (r, st')
    /\ step_inv years st st'
    /\ (forall d, r = inr d ->
          forall y, In y l ->
            file_exists (cache_name y) (st_files st') = true).
Proof.
  revert data st. induction l as [|y l IH]; intros data st Hincl; simpl.
  - unfold ret. eexists _, _. split; [reflexivity|].
    split; [apply step_inv_refl|]. intros _ _ ? [].
  - destruct (load_year_spec years data y st)
      as (r & st1 & E & Hinv & Hex & _).
    { apply Hincl. now left. }
    unfold bind. rewrite E. destruct r as [e|data1].
    + eexists _, _. split; [reflexivity|]. split; [exact Hinv|]. discriminate.
    + destruct (IH data1 st1) as (r2 & st2 & E2 & Hinv2 & Hex2).
      { intros z Hz. apply Hincl. now right. }
      rewrite E2. eexists _, _. split; [reflexivity|].
      split; [eapply step_inv_trans; eassumption|].
      intros d -> z [<-|Hz].
      * destruct Hinv2 as [P _]. eapply preserved_exists; [exact P|].
        now apply (Hex data1).
      * now apply (Hex2 d).
Qed.

Lemma cleanup_file_eq (filename : str) (st : state) :
  cleanup_file decimal self w filename st =
  if stale decimal self filename then
    if w_can_remove w filename then
      (inr tt, mkState (file_remove filename (st_files st)) (st_requests st)
                       (st_log st ++ [LogCleaned filename]))
    else (inl OSError, st)
  else (inr tt, st).
Proof.
  unfold cleanup_file, stale.
  destruct (match_year decimal filename) as [y|]; [|reflexivity].
  destruct (negb (existsb (Z.eqb y) (required_years self))); [|reflexivity].
  cbv [os_remove bind]. destruct (w_can_remove w filename); reflexivity.
Qed.

Lemma file_remove_sweep (x : str) (l : list str) (fs : files) :
  stale decimal self x = true ->
  sweep decimal self l (file_remove x fs) = sweep decimal self (x :: l) fs.
Proof.
  intros Hx. unfold sweep, file_remove.
  induction fs as [|[k c] fs IH]; simpl; [reflexivity|].
  destruct (str_eqb x k) eqn:E; simpl.
  - apply str_eqb_eq in E. subst k. rewrite Hx, str_eqb_refl. simpl. exact IH.
  - replace (str_eqb k x) with false.
    + simpl. now rewrite IH.
    + symmetry. apply str_eqb_neq. apply str_eqb_neq in E. congruence.
Qed.

Lemma sweep_skip (x : str) (l : list str) (fs : files) :
  stale decimal self x = false ->
  sweep decimal self (x :: l) fs = sweep decimal self l fs.
Proof.
  intros Hx. unfold sweep. apply filter_ext. intros [k c]. simpl.
  destruct (str_eqb k x) eqn:E; simpl; [|reflexivity].
  apply str_eqb_eq in E. subst. now rewrite Hx.
Qed.

Lemma sweep_nil (fs : files) : sweep decimal self [] fs = fs.
Proof.
  unfold sweep. induction fs as [|e fs IH]; [reflexivity|].
  cbn [filter]. change (existsb (str_eqb (fst e)) []) with false.
  rewrite andb_false_r. cbn [negb]. f_equal. exact IH.
Qed.

(** The cleanup loop when every stale name can be removed. *)
Lemma cleanup_loop_ok (l : list str) (st : state) :
  (forall n, In n l -> stale decimal self n = true ->
             w_can_remove w n = true) ->
  exists lg,
    for_each l (cleanup_file decimal self w) st
    = (inr tt, mkState (sweep decimal self l (st_files st)) (st_requests st)
                       (st_log st ++ lg)).
Proof.
  revert st. induction l as [|x l IH]; intros st Hrm; simpl.
  - exists []. rewrite List.app_nil_r, sweep_nil. now destruct st.
  - unfold bind. rewrite cleanup_file_eq.
    destruct (stale decimal self x) eqn:Hx.
    + rewrite (Hrm x (or_introl eq_refl) Hx).
      destruct (IH (mkState (file_remove x (st_files st)) (st_requests st)
                            (st_log st ++ [LogCleaned x]))) as [lg E].
      { intros n Hn. apply Hrm. now right. }
      rewrite E. simpl. rewrite file_remove_sweep by exact Hx.
      rewrite <- List.app_assoc. eauto.
    + destruct (IH st) as [lg E].
      { intros n Hn. apply Hrm. now right. }
      rewrite E, sweep_skip by exact Hx. eauto.
Qed.

(** The cleanup loop when a stale name cannot be removed: the loop stops
    there, with the stale names before it deleted. *)
Lemma cleanup_loop_fail (l1 : list str) (x : str) (l2 : list str)
      (st : state) :
  (forall n, In n l1 -> stale decimal self n = true ->
             w_can_remove w n = true) ->
  stale decimal self x = true ->
  w_can_remove w x = false ->
  exists lg,
    for_each (l1 ++ x :: l2) (cleanup_file decimal self w) st
    = (inl OSError, mkState (sweep decimal self l1 (st_files st))
                            (st_requests st) (st_log st ++ lg)).
Proof.
  revert st. induction l1 as [|y l1 IH]; intros st Hrm Hx Hno; simpl.
  - unfold bind. rewrite cleanup_file_eq, Hx, Hno.
    exists []. rewrite List.app_nil_r, sweep_nil. now destruct st.
  - unfold bind. rewrite cleanup_file_eq.
    destruct (stale decimal self y) eqn:Hy.
    + rewrite (Hrm y (or_introl eq_refl) Hy).
      destruct (IH (mkState (file_remove y (st_files st)) (st_requests st)
                            (st_log st ++ [LogCleaned y]))) as [lg E];
        try assumption.
      { intros n Hn. apply Hrm. now right. }
      rewrite E. simpl. rewrite file_remove_sweep by exact Hy.
      rewrite <- List.app_assoc. eauto.
    + destruct (IH st) as [lg E]; try assumption.
      { intros n Hn. apply Hrm. now right. }
      rewrite E, sweep_skip by exact Hy. eauto.
Qed.

(** Either every stale name of a list can be removed, or there is a first
    one that cannot. *)
Lemma first_locked (l : list str) :
  (forall n, In n l -> stale decimal self n = true ->
             w_can_remove w n = true)
  \/ exists l1 x l2,
       l = l1 ++ x :: l2
       /\ (forall n, In n l1 -> stale decimal self n = true ->
                     w_can_remove w n = true)
       /\ stale decimal self x = true /\ w_can_remove w x = false.
Proof.
  induction l as [|y l IH].
  - left. intros ? [].
  - destruct (stale decimal self y && negb (w_can_remove w y))%bool eqn:E.
    + right. exists [], y, l. apply andb_true_iff in E as [E1 E2].
      apply negb_true_iff in E2. repeat split; try assumption. intros ? [].
    + assert (Hy : stale decimal self y = true -> w_can_remove w y = true).
      { intros Hs. rewrite Hs in E. simpl in E.
        now apply negb_false_iff in E. }
      destruct IH as [IH|(l1 & x & l2 & -> & H1 & H2 & H3)].
      * left. intros n [<-|Hn]; [exact Hy | now apply IH].
      * right. exists (y :: l1), x, l2. repeat split; try assumption.
        intros n [<-|Hn]; [exact Hy | now apply H1].
Qed.

Lemma sweep_lookup_kept (l : list str) (n : str) (fs : files) :
  stale decimal self n = false ->
  file_lookup n (sweep decimal self l fs) = file_lookup n fs.
Proof.
  intros Hn. unfold sweep. induction fs as [|[k c] fs IH]; simpl; [reflexivity|].
  destruct (str_eqb n k) eqn:E.
  - apply str_eqb_eq in E. subst k. rewrite Hn. simpl.
    now rewrite str_eqb_refl.
  - destruct (negb _); simpl; [rewrite E|]; exact IH.
Qed.

Lemma sweep_exists (l : list str) (n : str) (fs : files) :
  file_exists n (sweep decimal self l fs)
  = (file_exists n fs
     && negb (stale decimal self n && existsb (str_eqb n) l))%bool.
Proof.
  unfold sweep, file_exists.
  induction fs as [|[k c] fs IH]; [reflexivity|].
  cbn [filter existsb fst].
  destruct (str_eqb n k) eqn:E.
  - apply str_eqb_eq in E. subst k.
    destruct (negb (stale decimal self n && existsb (str_eqb n) l)) eqn:F.
    + cbn [existsb fst]. now rewrite str_eqb_refl.
    + rewrite IH. cbn [orb]. apply andb_false_r.
  - cbn [orb].
    destruct (negb (stale decimal self k && existsb (str_eqb k) l)).
    + cbn [existsb fst]. rewrite E. exact IH.
    + exact IH.
Qed.

Lemma sweep_incl (l : list str) (fs : files) (e : str * option str) :
  In e (sweep decimal self l fs) -> In e fs.
Proof. unfold sweep. intros H. now apply filter_In in H. Qed.

Lemma file_exists_names (n : str) (fs : files) :
  existsb (str_eqb n) (List.map fst fs) = file_exists n fs.
Proof.
  unfold file_exists. induction fs as [|e fs IH]; simpl; [reflexivity|].
  now rewrite IH.
Qed.

(** [_cleanup_old_cache] either deletes every stale entry, or stops with
    OSError at the first stale name that cannot be removed. *)
Lemma cleanup_spec (st : state) :
  (exists lg,
     _cleanup_old_cache decimal self w st
     = (inr tt, mkState (sweep decimal self (List.map fst (st_files st))
                               (st_files st))
                        (st_requests st) (st_log st ++ lg)))
  \/ (exists l1 x l2 lg,
        List.map fst (st_files st) = l1 ++ x :: l2
        /\ (forall n, In n l1 -> stale decimal self n = true ->
                      w_can_remove w n = true)
        /\ stale decimal self x = true /\ w_can_remove w x = false
        /\ _cleanup_old_cache decimal self w st
           = (inl OSError, mkState (sweep decimal self l1 (st_files st))
                                   (st_requests st) (st_log st ++ lg))).
Proof.
  unfold _cleanup_old_cache, bind, get_files.
  destruct (first_locked (List.map fst (st_files st)))
    as [Hok|(l1 & x & l2 & E & H1 & H2 & H3)].
  - left. now apply cleanup_loop_ok.
  - right. exists l1, x, l2.
    destruct (cleanup_loop_fail l1 x l2 st H1 H2 H3) as [lg Hlg].
    exists lg. rewrite E. auto.
Qed.

Lemma run_loop_failed (st st1 : state) (e : exn) :
  foldM (load_year w) (required_years self) [] st = (inl e, st1) ->
  run decimal self w st = (fetch_failed e, st1).
Proof.
  intros E. unfold run, run_body, bind. now rewrite E.
Qed.

Lemma run_cleanup_failed (st st1 st2 : state) (data : list json) (e : exn) :
  foldM (load_year w) (required_years self) [] st = (inr data, st1) ->
  _cleanup_old_cache decimal self w st1 = (inl e, st2) ->
  run decimal self w st = (fetch_failed e, st2).
Proof.
  intros E1 E2. unfold run, run_body, bind. now rewrite E1, E2.
Qed.

Lemma run_scanned (st st1 st2 : state) (data : list json) :
  foldM (load_year w) (required_years self) [] st = (inr data, st1) ->
  _cleanup_old_cache decimal self w st1 = (inr tt, st2) ->
  run decimal self w st
  = (match scan decimal (w_now w) data None with
     | inr nearest => data_ready nearest
     | inl e => fetch_failed e
     end, st2).
Proof.
  intros E1 E2. unfold run, run_body, bind. rewrite E1, E2.
  unfold lift. now destruct (scan decimal (w_now w) data None).
Qed.

(** [run] only requests years whose cache file is missing. *)
Lemma run_requests (st : state) :
  exists rq,
    st_requests (snd (run decimal self w st)) = st_requests st ++ rq
    /\ forall y, In y rq ->
         In y (required_years self)
         /\ file_exists (cache_name y) (st_files st) = false.
Proof.
  destruct (load_years_spec (required_years self) (required_years self) [] st)
    as (r & st1 & E & [_ (rq & lg & R & _ & _ & F)] & _).
  { apply incl_refl. }
  exists rq. split; [|exact F].
  destruct r as [e|data].
  - rewrite (run_loop_failed _ _ _ E). exact R.
  - destruct (cleanup_spec st1)
      as [[lg1 E1]|(l1 & x & l2 & lg1 & _ & _ & _ & _ & E1)].
    + rewrite (run_scanned _ _ _ _ E E1). exact R.
    + rewrite (run_cleanup_failed _ _ _ _ _ E E1). exact R.
Qed.

End Effects.

(** ** Cache names *)

Lemma ascii_str_lit_holidays : ascii_str (lit "holidays_").
Proof. repeat constructor. Qed.

Lemma ascii_str_lit_json : ascii_str (lit ".json").
Proof. repeat constructor. Qed.

Lemma ascii_str_uint (u : Decimal.uint) : ascii_str (uint_str u).
Proof. induction u; simpl; constructor; (reflexivity || assumption). Qed.

Lemma ascii_str_int (z : Z) : ascii_str (int_str z).
Proof.
  unfold int_str. destruct (z <? 0).
  - constructor; [reflexivity | apply ascii_str_uint].
  - apply ascii_str_uint.
Qed.

Lemma ascii_str_cache_name (y : Z) : ascii_str (cache_name y).
Proof.
  unfold cache_name, ascii_str. rewrite !Forall_app.
  split; [apply ascii_str_lit_holidays|].
  split; [apply ascii_str_int | apply ascii_str_lit_json].
Qed.

(** For the names the program makes itself, the years 1 to 10000: the
    name of year [y] either does not match the pattern or carries [y]. *)
Lemma cache_name_years_checked :
  forallb (fun n =>
             match match_year ascii_digit (cache_name (Z.of_nat n)) with
             | Some y => y =? Z.of_nat n
             | None => true
             end) (seq 1 (Z.to_nat 10000)) = true.
Proof. vm_compute. reflexivity. Qed.

Lemma match_year_cache_name_ascii (y y' : Z) :
  1 <= y <= 10000 ->
  match_year ascii_digit (cache_name y) = Some y' -> y' = y.
Proof.
  intros Hy E. pose proof cache_name_years_checked as H.
  rewrite forallb_forall in H. specialize (H (Z.to_nat y)).
  rewrite Z2Nat.id in H by lia. rewrite E in H.
  apply Z.eqb_eq. apply H. apply in_seq. lia.
Qed.

Section Claims.

Variable decimal : char -> option N.

Context {py : Python}.

(** On the ASCII range the table of decimal digits is the ten digits. *)
Hypothesis decimal_ascii :
  forall c, (c < 128)%N -> decimal c = ascii_digit c.

Lemma strip_prefix_ascii (p s r : str) :
  ascii_str s -> strip_prefix p s = Some r -> ascii_str r.
Proof.
  intros Hs E. apply strip_prefix_Some in E. subst s.
  unfold ascii_str in *. now apply Forall_app in Hs.
Qed.

Lemma re_year_ascii (s : str) :
  ascii_str s -> re_year decimal s = re_year ascii_digit s.
Proof.
  intros H. unfold re_year.
  destruct s as [|a [|b [|c [|d s]]]]; try reflexivity.
  inversion H as [|? ? Ha H1]; subst. inversion H1 as [|? ? Hb H2]; subst.
  inversion H2 as [|? ? Hc H3]; subst. inversion H3 as [|? ? Hd H4]; subst.
  now rewrite !decimal_ascii by assumption.
Qed.

Lemma match_year_ascii (s : str) :
  ascii_str s -> match_year decimal s = match_year ascii_digit s.
Proof.
  intros H. unfold match_year.
  destruct (strip_prefix (lit "holidays_") s) as [s1|] eqn:E; [|reflexivity].
  now rewrite (re_year_ascii s1 (strip_prefix_ascii _ _ _ H E)).
Qed.

(** The cache file of a required year is never stale. *)
Lemma required_not_stale (self : HolidayFetcher) (y : Z) :
  1 <= y <= 10000 -> In y (required_years self) ->
  stale decimal self (cache_name y) = false.
Proof.
  intros Hy Hin. unfold stale.
  rewrite match_year_ascii by apply ascii_str_cache_name.
  destruct (match_year ascii_digit (cache_name y)) as [y'|] eqn:E;
    [|reflexivity].
  apply match_year_cache_name_ascii in E; [|exact Hy]. subst y'.
  apply negb_false_iff. apply existsb_exists. exists y.
  split; [exact Hin | apply Z.eqb_refl].
Qed.

Lemma valid_year (t : datetime) :
  valid_datetime t = true -> 1 <= dt_year t <= 9999.
Proof.
  unfold valid_datetime, valid_date. rewrite !andb_true_iff. lia.
Qed.

(** C4. When the cache files of both required years exist, the refresh
    makes no HTTP request: the list of requested years is left as it was. *)
Theorem C4_no_fetch_when_cached (self : HolidayFetcher) (w : world)
        (st : state) :
  (forall y, In y (required_years self) ->
             file_exists (cache_name y) (st_files st) = true) ->
  st_requests (snd (run decimal self w st)) = st_requests st.
Proof.
  intros Hall. destruct (run_requests decimal self w st) as (rq & R & F).
  rewrite R. destruct rq as [|y rq]; [apply List.app_nil_r|].
  destruct (F y (or_introl eq_refl)) as [Hin Hno].
  rewrite (Hall y Hin) in Hno. discriminate.
Qed.


Lemma uint_str_inj (u v : Decimal.uint) : uint_str u = uint_str v -> u = v.
Proof.
  revert v. induction u; destruct v; simpl; intros H;
    try discriminate; try reflexivity; inversion H; f_equal; auto.
Qed.

Lemma uint_str_no_minus (u : Decimal.uint) (s : str) :
  uint_str u <> 45%N :: s.
Proof. destruct u; simpl; discriminate. Qed.

Lemma int_str_inj (a b : Z) : int_str a = int_str b -> a = b.
Proof.
  unfold int_str. intros H.
  assert (Habs : forall x y : Z,
            uint_str (N.to_uint (Z.abs_N x)) = uint_str (N.to_uint (Z.abs_N y))
            -> Z.abs_N x = Z.abs_N y).
  { intros x y E. apply uint_str_inj in E.
    rewrite <- (DecimalN.Unsigned.of_to (Z.abs_N x)).
    rewrite <- (DecimalN.Unsigned.of_to (Z.abs_N y)). now rewrite E. }
  destruct (Z.ltb_spec a 0), (Z.ltb_spec b 0).
  - inversion H as [E]. apply Habs in E. lia.
  - symmetry in H. now apply uint_str_no_minus in H.
  - now apply uint_str_no_minus in H.
  - apply Habs in H. lia.
Qed.

Lemma cache_name_inj (a b : Z) : cache_name a = cache_name b -> a = b.
Proof.
  unfold cache_name. intros H. apply app_inv_head in H.
  apply app_inv_tail in H. now apply int_str_inj.
Qed.

(** C3 (amended). When the download of a required year whose cache file
    is missing fails (the request raises, the status is a 4xx or a 5xx, or
    the body is not a JSON document), the refresh reports a failure, no
    cache file of that year is written, every entry of the directory is
    left as it was and nothing is logged as cleaned. *)
Theorem C3_fetch_failure_aborts (self : HolidayFetcher) (w : world)
        (st : state) (year : Z) :
  In year (required_years self) ->
  file_exists (cache_name year) (st_files st) = false ->
  fetch_fails w year = true ->
  let st' := snd (run decimal self w st) in
  (exists e, fst (run decimal self w st) = fetch_failed e)
  /\ file_exists (cache_name year) (st_files st') = false
  /\ preserved (st_files st) (st_files st')
  /\ (exists lg, st_log st' = st_log st ++ lg
                 /\ forall n, ~ In (LogCleaned n) lg).
Proof.
  intros Hin Hmiss Hfail.
  assert (Hloop : forall l data st0,
    In year l -> incl l (required_years self) ->
    file_exists (cache_name year) (st_files st0) = false ->
    exists e st1,
      foldM (load_year w) l data st0 = (inl e, st1)
      /\ file_exists (cache_name year) (st_files st1) = false
      /\ step_inv (required_years self) st0 st1).
  { induction l as [|y l IH]; intros data st0 Hy Hincl Hm; [destruct Hy|].
    cbn [foldM]. unfold bind.
    destruct (load_year_spec w (required_years self) data y st0)
      as (r & st1 & E & Hinv & _ & Hfs).
    { apply Hincl. now left. }
    destruct (Z.eq_dec y year) as [->|Hne].
    - (* the turn of the failing year *)
      clear E Hinv Hfs.
      unfold load_year, bind, get_files. rewrite Hm. cbn [negb].
      destruct (fetch_fails_spec w year (cache_name year) st0 Hfail) as [e E].
      rewrite E. eexists _, _. split; [reflexivity|]. split; [exact Hm|].
      split; [apply preserved_refl|]. exists [year], [LogDownloadFailed year e].
      split; [reflexivity|]. split; [reflexivity|]. split.
      + intros x [<-|[]] n. discriminate.
      + intros z [<-|[]]. now split.
    - rewrite E.
      assert (Hm1 : file_exists (cache_name year) (st_files st1) = false).
      { destruct Hfs as [->|[t ->]]; [exact Hm|].
        rewrite file_exists_put, Hm, orb_false_r.
        apply str_eqb_neq. intros C. apply cache_name_inj in C. congruence. }
      destruct r as [e|data1].
      + eexists _, _. split; [reflexivity|]. now split.
      + destruct Hy as [Hy|Hy]; [congruence|].
        destruct (IH data1 st1 Hy) as (e & st2 & E2 & Hm2 & Hinv2);
          [intros z Hz; apply Hincl; now right | exact Hm1 |].
        rewrite E2. eexists _, _. split; [reflexivity|].
        split; [exact Hm2|]. eapply step_inv_trans; eassumption. }
  destruct (Hloop (required_years self) [] st Hin (incl_refl _) Hmiss)
    as (e & st1 & E & Hm & [P (rq & lg & _ & L & C & _)]).
  cbv zeta. rewrite (run_loop_failed decimal self w _ _ _ E). simpl.
  split; [eauto|]. split; [exact Hm|]. split; [exact P|].
  exists lg. split; [exact L|]. intros n Hn. now apply (C _ Hn n).
Qed.

(** C5 (amended). When the cache file of a year exists but no [days] can
    be read from it (reading raises, the text is not JSON, the document is
    not an object, or the object has no key [days]), loading it yields the
    empty list, and the turn of the loop for that year ends normally: no
    request, the directory and the records read so far unchanged. The log
    gains exactly one record, of the read failure, except when the file
    holds an object, which has no key [days]: then nothing is logged. A
    document in the file is nested within the limit. *)
Theorem C5_corrupt_cache_yields_no_records (w : world) (st : state)
        (year : Z) (data : list json) (entry : option str) :
  file_lookup (cache_name year) (st_files st) = Some entry ->
  no_days entry = true ->
  within_nesting entry = true ->
  fst (_load_cache (cache_name year) st) = inr (JList [])
  /\ exists lg,
       load_year w data year st
       = (inr data, mkState (st_files st) (st_requests st) (st_log st ++ lg))
       /\ if holds_object entry then lg = []
          else exists e, lg = [LogReadFailed (cache_name year) e].
Proof.
  intros Hlook Hno _.
  assert (Hload : exists lg,
    _load_cache (cache_name year) st
    = (inr (JList []), mkState (st_files st) (st_requests st) (st_log st ++ lg))
    /\ if holds_object entry then lg = []
       else exists e, lg = [LogReadFailed (cache_name year) e]).
  { destruct st as [fs rq lg]. simpl in *.
    cbv [_load_cache try_except bind load_file get_files lift raise ret log
         st_files st_requests st_log].
    rewrite Hlook. unfold no_days in Hno. unfold holds_object.
    destruct entry as [text|]; [|eexists; split; [reflexivity | eauto]].
    destruct (json_loads text) as [e|v];
      [eexists; split; [reflexivity | eauto]|].
    destruct v; try (eexists; split; [reflexivity | eauto]).
    cbn [get_days].
    destruct (dict_get (lit "days") d); [discriminate|].
    exists []. rewrite List.app_nil_r. split; reflexivity. }
  destruct Hload as (lg & E & Hlg). split; [now rewrite E|].
  exists lg. split; [|exact Hlg].
  unfold load_year, bind, get_files.
  replace (file_exists (cache_name year) (st_files st)) with true.
  - cbn [negb]. unfold ret at 1. rewrite E. simpl.
    unfold ret. now rewrite List.app_nil_r.
  - symmetry. apply file_exists_lookup. rewrite Hlook. discriminate.
Qed.






Lemma sweep_prefix (self : HolidayFetcher) (l1 l2 : files) :
  NoDup (List.map fst (l1 ++ l2)) ->
  sweep decimal self (List.map fst l1) (l1 ++ l2)
  = filter (fun e => negb (stale decimal self (fst e))) l1 ++ l2.
Proof.
  intros Hnd. unfold sweep. rewrite filter_app. f_equal.
  - apply filter_ext_in. intros e He.
    replace (existsb (str_eqb (fst e)) (List.map fst l1)) with true;
      [now rewrite andb_true_r|].
    symmetry. apply existsb_exists. exists (fst e).
    split; [now apply in_map | apply str_eqb_refl].
  - rewrite map_app in Hnd.
    assert (Hall : forall e, In e l2 ->
              negb (stale decimal self (fst e)
                    && existsb (str_eqb (fst e)) (List.map fst l1)) = true).
    { intros e He.
      destruct (existsb (str_eqb (fst e)) (List.map fst l1)) eqn:E;
        [|now rewrite andb_false_r].
      apply existsb_exists in E as (n & Hn & En). apply str_eqb_eq in En.
      subst n. exfalso. revert Hn He Hnd. clear.
      induction l1 as [|a l1 IH]; simpl; [tauto|].
      intros [Ha|Hn] He Hnd; inversion Hnd as [|? ? Hnot Hnd']; subst.
      - apply Hnot. rewrite Ha. apply in_or_app. right. now apply in_map.
      - now apply IH. }
    clear Hnd. induction l2 as [|e l2 IH]; simpl; [reflexivity|].
    rewrite (Hall e (or_introl eq_refl)). f_equal.
    apply IH. intros e' He'. apply Hall. now right.
Qed.

(** C7 (amended). When the cleanup is reached and a stale file cannot be
    removed, the error is not tolerated: the refresh reports the failure,
    the stale files listed before that file are deleted, and that file and
    every file listed after it stay, stale or not. *)
Theorem C7_delete_error_aborts (self : HolidayFetcher) (w : world)
        (st st1 : state) (data : list json)
        (l1 : files) (x : str) (c : option str) (l2 : files) :
  foldM (load_year w) (required_years self) [] st = (inr data, st1) ->
  st_files st1 = l1 ++ (x, c) :: l2 ->
  NoDup (List.map fst (st_files st1)) ->
  (forall e, In e l1 -> stale decimal self (fst e) = true ->
             w_can_remove w (fst e) = true) ->
  stale decimal self x = true ->
  w_can_remove w x = false ->
  fst (run decimal self w st) = fetch_failed OSError
  /\ st_files (snd (run decimal self w st))
     = filter (fun e => negb (stale decimal self (fst e))) l1 ++ (x, c) :: l2.
Proof.
  intros Hloop Hfiles Hnd Hrm Hx Hno.
  destruct (cleanup_loop_fail decimal self w (List.map fst l1) x
              (List.map fst l2) st1) as [lg E]; try assumption.
  { intros n Hn. apply in_map_iff in Hn as (e & <- & He). now apply Hrm. }
  assert (E' : _cleanup_old_cache decimal self w st1
               = (inl OSError,
                  mkState (sweep decimal self (List.map fst l1) (st_files st1))
                          (st_requests st1) (st_log st1 ++ lg))).
  { unfold _cleanup_old_cache, bind, get_files.
    rewrite Hfiles at 1. rewrite map_app. simpl. exact E. }
  rewrite (run_cleanup_failed decimal self w _ _ _ _ _ Hloop E'). simpl.
  split; [reflexivity|]. rewrite Hfiles in *. now apply sweep_prefix.
Qed.

(** ** Dates *)

Lemma days_before_year_succ (y : Z) :
  days_before_year (y + 1)
  = days_before_year y + (if is_leap y then 366 else 365).
Proof.
  unfold days_before_year, is_leap. cbv zeta.
  replace (y + 1 - 1) with y by lia.
  destruct (Z.eqb_spec (y mod 4) 0), (Z.eqb_spec (y mod 100) 0),
    (Z.eqb_spec (y mod 400) 0); simpl; Z.div_mod_to_equations; lia.
Qed.

Lemma days_before_year_mono (a b : Z) :
  a <= b -> days_before_year a <= days_before_year b.
Proof.
  unfold days_before_year. cbv zeta. intros. Z.div_mod_to_equations. lia.
Qed.

Lemma month_cases (m : Z) :
  1 <= m <= 12 ->
  m = 1 \/ m = 2 \/ m = 3 \/ m = 4 \/ m = 5 \/ m = 6 \/ m = 7 \/ m = 8
  \/ m = 9 \/ m = 10 \/ m = 11 \/ m = 12.
Proof. lia. Qed.

Ltac month_split H :=
  apply month_cases in H;
  repeat (destruct H as [H|H]; [subst|]); [..|subst].

(** Evaluate the table and the tests on a month that is a numeral. *)
Ltac month_eval :=
  repeat match goal with
    | |- context [days_before_month_table ?k] =>
        let v := eval vm_compute in (days_before_month_table k) in
        change (days_before_month_table k) with v
    | |- context [Z.eqb ?a ?b] =>
        let v := eval vm_compute in (Z.eqb a b) in
        match v with
        | true => change (Z.eqb a b) with true
        | false => change (Z.eqb a b) with false
        end
    | |- context [Z.ltb ?a ?b] =>
        let v := eval vm_compute in (Z.ltb a b) in
        match v with
        | true => change (Z.ltb a b) with true
        | false => change (Z.ltb a b) with false
        end
    end;
  cbn [orb andb].

(** The day of the year of a valid date lies within the year. *)
Lemma day_of_year_bounds (y m d : Z) :
  1 <= m <= 12 -> 1 <= d <= days_in_month y m ->
  1 <= days_before_month y m + d <= (if is_leap y then 366 else 365).
Proof.
  intros Hm. unfold days_before_month, days_in_month.
  month_split Hm; month_eval; destruct (is_leap y); lia.
Qed.

(** Within a year the day of the year grows with the month. *)
Lemma day_of_year_month_lt (y m1 d1 m2 d2 : Z) :
  1 <= m1 <= 12 -> 1 <= m2 <= 12 ->
  1 <= d1 <= days_in_month y m1 -> 1 <= d2 <= days_in_month y m2 ->
  m1 < m2 ->
  days_before_month y m1 + d1 < days_before_month y m2 + d2.
Proof.
  intros Hm1 Hm2. unfold days_before_month, days_in_month.
  month_split Hm1; month_split Hm2; try lia;
    month_eval; destruct (is_leap y); lia.
Qed.

Lemma valid_datetime_fields (t : datetime) :
  valid_datetime t = true ->
  1 <= dt_year t <= 9999 /\ 1 <= dt_month t <= 12
  /\ 1 <= dt_day t <= days_in_month (dt_year t) (dt_month t)
  /\ 0 <= dt_hour t < 24 /\ 0 <= dt_minute t < 60
  /\ 0 <= dt_second t < 60 /\ 0 <= dt_microsecond t < 1000000.
Proof.
  unfold valid_datetime, valid_date. rewrite !andb_true_iff. lia.
Qed.

(** The ordinal follows the order of year, month, day. *)
Lemma toordinal_year_lt (a b : datetime) :
  valid_datetime a = true -> valid_datetime b = true ->
  dt_year a < dt_year b -> toordinal a < toordinal b.
Proof.
  intros Ha Hb Hlt.
  apply valid_datetime_fields in Ha as (_ & Ham & Had & _).
  apply valid_datetime_fields in Hb as (_ & Hbm & Hbd & _).
  unfold toordinal.
  pose proof (day_of_year_bounds _ _ _ Ham Had) as Ba.
  pose proof (day_of_year_bounds _ _ _ Hbm Hbd) as Bb.
  pose proof (days_before_year_succ (dt_year a)) as Hs.
  pose proof (days_before_year_mono (dt_year a + 1) (dt_year b)) as Hmono.
  lia.
Qed.

Lemma toordinal_month_lt (a b : datetime) :
  valid_datetime a = true -> valid_datetime b = true ->
  dt_year a = dt_year b -> dt_month a < dt_month b ->
  toordinal a < toordinal b.
Proof.
  intros Ha Hb Hy Hlt.
  apply valid_datetime_fields in Ha as (_ & Ham & Had & _).
  apply valid_datetime_fields in Hb as (_ & Hbm & Hbd & _).
  unfold toordinal. rewrite Hy in *.
  pose proof (day_of_year_month_lt _ _ _ _ _ Ham Hbm Had Hbd Hlt). lia.
Qed.

Lemma micros_bounds (t : datetime) :
  valid_datetime t = true ->
  toordinal t * 86400000000 <= micros t < (toordinal t + 1) * 86400000000.
Proof.
  intros H. apply valid_datetime_fields in H as (_ & _ & _ & Hh & Hm & Hs & Hu).
  unfold micros, dt_seconds. lia.
Qed.

(** [>=] on valid datetimes is the order of the instants. *)
Lemma dt_ge_micros (a b : datetime) :
  valid_datetime a = true -> valid_datetime b = true ->
  dt_ge a b = (micros b <=? micros a).
Proof.
  intros Ha Hb.
  pose proof (micros_bounds a Ha) as Ba. pose proof (micros_bounds b Hb) as Bb.
  pose proof (toordinal_year_lt a b Ha Hb) as Yab.
  pose proof (toordinal_year_lt b a Hb Ha) as Yba.
  pose proof (toordinal_month_lt a b Ha Hb) as Mab.
  pose proof (toordinal_month_lt b a Hb Ha) as Mba.
  apply valid_datetime_fields in Ha as (_ & _ & _ & Hah & Ham & Has & Hau).
  apply valid_datetime_fields in Hb as (_ & _ & _ & Hbh & Hbm & Hbs & Hbu).
  unfold dt_ge, dt_tuple, cmp_tuple.
  assert (Hday : dt_year a = dt_year b -> dt_month a = dt_month b ->
                 toordinal a - toordinal b = dt_day a - dt_day b).
  { intros E1 E2. unfold toordinal. rewrite E1, E2. lia. }
  destruct (Z.compare_spec (dt_year a) (dt_year b)) as [Ey|Ey|Ey];
    [|symmetry; apply Z.leb_gt; lia | symmetry; apply Z.leb_le; lia].
  destruct (Z.compare_spec (dt_month a) (dt_month b)) as [Em|Em|Em];
    [|symmetry; apply Z.leb_gt; lia | symmetry; apply Z.leb_le; lia].
  specialize (Hday Ey Em).
  destruct (Z.compare_spec (dt_day a) (dt_day b)) as [Ed|Ed|Ed];
    [|symmetry; apply Z.leb_gt; lia | symmetry; apply Z.leb_le; lia].
  assert (Eo : toordinal a = toordinal b) by lia.
  unfold micros, dt_seconds. rewrite Eo.
  destruct (Z.compare_spec (dt_hour a) (dt_hour b)) as [Eh|Eh|Eh];
    [|symmetry; apply Z.leb_gt; lia | symmetry; apply Z.leb_le; lia].
  destruct (Z.compare_spec (dt_minute a) (dt_minute b)) as [Ei|Ei|Ei];
    [|symmetry; apply Z.leb_gt; lia | symmetry; apply Z.leb_le; lia].
  destruct (Z.compare_spec (dt_second a) (dt_second b)) as [Es|Es|Es];
    [|symmetry; apply Z.leb_gt; lia | symmetry; apply Z.leb_le; lia].
  destruct (Z.compare_spec (dt_microsecond a) (dt_microsecond b)) as [Eu|Eu|Eu];
    [|symmetry; apply Z.leb_gt; lia | symmetry; apply Z.leb_le; lia].
  symmetry; apply Z.leb_le; lia.
Qed.

(** The days of a difference are the whole days between the instants. *)
Lemma sub_days_micros (a b : datetime) :
  sub_days a b = (micros a - micros b) / 86400000000.
Proof.
  unfold sub_days, timedelta_days, micros. cbv zeta.
  set (D := toordinal a - toordinal b).
  set (S := dt_seconds a - dt_seconds b).
  set (U := dt_microsecond a - dt_microsecond b).
  replace ((toordinal a * 86400 + dt_seconds a) * 1000000 + dt_microsecond a
           - ((toordinal b * 86400 + dt_seconds b) * 1000000
              + dt_microsecond b))
    with ((D * 86400 + S) * 1000000 + U) by (subst D S U; lia).
  change 86400000000 with (1000000 * 86400).
  rewrite <- Z.div_div by lia.
  rewrite Z.div_add_l by lia.
  rewrite <- Z.add_assoc, Z.div_add_l by lia. reflexivity.
Qed.

(** ** The scan for the nearest off-day *)

(** A date that [strptime] reads is a valid date at midnight. *)
Lemma strptime_valid (v : json) (d : datetime) :
  strptime decimal v = inr d ->
  valid_datetime d = true /\ at_midnight d = true.
Proof.
  unfold strptime. destruct v; try discriminate.
  destruct (re_date decimal s) as [[[[y m] dd] [|c r]]|]; try discriminate.
  destruct (valid_date y m dd) eqn:V; [|discriminate].
  intros H. inversion H. subst d. unfold valid_datetime, at_midnight. simpl.
  now rewrite V.
Qed.

Lemma scan_app (now : datetime) (l1 l2 : list json) (acc : option Holiday) :
  scan decimal now (l1 ++ l2) acc
  = match scan decimal now l1 acc with
    | inr acc' => scan decimal now l2 acc'
    | inl e => inl e
    end.
Proof.
  revert acc. induction l1 as [|x l1 IH]; intros acc; simpl; [reflexivity|].
  destruct (scan_day decimal now acc x); [reflexivity | apply IH].
Qed.

(** One turn of the scan on a well-formed record. *)
Lemma scan_day_record (now : datetime) (nearest : option Holiday) (day : json) :
  valid_datetime now = true ->
  holiday_record decimal day <> None ->
  scan_day decimal now nearest day
  = inr match spec_candidate decimal now day with
        | Some h =>
            if match nearest with
               | None => true
               | Some n => days_left h <? days_left n
               end
            then Some h else nearest
        | None => nearest
        end.
Proof.
  intros Hnow Hrec. unfold spec_candidate, scan_day.
  unfold holiday_record in *.
  destruct (subscript day (lit "name")) as [?|nm]; [congruence|].
  destruct (subscript day (lit "date")) as [?|dv]; [congruence|].
  destruct (subscript day (lit "isOffDay")) as [?|off]; [congruence|].
  destruct off as [|off| | | | |]; try congruence.
  destruct (strptime decimal dv) as [?|d] eqn:Ed; [congruence|].
  apply strptime_valid in Ed as [Hd _].
  rewrite (dt_ge_micros d now Hd Hnow), sub_days_micros. cbn [truthy].
  destruct (micros now <=? micros d); [|reflexivity].
  destruct off; [|reflexivity]. cbn [andb days_left].
  destruct nearest as [n|]; [|reflexivity].
  destruct ((micros d - micros now) / 86400000000 <? days_left n); reflexivity.
Qed.

Lemma scan_nearest (now : datetime) (data : list json) :
  valid_datetime now = true ->
  (forall day, In day data -> holiday_record decimal day <> None) ->
  exists result,
    scan decimal now data None = inr result
    /\ nearest_of decimal now data result.
Proof.
  intros Hnow. induction data as [|x data IH] using rev_ind; intros Hwf.
  - exists None. split; [reflexivity|]. intros ? [].
  - destruct IH as (r & Er & Hr).
    { intros day Hd. apply Hwf. apply in_or_app. now left. }
    rewrite scan_app, Er. cbn [scan].
    rewrite scan_day_record;
      [|exact Hnow | apply Hwf; apply in_or_app; right; now left].
    eexists. split; [reflexivity|].
    assert (Hlast : nth_error (data ++ [x]) (List.length data) = Some x).
    { rewrite nth_error_app2 by lia. now rewrite Nat.sub_diag. }
    assert (Hold : forall j day', nth_error (data ++ [x]) j = Some day' ->
                     (j < List.length data)%nat /\ nth_error data j = Some day'
                     \/ j = List.length data /\ day' = x).
    { intros j day' Hj.
      destruct (Nat.lt_ge_cases j (List.length data)) as [Hlt|Hge].
      - left. split; [exact Hlt|]. now rewrite nth_error_app1 in Hj.
      - right. rewrite nth_error_app2 in Hj by exact Hge.
        destruct (j - List.length data)%nat as [|k] eqn:Ek; simpl in Hj.
        + split; [lia | congruence].
        + now destruct k. }
    destruct (spec_candidate decimal now x) as [hx|] eqn:Ex.
    + destruct r as [h|]; simpl in Hr.
      * destruct Hr as (i & day & Hi & Hc & Hmin).
        assert (Hilt : (i < List.length data)%nat).
        { apply nth_error_Some. congruence. }
        destruct (Z.ltb_spec (days_left hx) (days_left h)) as [Hlt|Hge].
        -- (* the new record is strictly nearer *)
           exists (List.length data), x. split; [exact Hlast|].
           split; [exact Ex|]. intros j day' h' Hj Hc'.
           destruct (Hold j day' Hj) as [[Hjl Hj']|[-> ->]].
           ++ destruct (Hmin j day' h' Hj' Hc') as [Hle _]. lia.
           ++ rewrite Ex in Hc'. inversion Hc'. subst. lia.
        -- (* the record found before stays *)
           exists i, day. split; [now rewrite nth_error_app1|].
           split; [exact Hc|]. intros j day' h' Hj Hc'.
           destruct (Hold j day' Hj) as [[Hjl Hj']|[-> ->]].
           ++ now apply (Hmin j day' h').
           ++ rewrite Ex in Hc'. inversion Hc'. subst. lia.
      * exists (List.length data), x. split; [exact Hlast|].
        split; [exact Ex|]. intros j day' h' Hj Hc'.
        destruct (Hold j day' Hj) as [[Hjl Hj']|[-> ->]].
        -- apply nth_error_In in Hj'. rewrite (Hr day' Hj') in Hc'.
           discriminate.
        -- rewrite Ex in Hc'. inversion Hc'. subst. lia.
    + destruct r as [h|]; simpl in *.
      * destruct Hr as (i & day & Hi & Hc & Hmin).
        assert (Hilt : (i < List.length data)%nat).
        { apply nth_error_Some. congruence. }
        exists i, day. split; [now rewrite nth_error_app1|].
        split; [exact Hc|]. intros j day' h' Hj Hc'.
        destruct (Hold j day' Hj) as [[Hjl Hj']|[-> ->]].
        -- now apply (Hmin j day' h').
        -- rewrite Ex in Hc'. discriminate.
      * intros day Hd. apply in_app_or in Hd as [Hd|[<-|[]]];
          [now apply Hr | exact Ex].
Qed.

(** C2. On a working set of well-formed records the scan does not fail:
    it finds nothing when no record has a date not before [now] and is an
    off-day, and otherwise the qualifying record whose whole-day distance
    from [now] is least, the earliest in the list among equals; the refresh
    emits what the scan found. *)
Theorem C2_scan_emits_nearest (now : datetime) (data : list json) :
  valid_datetime now = true ->
  (forall day, In day data -> holiday_record decimal day <> None) ->
  exists result,
    scan decimal now data None = inr result
    /\ nearest_of decimal now data result
    /\ forall self w st st1 st2,
         w_now w = now ->
         foldM (load_year w) (required_years self) [] st = (inr data, st1) ->
         _cleanup_old_cache decimal self w st1 = (inr tt, st2) ->
         run decimal self w st = (data_ready result, st2).
Proof.
  intros Hnow Hwf.
  destruct (scan_nearest now data Hnow Hwf) as (result & E & H).
  exists result. split; [exact E|]. split; [exact H|].
  intros self w st st1 st2 Hw E1 E2.
  rewrite (run_scanned decimal self w _ _ _ _ E1 E2), Hw, E. reflexivity.
Qed.

Lemma scan_day_nonneg (now : datetime) (nearest : option Holiday) (day : json)
      (h : Holiday) :
  valid_datetime now = true ->
  scan_day decimal now nearest day = inr (Some h) ->
  nearest = Some h \/ 0 <= days_left h.
Proof.
  intros Hnow. unfold scan_day.
  destruct (subscript day (lit "date")) as [?|dv]; [discriminate|].
  destruct (strptime decimal dv) as [?|d] eqn:Ed; [discriminate|].
  apply strptime_valid in Ed as [Hd _].
  rewrite (dt_ge_micros d now Hd Hnow), sub_days_micros.
  destruct (Z.leb_spec (micros now) (micros d)) as [Hle|Hgt];
    [|intros H; left; congruence].
  destruct (subscript day (lit "isOffDay")) as [?|off]; [discriminate|].
  destruct (truthy off); [|intros H; left; congruence].
  destruct (match nearest with
            | Some n => (micros d - micros now) / 86400000000 <? days_left n
            | None => true
            end); [|intros H; left; congruence].
  destruct (subscript day (lit "name")) as [?|nm]; [discriminate|].
  intros H. inversion H. right. simpl.
  apply Z.div_pos; lia.
Qed.

Lemma scan_nonneg (now : datetime) (data : list json)
      (acc : option Holiday) (h : Holiday) :
  valid_datetime now = true ->
  (forall n, acc = Some n -> 0 <= days_left n) ->
  scan decimal now data acc = inr (Some h) ->
  0 <= days_left h.
Proof.
  intros Hnow. revert acc. induction data as [|x data IH]; intros acc Hacc; simpl.
  - intros H. inversion H. now apply Hacc.
  - destruct (scan_day decimal now acc x) as [?|acc'] eqn:E; [discriminate|].
    apply IH. intros n ->.
    destruct (scan_day_nonneg now acc x n Hnow E) as [->|H];
      [now apply Hacc | exact H].
Qed.

(** C8. The [days_left] of an emitted holiday is not negative. *)
Theorem C8_days_left_nonnegative (self : HolidayFetcher) (w : world)
        (st : state) (h : Holiday) :
  valid_datetime (w_now w) = true ->
  fst (run decimal self w st) = data_ready (Some h) ->
  0 <= days_left h.
Proof.
  intros Hnow. unfold run, run_body, bind.
  destruct (foldM (load_year w) (required_years self) [] st) as [[e|data] st1];
    [discriminate|].
  destruct (_cleanup_old_cache decimal self w st1) as [[e|[]] st2];
    [discriminate|].
  unfold lift.
  destruct (scan decimal (w_now w) data None) as [e|r] eqn:E;
    [discriminate|].
  simpl. intros H. inversion H. subst r.
  apply (scan_nonneg (w_now w) data None h Hnow); [discriminate | exact E].
Qed.

(** C10. A record dated on the current calendar day has its date read as
    midnight of that day, so it passes the test [date >= now] exactly when
    the current time is midnight; at any later time of the day the scan
    skips it, whatever else the record holds. *)
Theorem C10_today_excluded_after_midnight (now : datetime) (day dv : json)
        (d : datetime) :
  valid_datetime now = true ->
  subscript day (lit "date") = inr dv ->
  strptime decimal dv = inr d ->
  dt_year d = dt_year now -> dt_month d = dt_month now ->
  dt_day d = dt_day now ->
  at_midnight d = true
  /\ dt_ge d now = at_midnight now
  /\ (at_midnight now = false ->
      forall nearest, scan_day decimal now nearest day = inr nearest).
Proof.
  intros Hnow Hdate Hparse Hy Hm Hd.
  destruct (strptime_valid dv d Hparse) as [Hvalid Hmid].
  assert (Hge : dt_ge d now = at_midnight now).
  { apply valid_datetime_fields in Hnow as (_ & _ & _ & Hh & Hi & Hs & Hu).
    unfold at_midnight in *. rewrite !andb_true_iff, !Z.eqb_eq in Hmid.
    destruct Hmid as [[[H0 H1] H2] H3].
    unfold dt_ge, dt_tuple, cmp_tuple.
    rewrite Hy, Hm, Hd, H0, H1, H2, H3, !Z.compare_refl.
    destruct (Z.compare_spec 0 (dt_hour now)) as [E|E|E]; [| |lia].
    2: { destruct (Z.eqb_spec (dt_hour now) 0); [lia | reflexivity]. }
    rewrite <- E.
    destruct (Z.compare_spec 0 (dt_minute now)) as [F|F|F]; [| |lia].
    2: { destruct (Z.eqb_spec (dt_minute now) 0); [lia | reflexivity]. }
    rewrite <- F.
    destruct (Z.compare_spec 0 (dt_second now)) as [G|G|G]; [| |lia].
    2: { destruct (Z.eqb_spec (dt_second now) 0); [lia | reflexivity]. }
    rewrite <- G.
    destruct (Z.compare_spec 0 (dt_microsecond now)) as [K|K|K]; [| |lia].
    2: { destruct (Z.eqb_spec (dt_microsecond now) 0); [lia | reflexivity]. }
    rewrite <- K. reflexivity. }
  split; [exact Hmid|]. split; [exact Hge|].
  intros Hlate nearest. unfold scan_day.
  now rewrite Hdate, Hparse, Hge, Hlate.
Qed.

(** ** The JSON text *)

Lemma json_induction (P : json -> Prop) :
  P JNull -> (forall b, P (JBool b)) -> (forall n, P (JInt n)) ->
  (forall x, P (JFloat x)) ->
  (forall s, P (JStr s)) ->
  (forall l, Forall P l -> P (JList l)) ->
  (forall d, Forall (fun kv => P (snd kv)) d -> P (JDict d)) ->
  forall v, P v.
Proof.
  intros Hnull Hbool Hint Hfloat Hstr Hlist Hdict. fix IH 1.
  intros [|b|n|x|s|l|d].
  - exact Hnull.
  - apply Hbool.
  - apply Hint.
  - apply Hfloat.
  - apply Hstr.
  - apply Hlist. induction l as [|x l IHl]; constructor;
      [apply IH | exact IHl].
  - apply Hdict. induction d as [|[k x] d IHd]; constructor;
      [apply IH | exact IHd].
Qed.

Lemma encode_scalar_text (level : nat) (v : json) (t : str) :
  encode_scalar v = Some t -> json_text level v = t.
Proof.
  destruct v as [|[|]|n|x|s|l|d]; simpl; intros H; inversion H; reflexivity.
Qed.

(** The chunks of a value, put together, are its text. *)
Lemma iterencode_concat (v : json) :
  forall level, List.concat (iterencode level v) = json_text level v.
Proof.
  induction v as [|b|n|x|s|l IH|d IH] using json_induction; intros level.
  - reflexivity.
  - destruct b; reflexivity.
  - cbn [iterencode encode_scalar json_text List.concat].
    apply List.app_nil_r.
  - cbn [iterencode encode_scalar json_text List.concat].
    apply List.app_nil_r.
  - cbn [iterencode encode_scalar json_text List.concat].
    apply List.app_nil_r.
  - destruct l as [|x l]; [reflexivity|].
    cbn [iterencode json_text].
    rewrite concat_app.
    assert (Hitem : forall buf y,
      (forall level, List.concat (iterencode level y) = json_text level y) ->
      List.concat (item_chunks (iterencode (S level)) buf y)
      = buf ++ json_text (S level) y).
    { intros buf y Hy. unfold item_chunks.
      destruct (encode_scalar y) as [t|] eqn:E; cbn [List.concat].
      - rewrite List.app_nil_r.
        now rewrite (encode_scalar_text (S level) y t E).
      - now rewrite Hy. }
    assert (Hitems : forall l',
      Forall (fun v => forall level,
                List.concat (iterencode level v) = json_text level v) l' ->
      List.concat
        (list_chunks (iterencode (S level)) (44%N :: newline_indent (S level))
                     (44%N :: newline_indent (S level)) l')
      = flat_map (fun y => 44%N :: newline_indent (S level)
                           ++ json_text (S level) y) l').
    { intros l' H. induction H as [|y l'' Hy Hl IHl]; [reflexivity|].
      cbn [list_chunks flat_map].
      rewrite concat_app, IHl, (Hitem _ y Hy). reflexivity. }
    inversion IH as [|? ? Hx Hl]; subst.
    cbn [list_chunks]. rewrite concat_app, (Hitem _ x Hx), (Hitems l Hl).
    cbn [List.concat]. rewrite List.app_nil_r, <- !List.app_assoc.
    reflexivity.
  - destruct d as [|[k x] d]; [reflexivity|].
    cbn [iterencode json_text].
    assert (Hvalue : forall y,
      (forall level, List.concat (iterencode level y) = json_text level y) ->
      List.concat (value_chunks (iterencode (S level)) y)
      = json_text (S level) y).
    { intros y Hy. unfold value_chunks.
      destruct (encode_scalar y) as [t|] eqn:E.
      - cbn [List.concat]. rewrite List.app_nil_r.
        now rewrite (encode_scalar_text (S level) y t E).
      - apply Hy. }
    assert (Hitems : forall d',
      Forall (fun kv => forall level,
                List.concat (iterencode level (snd kv))
                = json_text level (snd kv)) d' ->
      List.concat
        (dict_chunks (iterencode (S level)) (44%N :: newline_indent (S level))
                     false d')
      = flat_map (fun kv => 44%N :: newline_indent (S level)
                            ++ encode_basestring (fst kv) ++ lit ": "
                            ++ json_text (S level) (snd kv)) d').
    { intros d' H. induction H as [|[k' y] d'' Hy Hd IHd]; [reflexivity|].
      cbn [dict_chunks flat_map fst snd].
      rewrite !concat_app, IHd, (Hvalue y Hy). cbn [List.concat app].
      rewrite !List.app_nil_r, <- !List.app_assoc. reflexivity. }
    inversion IH as [|? ? Hx Hd]; subst.
    cbn [dict_chunks]. rewrite !concat_app, (Hitems d Hd), (Hvalue x Hx).
    cbn [List.concat app]. rewrite !List.app_nil_r, <- !List.app_assoc.
    reflexivity.
Qed.

(** ** Reading back what was written *)

Ltac eval_lit :=
  repeat match goal with
    | |- context [lit ?s] =>
        let v := eval vm_compute in (lit s) in change (lit s) with v
    end.

Lemma hex_value_digit (n : N) :
  (n < 16)%N -> hex_value (hex_digit n) = Some n.
Proof.
  intros Hn. unfold hex_value, hex_digit, in_range.
  destruct (N.ltb_spec n 10%N) as [Hlt|Hge].
  - rewrite (proj2 (N.leb_le 48%N (48 + n)%N)) by lia.
    rewrite (proj2 (N.leb_le (48 + n)%N 57%N)) by lia.
    cbn [andb]. f_equal. lia.
  - rewrite (proj2 (N.leb_le 48%N (87 + n)%N)) by lia.
    rewrite (proj2 (N.leb_gt (87 + n)%N 57%N)) by lia.
    rewrite (proj2 (N.leb_le 97%N (87 + n)%N)) by lia.
    rewrite (proj2 (N.leb_le (87 + n)%N 102%N)) by lia.
    cbn [andb]. f_equal. lia.
Qed.

Lemma decode_escape (c : char) (tail : str) :
  (c < 32)%N ->
  decode_uXXXX (48 :: 48 :: hex_digit (c / 16) :: hex_digit (c mod 16) :: tail)%N
  = Some (c, tail).
Proof.
  intros Hc. unfold decode_uXXXX.
  assert (Hq : (c / 16 < 16)%N).
  { apply N.Div0.div_lt_upper_bound. lia. }
  assert (Hr : (c mod 16 < 16)%N) by (apply N.mod_lt; lia).
  rewrite (hex_value_digit _ Hq), (hex_value_digit _ Hr).
  change (hex_value 48%N) with (Some 0%N). cbv beta iota.
  pose proof (N.div_mod c 16%N ltac:(lia)) as E.
  f_equal. f_equal. lia.
Qed.

(** One character of a string, escaped by the encoder, is read back as
    that character. *)
Lemma scanstring_step (c : char) (tail : str) (f : nat) :
  scanstring (S f) (escape_char c ++ tail)
  = match scanstring f tail with
    | Some (t, r) => Some (c :: t, r)
    | None => None
    end.
Proof.
  unfold escape_char.
  destruct (N.eqb_spec c 92%N) as [->|H92]; [eval_lit; reflexivity|].
  destruct (N.eqb_spec c 34%N) as [->|H34]; [reflexivity|].
  destruct (N.eqb_spec c 8%N) as [->|H8]; [eval_lit; reflexivity|].
  destruct (N.eqb_spec c 12%N) as [->|H12]; [eval_lit; reflexivity|].
  destruct (N.eqb_spec c 10%N) as [->|H10]; [eval_lit; reflexivity|].
  destruct (N.eqb_spec c 13%N) as [->|H13]; [eval_lit; reflexivity|].
  destruct (N.eqb_spec c 9%N) as [->|H9]; [eval_lit; reflexivity|].
  destruct (N.ltb_spec c 32%N) as [Hlt|Hge].
  - eval_lit. cbn [app scanstring].
    change (92 =? 34)%N with false. change (92 =? 92)%N with true.
    change (117 =? 117)%N with true. cbv beta iota.
    match goal with
    | |- context [decode_uXXXX ?l] =>
        replace (decode_uXXXX l) with (Some (c, tail))
          by (symmetry; exact (decode_escape c tail Hlt))
    end.
    unfold in_range. rewrite (proj2 (N.leb_gt 55296%N c)) by lia.
    reflexivity.
  - cbn [app scanstring].
    rewrite (proj2 (N.eqb_neq c 34%N) H34), (proj2 (N.eqb_neq c 92%N) H92).
    rewrite (proj2 (N.ltb_ge c 32%N) Hge). reflexivity.
Qed.

Lemma scanstring_escaped (s rest : str) (fuel : nat) :
  (List.length s < fuel)%nat ->
  scanstring fuel (flat_map escape_char s ++ 34%N :: rest) = Some (s, rest).
Proof.
  revert fuel. induction s as [|c s IH]; intros fuel Hf.
  - destruct fuel as [|f]; [inversion Hf|]. reflexivity.
  - destruct fuel as [|f]; [inversion Hf|].
    cbn [flat_map]. rewrite <- List.app_assoc, scanstring_step.
    rewrite IH by (simpl in Hf; lia). reflexivity.
Qed.

Lemma escape_char_length (c : char) : (1 <= List.length (escape_char c))%nat.
Proof.
  unfold escape_char.
  repeat match goal with
         | |- context [if ?b then _ else _] => destruct b
         end; eval_lit; simpl; lia.
Qed.

Lemma escaped_length (s : str) :
  (List.length s <= List.length (flat_map escape_char s))%nat.
Proof.
  induction s as [|c s IH]; simpl; [lia|].
  rewrite length_app. pose proof (escape_char_length c). lia.
Qed.

(** A string literal of the document is read back as the string. *)
Lemma scan_once_string (s rest : str) (fuel : nat) :
  (1 <= fuel)%nat ->
  scan_once fuel (encode_basestring s ++ rest) = inr (JStr s, rest).
Proof.
  intros Hf. destruct fuel as [|f]; [inversion Hf|].
  unfold encode_basestring. cbn [app scan_once].
  change (34 =? 34)%N with true. cbv beta iota.
  rewrite <- List.app_assoc. cbn [app].
  rewrite scanstring_escaped; [reflexivity|].
  rewrite length_app. cbn [List.length].
  pose proof (escaped_length s). lia.
Qed.

Lemma delimited_nil : delimited [].
Proof. split; reflexivity. Qed.

Lemma delimited_comma (rest : str) : delimited (44%N :: rest).
Proof. split; reflexivity. Qed.

Lemma delimited_newline (level : nat) (rest : str) :
  delimited (newline_indent level ++ rest).
Proof. split; reflexivity. Qed.

Lemma not_digit_tests (c : char) :
  in_range 48%N 57%N c = false ->
  (c =? 48)%N = false /\ (c =? 49)%N = false /\ (c =? 50)%N = false
  /\ (c =? 51)%N = false /\ (c =? 52)%N = false /\ (c =? 53)%N = false
  /\ (c =? 54)%N = false /\ (c =? 55)%N = false /\ (c =? 56)%N = false
  /\ (c =? 57)%N = false.
Proof.
  unfold in_range. intros H. apply andb_false_iff in H.
  rewrite !N.leb_gt in H. rewrite !N.eqb_neq. lia.
Qed.

Lemma scan_uint_stop (rest : str) :
  starts_with_digit rest = false -> scan_uint rest = (Decimal.Nil, rest).
Proof.
  destruct rest as [|c rest]; [reflexivity|]. simpl. intros H.
  destruct (not_digit_tests c H)
    as (H0 & H1 & H2 & H3 & H4 & H5 & H6 & H7 & H8 & H9).
  now rewrite H0, H1, H2, H3, H4, H5, H6, H7, H8, H9.
Qed.

Lemma scan_uint_str (u : Decimal.uint) (rest : str) :
  starts_with_digit rest = false ->
  scan_uint (uint_str u ++ rest) = (u, rest).
Proof.
  intros H. induction u; cbn [uint_str app];
    [now apply scan_uint_stop|..];
    cbn [scan_uint]; rewrite IHu; reflexivity.
Qed.

(** The decimal digits of a number do not start with a zero, but for
    zero itself. *)
Lemma to_uint_no_leading_zero (n : N) (u : Decimal.uint) :
  N.to_uint n = Decimal.D0 u -> n = 0%N.
Proof.
  intros E. apply DecimalN.Unsigned.to_uint_inj.
  pose proof (DecimalN.Unsigned.to_of (N.to_uint n)) as Hn.
  rewrite DecimalN.Unsigned.of_to in Hn. rewrite E in Hn.
  rewrite DecimalFacts.unorm_D0 in Hn. rewrite E.
  unfold Decimal.unorm in Hn.
  destruct (Decimal.nzhead u) eqn:Eh; try discriminate Hn.
  - exact Hn.
  - exfalso. exact (DecimalFacts.nzhead_nonzero _ _ Eh).
Qed.

(** The digits of a natural number are read back as that number. *)
Lemma scan_digits (n : N) (rest : str) :
  starts_with_digit rest = false ->
  exists c s2,
    uint_str (N.to_uint n) ++ rest = c :: s2
    /\ in_range 48%N 57%N c = true
    /\ (let (u, r) := if (c =? 48)%N then (Decimal.D0 Decimal.Nil, s2)
                      else scan_uint (c :: s2) in
        (N.of_uint u, r)) = (n, rest).
Proof.
  intros Hrest.
  pose proof (DecimalN.Unsigned.of_to n) as Hof.
  pose proof (scan_uint_str (N.to_uint n) rest Hrest) as Hscan.
  destruct (N.to_uint n) as [|u|u|u|u|u|u|u|u|u|u] eqn:E.
  - destruct n as [|p]; [discriminate|].
    exfalso. now apply (DecimalPos.Unsigned.to_uint_nonnil p).
  - pose proof (to_uint_no_leading_zero n u E) as Hn.
    clear Hof Hscan. subst n.
    change (Decimal.D0 Decimal.Nil = Decimal.D0 u) in E.
    injection E as <-.
    eexists _, _. split; [reflexivity|]. split; reflexivity.
  - exists 49%N, (uint_str u ++ rest).
    split; [reflexivity|]. split; [reflexivity|].
    change (49 =? 48)%N with false. cbv iota.
    match goal with
    | |- context [scan_uint ?l] =>
        replace (scan_uint l) with (Decimal.D1 u, rest)
          by (symmetry; exact Hscan)
    end.
    now rewrite Hof.
  - exists 50%N, (uint_str u ++ rest).
    split; [reflexivity|]. split; [reflexivity|].
    change (50 =? 48)%N with false. cbv iota.
    match goal with
    | |- context [scan_uint ?l] =>
        replace (scan_uint l) with (Decimal.D2 u, rest)
          by (symmetry; exact Hscan)
    end.
    now rewrite Hof.
  - exists 51%N, (uint_str u ++ rest).
    split; [reflexivity|]. split; [reflexivity|].
    change (51 =? 48)%N with false. cbv iota.
    match goal with
    | |- context [scan_uint ?l] =>
        replace (scan_uint l) with (Decimal.D3 u, rest)
          by (symmetry; exact Hscan)
    end.
    now rewrite Hof.
  - exists 52%N, (uint_str u ++ rest).
    split; [reflexivity|]. split; [reflexivity|].
    change (52 =? 48)%N with false. cbv iota.
    match goal with
    | |- context [scan_uint ?l] =>
        replace (scan_uint l) with (Decimal.D4 u, rest)
          by (symmetry; exact Hscan)
    end.
    now rewrite Hof.
  - exists 53%N, (uint_str u ++ rest).
    split; [reflexivity|]. split; [reflexivity|].
    change (53 =? 48)%N with false. cbv iota.
    match goal with
    | |- context [scan_uint ?l] =>
        replace (scan_uint l) with (Decimal.D5 u, rest)
          by (symmetry; exact Hscan)
    end.
    now rewrite Hof.
  - exists 54%N, (uint_str u ++ rest).
    split; [reflexivity|]. split; [reflexivity|].
    change (54 =? 48)%N with false. cbv iota.
    match goal with
    | |- context [scan_uint ?l] =>
        replace (scan_uint l) with (Decimal.D6 u, rest)
          by (symmetry; exact Hscan)
    end.
    now rewrite Hof.
  - exists 55%N, (uint_str u ++ rest).
    split; [reflexivity|]. split; [reflexivity|].
    change (55 =? 48)%N with false. cbv iota.
    match goal with
    | |- context [scan_uint ?l] =>
        replace (scan_uint l) with (Decimal.D7 u, rest)
          by (symmetry; exact Hscan)
    end.
    now rewrite Hof.
  - exists 56%N, (uint_str u ++ rest).
    split; [reflexivity|]. split; [reflexivity|].
    change (56 =? 48)%N with false. cbv iota.
    match goal with
    | |- context [scan_uint ?l] =>
        replace (scan_uint l) with (Decimal.D8 u, rest)
          by (symmetry; exact Hscan)
    end.
    now rewrite Hof.
  - exists 57%N, (uint_str u ++ rest).
    split; [reflexivity|]. split; [reflexivity|].
    change (57 =? 48)%N with false. cbv iota.
    match goal with
    | |- context [scan_uint ?l] =>
        replace (scan_uint l) with (Decimal.D9 u, rest)
          by (symmetry; exact Hscan)
    end.
    now rewrite Hof.
Qed.

(** *** Numbers *)

Lemma span_digits_app (s rest ds r : str) :
  span_digits s = (ds, r) ->
  starts_with_digit rest = false ->
  span_digits (s ++ rest) = (ds, r ++ rest).
Proof.
  intros H Hrest. revert ds r H. induction s as [|c s IH]; intros ds r H.
  - inversion H. subst. destruct rest as [|c rest]; [reflexivity|].
    simpl in *. now rewrite Hrest.
  - cbn [span_digits app] in *. destruct (in_range 48%N 57%N c).
    + destruct (span_digits s) as [ds' r'] eqn:E.
      inversion H. subst. now rewrite (IH ds' r eq_refl).
    + inversion H. reflexivity.
Qed.

Lemma span_digits_text (s ds r : str) :
  span_digits s = (ds, r) -> s = ds ++ r.
Proof.
  revert ds r. induction s as [|c s IH]; intros ds r H.
  - now inversion H.
  - cbn [span_digits] in H. destruct (in_range 48%N 57%N c).
    + destruct (span_digits s) as [ds' r'] eqn:E.
      inversion H. subst. cbn [app]. f_equal. now apply IH.
    + now inversion H.
Qed.

Lemma span_digits_ascii (s ds r : str) :
  span_digits s = (ds, r) -> ascii_str ds.
Proof.
  revert ds r. induction s as [|c s IH]; intros ds r H.
  - inversion H. constructor.
  - cbn [span_digits] in H. destruct (in_range 48%N 57%N c) eqn:Ec.
    + destruct (span_digits s) as [ds' r'] eqn:E.
      inversion H. subst. constructor; [|now apply (IH ds' r)].
      unfold in_range in Ec. apply andb_true_iff in Ec as [_ Ec].
      apply N.leb_le in Ec. lia.
    + inversion H. constructor.
Qed.

Lemma scan_uint_app (s rest : str) (u : Decimal.uint) (r : str) :
  scan_uint s = (u, r) ->
  starts_with_digit rest = false ->
  scan_uint (s ++ rest) = (u, r ++ rest).
Proof.
  intros H Hrest. revert u r H. induction s as [|c s IH]; intros u r H.
  - inversion H. subst. now apply scan_uint_stop.
  - cbn [scan_uint app] in *.
    destruct (scan_uint s) as [u' r'] eqn:E.
    rewrite (IH u' r' eq_refl).
    repeat match goal with
           | |- context [if ?b then _ else _] => destruct b
           end; inversion H; reflexivity.
Qed.

Lemma scan_uint_text (s : str) (u : Decimal.uint) (r : str) :
  scan_uint s = (u, r) -> s = uint_str u ++ r.
Proof.
  revert u r. induction s as [|c s IH]; intros u r H.
  - now inversion H.
  - cbn [scan_uint] in H.
    destruct (scan_uint s) as [u' r'] eqn:E.
    pose proof (IH u' r' eq_refl) as Hs.
    repeat match type of H with
           | context [if ?b then _ else _] =>
               let Eb := fresh "Eb" in
               destruct b eqn:Eb;
                 [apply N.eqb_eq in Eb; subst c; inversion H; subst;
                  cbn [uint_str app]; now f_equal|]
           end.
    now inversion H.
Qed.

Lemma scan_fraction_stop (rest : str) :
  float_follows rest = false -> scan_fraction rest = ([], rest).
Proof.
  unfold float_follows, scan_fraction. destruct rest as [|c s]; [reflexivity|].
  destruct (c =? 46)%N; [|reflexivity]. now intros ->.
Qed.

Lemma sign_not_digit (g : char) (s : str) :
  ((g =? 43) || (g =? 45))%N = true -> starts_with_digit (g :: s) = false.
Proof.
  cbn [starts_with_digit]. unfold in_range.
  rewrite orb_true_iff, !N.eqb_eq. intros [->| ->]; reflexivity.
Qed.

Lemma scan_exponent_stop (rest : str) :
  float_follows rest = false -> scan_exponent rest = ([], rest).
Proof.
  unfold float_follows, scan_exponent. destruct rest as [|c s]; [reflexivity|].
  destruct (N.eqb_spec c 46) as [->|Hc]; [reflexivity|].
  destruct ((c =? 101) || (c =? 69))%N; [|reflexivity].
  destruct s as [|g s']; [reflexivity|].
  destruct ((g =? 43) || (g =? 45))%N eqn:Eg.
  - intros ->. cbn [andb]. now rewrite (sign_not_digit g s' Eg).
  - cbn [andb]. now intros ->.
Qed.

Lemma starts_with_digit_app (s rest : str) :
  s <> [] -> starts_with_digit (s ++ rest) = starts_with_digit s.
Proof. destruct s; [congruence | reflexivity]. Qed.

Lemma scan_fraction_app (s rest f r : str) :
  scan_fraction s = (f, r) -> delimited rest ->
  scan_fraction (s ++ rest) = (f, r ++ rest).
Proof.
  intros H [Hdigit Hfloat]. destruct s as [|c s].
  - inversion H. subst. now apply scan_fraction_stop.
  - cbn [scan_fraction app] in *.
    destruct (c =? 46)%N; cbn [andb] in *; [|now inversion H].
    destruct s as [|d s'].
    + cbn [app]. rewrite Hdigit. now inversion H.
    + change ((d :: s') ++ rest) with (d :: s' ++ rest).
      change (starts_with_digit (d :: s' ++ rest))
        with (starts_with_digit (d :: s')).
      destruct (starts_with_digit (d :: s')); [|now inversion H].
      destruct (span_digits (d :: s')) as [ds r'] eqn:E.
      change (d :: s' ++ rest) with ((d :: s') ++ rest).
      rewrite (span_digits_app _ rest ds r' E Hdigit).
      now inversion H.
Qed.

Lemma scan_exponent_app (s rest x : str) :
  scan_exponent s = (x, []) -> delimited rest ->
  scan_exponent (s ++ rest) = (x, rest).
Proof.
  intros H [Hdigit Hfloat]. destruct s as [|c s].
  - inversion H. subst. now apply scan_exponent_stop.
  - cbn [scan_exponent app] in *.
    destruct ((c =? 101) || (c =? 69))%N; [|discriminate H].
    destruct s as [|g s']; [discriminate H|].
    change ((g :: s') ++ rest) with (g :: s' ++ rest). cbv iota.
    destruct ((g =? 43) || (g =? 45))%N eqn:Eg; cbn [andb] in *.
    + destruct s' as [|d s''].
      * pose proof (sign_not_digit g [] Eg) as Hg.
        cbn [starts_with_digit] in Hg, H. rewrite Hg in H. discriminate H.
      * change ((d :: s'') ++ rest) with (d :: s'' ++ rest).
        change (starts_with_digit (d :: s'' ++ rest))
          with (starts_with_digit (d :: s'')).
        destruct (starts_with_digit (d :: s'')).
        -- destruct (span_digits (d :: s'')) as [ds r'] eqn:E.
           inversion H. subst.
           change (d :: s'' ++ rest) with ((d :: s'') ++ rest).
           now rewrite (span_digits_app _ rest ds [] E Hdigit).
        -- rewrite (sign_not_digit g (d :: s'') Eg) in H.
           change (starts_with_digit (g :: d :: s'' ++ rest))
             with (starts_with_digit (g :: d :: s'')).
           rewrite (sign_not_digit g (d :: s'') Eg). discriminate H.
    + change (starts_with_digit (g :: s' ++ rest))
        with (starts_with_digit (g :: s')).
      destruct (starts_with_digit (g :: s')); [|discriminate H].
      destruct (span_digits (g :: s')) as [ds r'] eqn:E.
      inversion H. subst.
      change (g :: s' ++ rest) with ((g :: s') ++ rest).
      now rewrite (span_digits_app _ rest ds [] E Hdigit).
Qed.

Lemma scan_fraction_text (s f r : str) :
  scan_fraction s = (f, r) -> s = f ++ r.
Proof.
  unfold scan_fraction. destruct s as [|c s]; [now inversion 1|].
  destruct ((c =? 46)%N && starts_with_digit s)%bool; [|now inversion 1].
  destruct (span_digits s) as [ds r'] eqn:E. inversion 1. subst.
  cbn [app]. f_equal. now apply span_digits_text.
Qed.

Lemma scan_exponent_text (s x r : str) :
  scan_exponent s = (x, r) -> s = x ++ r.
Proof.
  unfold scan_exponent. destruct s as [|c s]; [now inversion 1|].
  destruct ((c =? 101) || (c =? 69))%N; [|now inversion 1].
  destruct s as [|g s']; [now inversion 1|].
  destruct (((g =? 43) || (g =? 45))%N && starts_with_digit s')%bool.
  - destruct (span_digits s') as [ds r'] eqn:E. inversion 1. subst.
    cbn [app]. do 2 f_equal. now apply span_digits_text.
  - destruct (starts_with_digit (g :: s')); [|now inversion 1].
    destruct (span_digits (g :: s')) as [ds r'] eqn:E. inversion 1. subst.
    cbn [app]. f_equal. now apply span_digits_text.
Qed.

Lemma number_body_text (neg : bool) (s1 : str) (neg' : bool)
      (u : Decimal.uint) (tail rest : str) :
  number_body neg s1 = Some (neg', u, tail, rest) ->
  neg' = neg /\ s1 = uint_str u ++ tail ++ rest.
Proof.
  unfold number_body. destruct s1 as [|c s2]; [discriminate|].
  destruct (in_range 48%N 57%N c); [|discriminate].
  assert (Hint : forall u0 r,
    (if (c =? 48)%N then (Decimal.D0 Decimal.Nil, s2)
     else scan_uint (c :: s2)) = (u0, r) ->
    c :: s2 = uint_str u0 ++ r).
  { intros u0 r. destruct (N.eqb_spec c 48) as [->|_].
    - inversion 1. reflexivity.
    - apply scan_uint_text. }
  destruct (if (c =? 48)%N then (Decimal.D0 Decimal.Nil, s2)
            else scan_uint (c :: s2)) as [u0 r].
  rewrite (Hint u0 r eq_refl).
  destruct (scan_fraction r) as [frac r1] eqn:Ef.
  destruct (scan_exponent r1) as [exp r2] eqn:Ee.
  inversion 1. subst. split; [reflexivity|].
  rewrite (scan_fraction_text _ _ _ Ef), (scan_exponent_text _ _ _ Ee).
  now rewrite <- !List.app_assoc.
Qed.

(** The parts of a number account for the text that was read. *)
Lemma number_parts_text (s : str) (neg : bool) (u : Decimal.uint)
      (tail rest : str) :
  number_parts s = Some (neg, u, tail, rest) ->
  s = number_text neg u tail ++ rest.
Proof.
  unfold number_parts, number_text. destruct s as [|c s']; [discriminate|].
  destruct (N.eqb_spec c 45) as [->|Hc]; intros H;
    apply number_body_text in H as [-> H]; cbn [app].
  - rewrite H, <- List.app_assoc. reflexivity.
  - rewrite H, <- List.app_assoc. reflexivity.
Qed.

(** What follows a number that ends the text does not change how the
    number is read, when it is a comma, a new line or nothing. *)
Lemma number_body_app (neg : bool) (s1 rest : str) (neg' : bool)
      (u : Decimal.uint) (tail : str) :
  number_body neg s1 = Some (neg', u, tail, []) ->
  delimited rest ->
  number_body neg (s1 ++ rest) = Some (neg', u, tail, rest).
Proof.
  intros H Hrest. pose proof Hrest as [Hdigit Hfloat].
  unfold number_body in *. destruct s1 as [|c s2]; [discriminate|].
  cbn [app]. destruct (in_range 48%N 57%N c); [|discriminate].
  assert (Hint : forall u0 r,
    (if (c =? 48)%N then (Decimal.D0 Decimal.Nil, s2)
     else scan_uint (c :: s2)) = (u0, r) ->
    (if (c =? 48)%N then (Decimal.D0 Decimal.Nil, s2 ++ rest)
     else scan_uint (c :: s2 ++ rest)) = (u0, r ++ rest)).
  { intros u0 r. destruct (c =? 48)%N.
    - now inversion 1.
    - intros E. change (c :: s2 ++ rest) with ((c :: s2) ++ rest).
      now apply scan_uint_app. }
  destruct (if (c =? 48)%N then (Decimal.D0 Decimal.Nil, s2)
            else scan_uint (c :: s2)) as [u0 r].
  rewrite (Hint u0 r eq_refl).
  destruct (scan_fraction r) as [frac r1] eqn:Ef.
  rewrite (scan_fraction_app _ rest _ _ Ef Hrest).
  destruct (scan_exponent r1) as [exp r2] eqn:Ee.
  inversion H. subst.
  now rewrite (scan_exponent_app _ rest _ Ee Hrest).
Qed.

Lemma number_parts_app (s rest : str) (neg : bool) (u : Decimal.uint)
      (tail : str) :
  number_parts s = Some (neg, u, tail, []) ->
  delimited rest ->
  number_parts (s ++ rest) = Some (neg, u, tail, rest).
Proof.
  unfold number_parts. destruct s as [|c s']; [discriminate|].
  cbn [app]. destruct (c =? 45)%N; intros H Hrest.
  - now apply number_body_app.
  - change (c :: s' ++ rest) with ((c :: s') ++ rest).
    now apply number_body_app.
Qed.

(** The parts of the text of an integer. *)
Lemma number_parts_int (z : Z) (rest : str) :
  delimited rest ->
  number_parts (int_str z ++ rest)
  = Some (z <? 0, N.to_uint (Z.abs_N z), [], rest).
Proof.
  intros [Hdigit Hfloat].
  destruct (scan_digits (Z.abs_N z) rest Hdigit) as (c & s2 & E & Hc & Hval).
  assert (H45 : (c =? 45)%N = false).
  { unfold in_range in Hc. apply andb_true_iff in Hc as [Hc _].
    apply N.leb_le in Hc. apply N.eqb_neq. lia. }
  assert (Hbody : forall neg,
    number_body neg (uint_str (N.to_uint (Z.abs_N z)) ++ rest)
    = Some (neg, N.to_uint (Z.abs_N z), [], rest)).
  { intros neg. unfold number_body. rewrite E, Hc.
    pose proof (scan_uint_str (N.to_uint (Z.abs_N z)) rest Hdigit) as Hscan.
    rewrite E in Hscan.
    assert (Hu : (if (c =? 48)%N then (Decimal.D0 Decimal.Nil, s2)
                  else scan_uint (c :: s2))
                 = (N.to_uint (Z.abs_N z), rest)).
    { destruct (N.eqb_spec c 48) as [->|Hne]; [|exact Hscan].
      destruct (N.to_uint (Z.abs_N z)) as [|u|u|u|u|u|u|u|u|u|u] eqn:Eu;
        cbn [uint_str app] in E; try discriminate E.
      - exfalso. destruct (Z.abs_N z) as [|p]; [discriminate|].
        now apply (DecimalPos.Unsigned.to_uint_nonnil p).
      - pose proof (to_uint_no_leading_zero (Z.abs_N z) u Eu) as Hn.
        rewrite Hn in Eu. change (Decimal.D0 Decimal.Nil = Decimal.D0 u) in Eu.
        injection Eu as <-. cbn [uint_str app] in E. now inversion E. }
    rewrite Hu, (scan_fraction_stop rest Hfloat).
    now rewrite (scan_exponent_stop rest Hfloat). }
  unfold int_str, number_parts. destruct (Z.ltb_spec z 0) as [Hneg|Hpos].
  - cbn [app]. change (45 =? 45)%N with true. cbv iota. apply Hbody.
  - rewrite E, H45, <- E. apply Hbody.
Qed.

(** An integer of the document is read back as that integer. *)
Lemma scan_number_int (z : Z) (rest : str) :
  (List.length (uint_str (N.to_uint (Z.abs_N z))) <= int_max_str_digits)%nat ->
  delimited rest ->
  scan_number (int_str z ++ rest) = inr (JInt z, rest).
Proof.
  intros Hlen Hrest. unfold scan_number.
  rewrite (number_parts_int z rest Hrest).
  apply Nat.ltb_ge in Hlen. rewrite Hlen.
  rewrite DecimalN.Unsigned.of_to.
  destruct (Z.ltb_spec z 0);
    [replace (- Z.of_N (Z.abs_N z)) with z by lia
    |replace (Z.of_N (Z.abs_N z)) with z by lia]; reflexivity.
Qed.

(** A number with a fraction or an exponent is read back as what
    [float] makes of its text. *)
Lemma scan_number_float (r rest : str) :
  float_literal r = true -> delimited rest ->
  scan_number (r ++ rest) = inr (JFloat (parse_float r), rest).
Proof.
  unfold float_literal. intros H Hrest.
  destruct (number_parts r) as [[[[neg u] tail] r0]|] eqn:E; [|discriminate].
  destruct tail as [|c t]; [discriminate|].
  destruct r0; [|discriminate].
  pose proof (number_parts_text _ _ _ _ _ E) as Htext.
  rewrite List.app_nil_r in Htext.
  unfold scan_number. rewrite (number_parts_app _ rest _ _ _ E Hrest).
  now rewrite <- Htext.
Qed.

(** The text of a number starts with a digit, or with a minus sign and a
    digit. *)
Lemma number_parts_head (s : str) (p : bool * Decimal.uint * str * str) :
  number_parts s = Some p ->
  exists c t,
    s = c :: t
    /\ (in_range 48%N 57%N c = true
        \/ c = 45%N /\ exists c2 t2, t = c2 :: t2
                                     /\ in_range 48%N 57%N c2 = true).
Proof.
  unfold number_parts, number_body. destruct s as [|c s']; [discriminate|].
  intros H. exists c, s'. split; [reflexivity|].
  destruct (N.eqb_spec c 45) as [->|Hc].
  - right. split; [reflexivity|]. destruct s' as [|c2 t2]; [discriminate|].
    exists c2, t2. split; [reflexivity|].
    now destruct (in_range 48%N 57%N c2).
  - left. now destruct (in_range 48%N 57%N c).
Qed.

Lemma float_literal_ascii (r : str) :
  float_literal r = true -> ascii_str r.
Proof.
  unfold float_literal. intros H.
  destruct (number_parts r) as [[[[neg u] tail] r0]|] eqn:E; [|discriminate].
  destruct tail as [|c t]; [discriminate|].
  destruct r0; [|discriminate].
  pose proof (number_parts_text _ _ _ _ _ E) as Htext.
  rewrite List.app_nil_r in Htext. rewrite Htext. clear Htext H.
  assert (Htail : ascii_str (c :: t)).
  { unfold number_parts in E. destruct r as [|c0 s']; [discriminate|].
    assert (Hbody : forall neg0 s1,
      number_body neg0 s1 = Some (neg, u, c :: t, []) -> ascii_str (c :: t)).
    { clear. intros neg0 s1. unfold number_body.
      destruct s1 as [|c1 s2]; [discriminate|].
      destruct (in_range 48%N 57%N c1); [|discriminate].
      destruct (if (c1 =? 48)%N then (Decimal.D0 Decimal.Nil, s2)
                else scan_uint (c1 :: s2)) as [u0 r].
      destruct (scan_fraction r) as [frac r1] eqn:Ef.
      destruct (scan_exponent r1) as [exp r2] eqn:Ee.
      inversion 1. unfold ascii_str. apply Forall_app. split.
      - unfold scan_fraction in Ef. destruct r as [|a r']; [inversion Ef; constructor|].
        destruct (N.eqb_spec a 46) as [->|_]; cbn [andb] in Ef;
          [|inversion Ef; constructor].
        destruct (starts_with_digit r'); [|inversion Ef; constructor].
        destruct (span_digits r') as [ds rr] eqn:Es. inversion Ef. subst.
        constructor; [reflexivity | eapply span_digits_ascii; exact Es].
      - unfold scan_exponent in Ee.
        destruct r1 as [|a r']; [inversion Ee; constructor|].
        destruct ((a =? 101) || (a =? 69))%N eqn:Ea;
          [|inversion Ee; constructor].
        assert (Ha : (a < 128)%N).
        { apply orb_true_iff in Ea as [Ea|Ea]; apply N.eqb_eq in Ea; lia. }
        destruct r' as [|g r'']; [inversion Ee; constructor|].
        destruct (((g =? 43) || (g =? 45))%N && starts_with_digit r'')%bool
          eqn:Eg.
        + destruct (span_digits r'') as [ds rr] eqn:Es. inversion Ee. subst.
          apply andb_true_iff in Eg as [Eg _].
          constructor; [exact Ha|]. constructor.
          * apply orb_true_iff in Eg as [Eg|Eg]; apply N.eqb_eq in Eg; lia.
          * eapply span_digits_ascii; exact Es.
        + destruct (starts_with_digit (g :: r'')); [|inversion Ee; constructor].
          destruct (span_digits (g :: r'')) as [ds rr] eqn:Es.
          inversion Ee. subst. constructor; [exact Ha|].
          eapply span_digits_ascii; exact Es. }
    destruct (c0 =? 45)%N; eapply Hbody; exact E. }
  unfold number_text, ascii_str. rewrite !Forall_app.
  split; [destruct neg; repeat constructor|].
  split; [apply ascii_str_uint | exact Htail].
Qed.

(** *** A number that is read again without what follows it *)

Lemma span_digits_cut (s ds r : str) :
  span_digits s = (ds, r) -> span_digits ds = (ds, []).
Proof.
  revert ds r. induction s as [|c s IH]; intros ds r H.
  - inversion H. reflexivity.
  - cbn [span_digits] in H. destruct (in_range 48%N 57%N c) eqn:Ec.
    + destruct (span_digits s) as [ds' r'] eqn:E. inversion H. subst.
      cbn [span_digits]. rewrite Ec. now rewrite (IH ds' r).
    + inversion H. reflexivity.
Qed.

Lemma span_digits_head (s ds r : str) :
  span_digits s = (ds, r) -> starts_with_digit s = true ->
  starts_with_digit ds = true.
Proof.
  destruct s as [|c s]; [discriminate|].
  cbn [span_digits starts_with_digit]. intros H Hc. rewrite Hc in H.
  destruct (span_digits s) as [ds' r']. inversion H. exact Hc.
Qed.

Lemma span_digits_again (s ds r x : str) :
  span_digits s = (ds, r) -> starts_with_digit x = false ->
  span_digits (ds ++ x) = (ds, x).
Proof.
  intros H Hx.
  exact (span_digits_app ds x ds [] (span_digits_cut s ds r H) Hx).
Qed.

Lemma digit_not_sign (s : str) :
  starts_with_digit s = true ->
  match s with
  | g :: _ => ((g =? 43) || (g =? 45))%N = false
  | [] => True
  end.
Proof.
  destruct s as [|g s]; [trivial|]. cbn [starts_with_digit]. intros H.
  destruct ((g =? 43) || (g =? 45))%N eqn:Eg; [|reflexivity].
  pose proof (sign_not_digit g s Eg) as Hg. cbn [starts_with_digit] in Hg.
  congruence.
Qed.

Lemma scan_fraction_cut (s f r x : str) :
  scan_fraction s = (f, r) ->
  starts_with_digit x = false ->
  scan_fraction x = ([], x) ->
  scan_fraction (f ++ x) = (f, x).
Proof.
  intros H Hx Hnone. unfold scan_fraction in H.
  destruct s as [|c s]; [now inversion H|].
  destruct (c =? 46)%N eqn:Ec; cbn [andb] in H; [|now inversion H].
  destruct (starts_with_digit s) eqn:Es; [|now inversion H].
  destruct (span_digits s) as [ds r'] eqn:E. inversion H. subst.
  pose proof (span_digits_head s ds r E Es) as Hds.
  cbn [app scan_fraction]. rewrite Ec.
  rewrite starts_with_digit_app, Hds by (destruct ds; discriminate).
  cbn [andb]. now rewrite (span_digits_again s ds r x E Hx).
Qed.

Lemma scan_exponent_cut (s e r : str) :
  scan_exponent s = (e, r) -> scan_exponent e = (e, []).
Proof.
  unfold scan_exponent at 1. destruct s as [|c s]; [now inversion 1|].
  destruct ((c =? 101) || (c =? 69))%N eqn:Ec; [|now inversion 1].
  destruct s as [|g s']; [now inversion 1|].
  destruct ((g =? 43) || (g =? 45))%N eqn:Eg; cbn [andb].
  - destruct (starts_with_digit s') eqn:Es.
    + destruct (span_digits s') as [ds r'] eqn:E. inversion 1. subst.
      cbn [scan_exponent]. rewrite Ec, Eg.
      rewrite (span_digits_head s' ds r E Es). cbn [andb].
      now rewrite (span_digits_cut s' ds r E).
    + pose proof (sign_not_digit g s' Eg) as Hg. rewrite Hg.
      now inversion 1.
  - destruct (starts_with_digit (g :: s')) eqn:Es; [|now inversion 1].
    destruct (span_digits (g :: s')) as [ds r'] eqn:E. inversion 1. subst.
    pose proof (span_digits_head _ ds r E Es) as Hds.
    pose proof (digit_not_sign ds Hds) as Hsign.
    cbn [scan_exponent]. rewrite Ec.
    destruct ds as [|g' ds']; [discriminate|].
    rewrite Hsign. cbn [andb]. rewrite Hds.
    now rewrite (span_digits_cut _ _ r E).
Qed.

Lemma scan_exponent_head (s e r : str) :
  scan_exponent s = (e, r) ->
  starts_with_digit e = false /\ scan_fraction e = ([], e).
Proof.
  intros H.
  assert (He : match e with
               | c :: _ => ((c =? 101) || (c =? 69))%N = true
               | [] => True
               end).
  { unfold scan_exponent in H. destruct s as [|c s]; [now inversion H|].
    destruct ((c =? 101) || (c =? 69))%N eqn:Ec; [|now inversion H].
    destruct s as [|g s']; [now inversion H|].
    destruct (((g =? 43) || (g =? 45))%N && starts_with_digit s')%bool.
    - destruct (span_digits s'). now inversion H.
    - destruct (starts_with_digit (g :: s')); [|now inversion H].
      destruct (span_digits (g :: s')). now inversion H. }
  destruct e as [|c e]; [split; reflexivity|].
  apply orb_true_iff in He. rewrite !N.eqb_eq in He.
  destruct He as [-> | ->]; split; reflexivity.
Qed.

Lemma scan_fraction_head (s f r : str) :
  scan_fraction s = (f, r) -> starts_with_digit f = false.
Proof.
  unfold scan_fraction. destruct s as [|c s]; [now inversion 1|].
  destruct (N.eqb_spec c 46) as [->|Hc]; cbn [andb]; [|now inversion 1].
  destruct (starts_with_digit s); [|now inversion 1].
  destruct (span_digits s). now inversion 1.
Qed.

(** The fraction and the exponent are read again from their text. *)
Lemma number_tail_cut (r f r1 e r2 : str) :
  scan_fraction r = (f, r1) -> scan_exponent r1 = (e, r2) ->
  starts_with_digit (f ++ e) = false
  /\ scan_fraction (f ++ e) = (f, e)
  /\ scan_exponent e = (e, []).
Proof.
  intros Hf He.
  destruct (scan_exponent_head r1 e r2 He) as [Hd Hn].
  split; [|split].
  - destruct f as [|c f]; [exact Hd|].
    rewrite starts_with_digit_app by discriminate.
    exact (scan_fraction_head r _ r1 Hf).
  - exact (scan_fraction_cut r f r1 e Hf Hd Hn).
  - exact (scan_exponent_cut r1 e r2 He).
Qed.

Lemma scan_uint_nil (s r : str) :
  scan_uint s = (Decimal.Nil, r) -> starts_with_digit s = false.
Proof.
  destruct s as [|c s]; [reflexivity|]. cbn [scan_uint starts_with_digit].
  destruct (scan_uint s) as [u' r'].
  repeat match goal with
         | |- context [if (c =? ?k)%N then _ else _] =>
             destruct (N.eqb_spec c k); [discriminate|]
         end.
  intros _. unfold in_range. apply andb_false_iff.
  destruct (N.leb_spec 48 c); [right | now left].
  apply N.leb_gt. lia.
Qed.

Lemma number_body_cut (neg : bool) (s1 : str) (neg' : bool)
      (u : Decimal.uint) (tail rest : str) :
  number_body neg s1 = Some (neg', u, tail, rest) ->
  number_body neg (uint_str u ++ tail) = Some (neg', u, tail, []).
Proof.
  unfold number_body at 1. destruct s1 as [|c s2]; [discriminate|].
  destruct (in_range 48%N 57%N c) eqn:Ec; [|discriminate].
  assert (Htail : forall r0,
    (let (frac, r1) := scan_fraction r0 in
     let (exp, r2) := scan_exponent r1 in
     Some (neg, u, frac ++ exp, r2)) = Some (neg', u, tail, rest) ->
    neg' = neg
    /\ starts_with_digit tail = false
    /\ (let (frac, r1) := scan_fraction tail in
        let (exp, r2) := scan_exponent r1 in
        Some (neg, u, frac ++ exp, r2)) = Some (neg, u, tail, [])).
  { intros r0. destruct (scan_fraction r0) as [f r1] eqn:Ef.
    destruct (scan_exponent r1) as [e r2] eqn:Ee.
    intros H. inversion H. subst.
    destruct (number_tail_cut r0 f r1 e rest Ef Ee) as (Hd & Hf & He).
    split; [reflexivity|]. split; [exact Hd|]. now rewrite Hf, He. }
  destruct (c =? 48)%N eqn:E48.
  - intros H.
    assert (Hu : u = Decimal.D0 Decimal.Nil).
    { destruct (scan_fraction s2) as [f r1].
      destruct (scan_exponent r1) as [e r2]. now inversion H. }
    subst u. destruct (Htail s2 H) as (-> & _ & Hcut).
    cbn [uint_str app number_body]. change (in_range 48 57 48)%N with true.
    change (48 =? 48)%N with true. cbv iota. exact Hcut.
  - destruct (scan_uint (c :: s2)) as [u0 r0] eqn:Eu. intros H.
    assert (Hu : u0 = u).
    { destruct (scan_fraction r0) as [f r1].
      destruct (scan_exponent r1) as [e r2]. now inversion H. }
    subst u0. destruct (Htail r0 H) as (-> & Hd & Hcut).
    pose proof (scan_uint_str u tail Hd) as Hscan.
    pose proof (scan_uint_text _ _ _ Eu) as Htext.
    destruct u as [|u'|u'|u'|u'|u'|u'|u'|u'|u'|u'].
    + apply scan_uint_nil in Eu. cbn [starts_with_digit] in Eu. congruence.
    + cbn [uint_str app] in Htext. inversion Htext. subst c. discriminate.
    + cbn [uint_str app number_body] in *.
      match goal with
      | |- context [scan_uint ?l] =>
          replace (scan_uint l) with (Decimal.D1 u', tail)
            by (symmetry; exact Hscan)
      end. exact Hcut.
    + cbn [uint_str app number_body] in *.
      match goal with
      | |- context [scan_uint ?l] =>
          replace (scan_uint l) with (Decimal.D2 u', tail)
            by (symmetry; exact Hscan)
      end. exact Hcut.
    + cbn [uint_str app number_body] in *.
      match goal with
      | |- context [scan_uint ?l] =>
          replace (scan_uint l) with (Decimal.D3 u', tail)
            by (symmetry; exact Hscan)
      end. exact Hcut.
    + cbn [uint_str app number_body] in *.
      match goal with
      | |- context [scan_uint ?l] =>
          replace (scan_uint l) with (Decimal.D4 u', tail)
            by (symmetry; exact Hscan)
      end. exact Hcut.
    + cbn [uint_str app number_body] in *.
      match goal with
      | |- context [scan_uint ?l] =>
          replace (scan_uint l) with (Decimal.D5 u', tail)
            by (symmetry; exact Hscan)
      end. exact Hcut.
    + cbn [uint_str app number_body] in *.
      match goal with
      | |- context [scan_uint ?l] =>
          replace (scan_uint l) with (Decimal.D6 u', tail)
            by (symmetry; exact Hscan)
      end. exact Hcut.
    + cbn [uint_str app number_body] in *.
      match goal with
      | |- context [scan_uint ?l] =>
          replace (scan_uint l) with (Decimal.D7 u', tail)
            by (symmetry; exact Hscan)
      end. exact Hcut.
    + cbn [uint_str app number_body] in *.
      match goal with
      | |- context [scan_uint ?l] =>
          replace (scan_uint l) with (Decimal.D8 u', tail)
            by (symmetry; exact Hscan)
      end. exact Hcut.
    + cbn [uint_str app number_body] in *.
      match goal with
      | |- context [scan_uint ?l] =>
          replace (scan_uint l) with (Decimal.D9 u', tail)
            by (symmetry; exact Hscan)
      end. exact Hcut.
Qed.

(** The number that [number_parts] finds is found again in its text. *)
Lemma number_parts_cut (s : str) (neg : bool) (u : Decimal.uint)
      (tail rest : str) :
  number_parts s = Some (neg, u, tail, rest) ->
  number_parts (number_text neg u tail) = Some (neg, u, tail, []).
Proof.
  unfold number_parts at 1. destruct s as [|c s']; [discriminate|].
  destruct (c =? 45)%N eqn:Ec; intros H.
  - pose proof (number_body_text _ _ _ _ _ _ H) as [-> _].
    apply number_body_cut in H. unfold number_text. cbn [app number_parts].
    change (45 =? 45)%N with true. cbv iota. exact H.
  - pose proof (number_body_text _ _ _ _ _ _ H) as [-> Htext].
    apply number_body_cut in H. unfold number_text. cbn [app].
    unfold number_parts.
    destruct (uint_str u ++ tail) as [|c' l] eqn:E; [exact H|].
    replace (c' =? 45)%N with false; [exact H|].
    symmetry. apply N.eqb_neq. intros ->.
    unfold number_body in H. discriminate H.
Qed.

(** A number with a fraction or an exponent is a float literal. *)
Lemma number_parts_literal (s : str) (neg : bool) (u : Decimal.uint)
      (c : char) (tail rest : str) :
  number_parts s = Some (neg, u, c :: tail, rest) ->
  float_literal (number_text neg u (c :: tail)) = true.
Proof.
  intros H. unfold float_literal.
  now rewrite (number_parts_cut s neg u (c :: tail) rest H).
Qed.

Lemma skip_ws_indent (level : nat) (s : str) :
  skip_ws (newline_indent level ++ s) = skip_ws s.
Proof.
  unfold newline_indent. cbn [app skip_ws]. change (is_ws 10%N) with true.
  cbv iota. induction (2 * level)%nat as [|n IH]; [reflexivity|].
  cbn [repeat app skip_ws]. change (is_ws 32%N) with true. exact IH.
Qed.

Lemma skip_ws_stop (c : char) (s : str) :
  is_ws c = false -> skip_ws (c :: s) = c :: s.
Proof. intros H. cbn [skip_ws]. now rewrite H. Qed.

Lemma encode_basestring_app (k s : str) :
  encode_basestring k ++ s = 34%N :: flat_map escape_char k ++ 34%N :: s.
Proof.
  unfold encode_basestring. cbn [app]. now rewrite <- List.app_assoc.
Qed.

Lemma uint_str_head (n : N) :
  exists c t,
    uint_str (N.to_uint n) = c :: t /\ in_range 48%N 57%N c = true.
Proof.
  destruct (N.to_uint n) eqn:E;
    try (eexists _, _; split; reflexivity).
  destruct n as [|p]; [discriminate|].
  exfalso. now apply (DecimalPos.Unsigned.to_uint_nonnil p).
Qed.

(** The first character of an integer: a minus sign or a digit. *)
Lemma int_str_head (z : Z) :
  exists c t,
    int_str z = c :: t
    /\ ((c =? 45)%N || in_range 48%N 57%N c)%bool = true.
Proof.
  unfold int_str. destruct (z <? 0).
  - eexists _, _. split; reflexivity.
  - destruct (uint_str_head (Z.abs_N z)) as (c & t & E & Hc).
    exists c, t. split; [exact E|]. rewrite Hc. apply orb_true_r.
Qed.

Lemma int_head_tests (c : char) :
  ((c =? 45)%N || in_range 48%N 57%N c)%bool = true ->
  is_ws c = false /\ (c =? 93)%N = false /\ (c =? 34)%N = false
  /\ (c =? 123)%N = false /\ (c =? 91)%N = false /\ (110 =? c)%N = false
  /\ (116 =? c)%N = false /\ (102 =? c)%N = false
  /\ (78 =? c)%N = false /\ (73 =? c)%N = false /\ (c =? 65279)%N = false.
Proof.
  unfold in_range, is_ws. rewrite orb_true_iff, andb_true_iff.
  rewrite !N.leb_le, !orb_false_iff, !N.eqb_eq, !N.eqb_neq. lia.
Qed.

(** The first character of a number: a minus sign or a digit. *)
Lemma number_head_tests (s : str) (p : bool * Decimal.uint * str * str) :
  number_parts s = Some p ->
  exists c t,
    s = c :: t /\ ((c =? 45)%N || in_range 48%N 57%N c)%bool = true.
Proof.
  intros H. destruct (number_parts_head s p H) as (c & t & E & [Hc|[-> _]]).
  - exists c, t. split; [exact E|]. rewrite Hc. apply orb_true_r.
  - exists 45%N, t. split; [exact E | reflexivity].
Qed.

(** Where a number starts, [scan_once] reads a number. *)
Lemma scan_once_number (s : str) (p : bool * Decimal.uint * str * str)
      (f : nat) :
  number_parts s = Some p -> scan_once (S f) s = scan_number s.
Proof.
  intros H. destruct (number_parts_head s p H) as (c & t & -> & Hc).
  assert (Htests : ((c =? 45)%N || in_range 48%N 57%N c)%bool = true).
  { destruct Hc as [Hc|[-> _]]; [rewrite Hc; apply orb_true_r | reflexivity]. }
  apply int_head_tests in Htests
    as (_ & _ & H34 & H123 & H91 & H110 & H116 & H102 & H78 & H73 & _).
  cbn [scan_once]. rewrite H34, H123, H91. eval_lit. cbn [strip_prefix].
  rewrite H110, H116, H102, H78, H73.
  destruct Hc as [Hc|[-> (c2 & t2 & -> & Hc2)]].
  - replace (45 =? c)%N with false; [reflexivity|].
    symmetry. apply N.eqb_neq. unfold in_range in Hc.
    apply andb_true_iff in Hc as [Hc _]. apply N.leb_le in Hc. lia.
  - change (45 =? 45)%N with true. cbv iota.
    replace (73 =? c2)%N with false; [reflexivity|].
    symmetry. apply N.eqb_neq. unfold in_range in Hc2.
    apply andb_true_iff in Hc2 as [_ Hc2]. apply N.leb_le in Hc2. lia.
Qed.

Lemma float_literal_parts (r rest : str) :
  float_literal r = true -> delimited rest ->
  exists p, number_parts (r ++ rest) = Some p.
Proof.
  unfold float_literal. intros H Hrest.
  destruct (number_parts r) as [[[[neg u] tail] r0]|] eqn:E; [|discriminate].
  destruct tail as [|c t]; [discriminate|].
  destruct r0; [|discriminate].
  eexists. exact (number_parts_app _ rest _ _ _ E Hrest).
Qed.

Lemma parsed_ok_float (r : str) :
  parsed_ok (JFloat (FFinite r)) = true ->
  float_literal r = true /\ parse_float r = FFinite r.
Proof.
  cbn [parsed_ok]. intros H. apply andb_true_iff in H as [H1 H2].
  split; [exact H1|]. destruct (parse_float r); try discriminate.
  cbn [pyfloat_eqb] in H2. apply str_eqb_eq in H2. now subst.
Qed.

(** The first character of the text of a value is not white space and
    does not close a list. *)
Lemma json_text_head (level : nat) (v : json) (rest : str) :
  parsed_ok v = true ->
  exists c t,
    json_text level v ++ rest = c :: t
    /\ is_ws c = false /\ (c =? 93)%N = false /\ (c =? 65279)%N = false.
Proof.
  intros Hv.
  destruct v as [|[|]|n|[|[|]|r]|s|[|x l]|[|[k x] d]];
    try (eexists _, _; split; [reflexivity | repeat split; reflexivity]).
  - cbn [json_text].
    destruct (int_str_head n) as (c & t & E & Hc).
    rewrite E. exists c, (t ++ rest). split; [reflexivity|].
    apply int_head_tests in Hc. tauto.
  - cbn [json_text float_text].
    apply parsed_ok_float in Hv as [Hlit _]. unfold float_literal in Hlit.
    destruct (number_parts r) as [p|] eqn:E; [|discriminate].
    destruct (number_head_tests r p E) as (c & t & -> & Hc).
    exists c, (t ++ rest). split; [reflexivity|].
    apply int_head_tests in Hc. tauto.
Qed.

Lemma skip_ws_text (level : nat) (v : json) (rest : str) :
  parsed_ok v = true ->
  skip_ws (json_text level v ++ rest) = json_text level v ++ rest.
Proof.
  intros Hv. destruct (json_text_head level v rest Hv) as (c & t & E & Hc & _).
  rewrite E. now apply skip_ws_stop.
Qed.

(** A scalar of the document is read back. *)
Lemma scan_once_scalar (level : nat) (v : json) (t rest : str) (fuel : nat) :
  encode_scalar v = Some t ->
  parsed_ok v = true ->
  (1 <= fuel)%nat -> delimited rest ->
  scan_once fuel (json_text level v ++ rest) = inr (v, rest).
Proof.
  intros Hv Hok Hf Hrest. destruct fuel as [|f]; [inversion Hf|].
  destruct v as [|[|]|n|[|[|]|r]|s|l|d]; try discriminate;
    try reflexivity.
  - cbn [json_text].
    rewrite (scan_once_number _ _ f (number_parts_int n rest Hrest)).
    apply scan_number_int; [|exact Hrest].
    cbn [parsed_ok] in Hok. now apply Nat.leb_le.
  - cbn [json_text float_text].
    apply parsed_ok_float in Hok as [Hlit Hread].
    destruct (float_literal_parts r rest Hlit Hrest) as [p Hp].
    rewrite (scan_once_number _ p f Hp), (scan_number_float r rest Hlit Hrest).
    now rewrite Hread.
  - cbn [json_text]. apply scan_once_string. lia.
Qed.

Lemma array_items_step (f : nat) (s : str) (acc : list json)
      (v : json) (s1 : str) :
  scan_once f s = inr (v, s1) ->
  array_items (S f) s acc
  = match skip_ws s1 with
    | c :: s2 =>
        if (c =? 93)%N then inr (JList (rev (v :: acc)), s2)
        else if (c =? 44)%N then array_items f (skip_ws s2) (v :: acc)
        else inl JSONDecodeError
    | [] => inl JSONDecodeError
    end.
Proof. intros H. cbn [array_items]. now rewrite H. Qed.

Lemma object_items_step (f : nat) (k s1 rest : str)
      (acc : list (str * json)) (v : json) (s3 : str) :
  scan_once f (skip_ws s1) = inr (v, s3) ->
  object_items (S f) (flat_map escape_char k ++ 34%N :: 58%N :: s1) acc
  = match skip_ws s3 with
    | c3 :: s4 =>
        if (c3 =? 125)%N then
          inr (JDict (dict_of_pairs (rev ((k, v) :: acc))), s4)
        else if (c3 =? 44)%N then
          match skip_ws s4 with
          | c5 :: s6 =>
              if (c5 =? 34)%N then object_items f s6 ((k, v) :: acc)
              else inl JSONDecodeError
          | [] => inl JSONDecodeError
          end
        else inl JSONDecodeError
    | [] => inl JSONDecodeError
    end.
Proof.
  intros H. cbn [object_items].
  rewrite scanstring_escaped.
  - cbn [skip_ws]. change (is_ws 58%N) with false. cbv iota.
    change (58 =? 58)%N with true. cbv iota. now rewrite H.
  - rewrite length_app. cbn [List.length].
    pose proof (escaped_length k). lia.
Qed.

(** [dict] of pairs with distinct keys is the list of those pairs. *)
Lemma dict_set_new (k : str) (v : json) (d : list (str * json)) :
  existsb (str_eqb k) (List.map fst d) = false ->
  dict_set k v d = d ++ [(k, v)].
Proof.
  induction d as [|[k' v'] d IH]; cbn [dict_set List.map existsb fst app];
    [reflexivity|].
  intros H. apply orb_false_iff in H as [H1 H2].
  rewrite H1. now rewrite IH.
Qed.

Lemma dict_of_pairs_distinct (d : list (str * json)) :
  keys_distinct (List.map fst d) = true -> dict_of_pairs d = d.
Proof.
  unfold dict_of_pairs.
  assert (H : forall l init,
    keys_distinct (List.map fst (init ++ l)) = true ->
    fold_left (fun d kv => dict_set (fst kv) (snd kv) d) l init = init ++ l).
  { induction l as [|[k v] l IH]; intros init Hd; cbn [fold_left fst snd].
    - now rewrite List.app_nil_r.
    - rewrite dict_set_new.
      + rewrite IH; rewrite <- List.app_assoc; [reflexivity | exact Hd].
      + clear IH. induction init as [|[k' v'] init IHi];
          cbn [List.map existsb fst app] in *; [reflexivity|].
        apply andb_true_iff in Hd as [Hk Hd].
        rewrite (IHi Hd), orb_false_r.
        apply negb_true_iff in Hk.
        rewrite map_app in Hk. cbn [List.map fst] in Hk.
        rewrite existsb_app in Hk. apply orb_false_iff in Hk as [_ Hk].
        cbn [existsb] in Hk. apply orb_false_iff in Hk as [Hk _].
        destruct (str_eqb k k') eqn:E; [|reflexivity].
        apply str_eqb_eq in E. subst k'. now rewrite str_eqb_refl in Hk. }
  intros Hd. now apply (H d []).
Qed.

(** The text of a value, followed by a comma, a new line or nothing, is
    read back as the value, with the fuel that the size of the value
    asks for. *)
Lemma scan_once_text (v : json) :
  forall (level : nat) (rest : str) (fuel : nat),
    parsed_ok v = true ->
    (json_size v <= fuel)%nat ->
    delimited rest ->
    scan_once fuel (json_text level v ++ rest) = inr (v, rest).
Proof.
  induction v as [|b|n|x|s|l IH|d IH] using json_induction;
    intros level rest fuel Hkeys Hfuel Hrest;
    try (eapply scan_once_scalar;
         [reflexivity | exact Hkeys | exact Hfuel | exact Hrest]).
  - destruct b;
      (eapply scan_once_scalar;
       [reflexivity | exact Hkeys | exact Hfuel | exact Hrest]).
  - (* a list *)
    destruct fuel as [|f]; [inversion Hfuel|].
    destruct l as [|x l]; [reflexivity|].
    cbn [json_text app]. cbn [scan_once].
    change (91 =? 34)%N with false. change (91 =? 123)%N with false.
    change (91 =? 91)%N with true. cbv iota.
    cbn [parsed_ok] in Hkeys.
    assert (Hkx : parsed_ok x = true).
    { cbn [forallb] in Hkeys. now apply andb_true_iff in Hkeys as [Hkx _]. }
    rewrite <- !List.app_assoc, skip_ws_indent, (skip_ws_text _ _ _ Hkx).
    destruct (json_text_head (S level) x
                (flat_map (fun y => 44%N :: newline_indent (S level)
                                    ++ json_text (S level) y) l
                 ++ newline_indent level ++ lit "]" ++ rest) Hkx)
      as (c & t & E & _ & Hc & _).
    rewrite E, Hc, <- E. clear c t E Hc.
    cbn [json_size List.map list_sum fold_right] in Hfuel.
    assert (Hitems : forall l' y acc f',
      Forall (fun v => forall level rest fuel,
                parsed_ok v = true -> (json_size v <= fuel)%nat ->
                delimited rest ->
                scan_once fuel (json_text level v ++ rest) = inr (v, rest))
             (y :: l') ->
      forallb parsed_ok (y :: l') = true ->
      (list_sum (List.map (fun x => S (json_size x)) (y :: l')) <= f')%nat ->
      array_items f'
        (json_text (S level) y
         ++ flat_map (fun y => 44%N :: newline_indent (S level)
                               ++ json_text (S level) y) l'
         ++ newline_indent level ++ lit "]" ++ rest) acc
      = inr (JList (rev acc ++ y :: l'), rest)).
    { induction l' as [|z l' IHl]; intros y acc f' Hall Hk Hf.
      - inversion Hall as [|? ? Hy _]; subst.
        cbn [forallb] in Hk. apply andb_true_iff in Hk as [Hky _].
        cbn [List.map list_sum fold_right] in Hf.
        destruct f' as [|f']; [lia|].
        cbn [flat_map app].
        rewrite (array_items_step f' _ acc y
                   (newline_indent level ++ lit "]" ++ rest)).
        + rewrite skip_ws_indent. eval_lit. cbn [app skip_ws].
          change (is_ws 93%N) with false. cbv iota.
          change (93 =? 93)%N with true. cbv iota. reflexivity.
        + apply Hy; [exact Hky | lia | apply delimited_newline].
      - inversion Hall as [|? ? Hy Hrest']; subst.
        cbn [forallb] in Hk. apply andb_true_iff in Hk as [Hky Hk].
        cbn [List.map list_sum fold_right] in Hf.
        destruct f' as [|f']; [lia|].
        cbn [flat_map app]. rewrite <- !List.app_assoc.
        rewrite (array_items_step f' _ acc y
                   (44%N :: newline_indent (S level)
                    ++ json_text (S level) z
                    ++ flat_map (fun y => 44%N :: newline_indent (S level)
                                          ++ json_text (S level) y) l'
                    ++ newline_indent level ++ lit "]" ++ rest)).
        + cbn [skip_ws]. change (is_ws 44%N) with false. cbv iota.
          change (44 =? 93)%N with false. change (44 =? 44)%N with true.
          cbv iota. rewrite skip_ws_indent, skip_ws_text;
            [|cbn [forallb] in Hk; now apply andb_true_iff in Hk as [Hkz _]].
          rewrite (IHl z (y :: acc) f' Hrest' Hk);
            [|cbn [List.map list_sum fold_right]; lia].
          cbn [rev]. now rewrite <- List.app_assoc.
        + apply Hy; [exact Hky | lia | apply delimited_comma]. }
    rewrite (Hitems l x [] f IH Hkeys);
      [reflexivity | cbn [List.map list_sum fold_right]; lia].
  - (* a dict *)
    destruct fuel as [|f]; [inversion Hfuel|].
    destruct d as [|[k x] d]; [reflexivity|].
    cbn [json_text app]. cbn [scan_once].
    change (123 =? 34)%N with false. change (123 =? 123)%N with true.
    cbv iota.
    rewrite <- !List.app_assoc, skip_ws_indent.
    rewrite encode_basestring_app. cbn [skip_ws].
    change (is_ws 34%N) with false. cbv iota.
    change (34 =? 125)%N with false. change (34 =? 34)%N with true.
    cbv iota.
    cbn [json_size List.map list_sum fold_right snd] in Hfuel.
    cbn [parsed_ok] in Hkeys. apply andb_true_iff in Hkeys as [Hnd Hkeys].
    assert (Hitems : forall d' k' y acc f',
      Forall (fun kv => forall level rest fuel,
                parsed_ok (snd kv) = true ->
                (json_size (snd kv) <= fuel)%nat ->
                delimited rest ->
                scan_once fuel (json_text level (snd kv) ++ rest)
                = inr (snd kv, rest))
             ((k', y) :: d') ->
      forallb (fun kv => parsed_ok (snd kv)) ((k', y) :: d') = true ->
      (list_sum (List.map (fun kv => S (json_size (snd kv))) ((k', y) :: d'))
       <= f')%nat ->
      object_items f'
        (flat_map escape_char k' ++ 34%N :: lit ": "
         ++ json_text (S level) y
         ++ flat_map (fun kv => 44%N :: newline_indent (S level)
                                ++ encode_basestring (fst kv) ++ lit ": "
                                ++ json_text (S level) (snd kv)) d'
         ++ newline_indent level ++ lit "}" ++ rest) acc
      = inr (JDict (dict_of_pairs (rev acc ++ (k', y) :: d')), rest)).
    { induction d' as [|[k2 z] d' IHd]; intros k' y acc f' Hall Hk Hf.
      - inversion Hall as [|? ? Hy _]; subst. cbn [snd] in Hy.
        cbn [forallb snd] in Hk. apply andb_true_iff in Hk as [Hky _].
        cbn [List.map list_sum fold_right snd] in Hf.
        destruct f' as [|f']; [lia|].
        cbn [flat_map app]. eval_lit. cbn [app].
        rewrite (object_items_step f' k' _ rest acc y
                   (newline_indent level ++ 125%N :: rest)).
        + rewrite skip_ws_indent. cbn [skip_ws].
          change (is_ws 125%N) with false. cbv iota.
          change (125 =? 125)%N with true. cbv iota. reflexivity.
        + cbn [skip_ws]. change (is_ws 32%N) with true. cbv iota.
          rewrite (skip_ws_text _ _ _ Hky).
          apply Hy; [exact Hky | lia | apply delimited_newline].
      - inversion Hall as [|? ? Hy Hrest']; subst. cbn [snd] in Hy.
        cbn [forallb snd] in Hk. apply andb_true_iff in Hk as [Hky Hk].
        cbn [List.map list_sum fold_right snd] in Hf.
        destruct f' as [|f']; [lia|].
        cbn [flat_map fst snd app]. rewrite <- !List.app_assoc.
        rewrite encode_basestring_app. eval_lit. cbn [app].
        rewrite (object_items_step f' k' _ rest acc y
                   (44%N :: newline_indent (S level)
                    ++ 34%N :: flat_map escape_char k2
                    ++ 34%N :: 58%N :: 32%N :: json_text (S level) z
                    ++ flat_map (fun kv => 44%N :: newline_indent (S level)
                                   ++ encode_basestring (fst kv) ++ lit ": "
                                   ++ json_text (S level) (snd kv)) d'
                    ++ newline_indent level ++ 125%N :: rest)).
        + cbn [skip_ws]. change (is_ws 44%N) with false. cbv iota.
          change (44 =? 125)%N with false. change (44 =? 44)%N with true.
          cbv iota. rewrite skip_ws_indent. cbn [skip_ws].
          change (is_ws 34%N) with false. cbv iota.
          change (34 =? 34)%N with true. cbv iota.
          pose proof (IHd k2 z ((k', y) :: acc) f' Hrest' Hk) as Hnext.
          eval_lit. revert Hnext. eval_lit. cbn [app]. intros Hnext.
          refine (eq_trans (Hnext _) _);
            [cbn [List.map list_sum fold_right snd] in *; lia|].
          cbn [rev]. now rewrite <- List.app_assoc.
        + cbn [skip_ws]. change (is_ws 32%N) with true. cbv iota.
          rewrite (skip_ws_text _ _ _ Hky).
          apply Hy; [exact Hky | lia | apply delimited_comma]. }
    refine (eq_trans (Hitems d k x [] f IH Hkeys _) _).
    { apply le_S_n. exact Hfuel. }
    cbn [rev app]. now rewrite dict_of_pairs_distinct.
Qed.

(** The text of a value is as long as the fuel it asks for, but for one
    character. *)
Lemma json_text_length (v : json) :
  forall level, (json_size v <= S (List.length (json_text level v)))%nat.
Proof.
  induction v as [|b|n|x|s|l IH|d IH] using json_induction; intros level.
  - cbn. lia.
  - destruct b; cbn; lia.
  - cbn [json_size json_text]. lia.
  - cbn [json_size json_text]. lia.
  - cbn [json_size json_text]. lia.
  - destruct l as [|x l]; [cbn; lia|].
    inversion IH as [|? ? Hx Hl]; subst.
    cbn [json_size json_text List.map list_sum fold_right].
    cbn [List.length]. rewrite !length_app.
    assert (Hrest : forall l',
      Forall (fun v => forall level,
                (json_size v <= S (List.length (json_text level v)))%nat) l' ->
      (fold_right Init.Nat.add 0%nat (List.map (fun x => S (json_size x)) l')
       <= List.length
            (flat_map (fun y => 44%N :: newline_indent (S level)
                                ++ json_text (S level) y) l'))%nat).
    { intros l' H. induction H as [|y l'' Hy _ IHl]; [cbn; lia|].
      cbn [List.map fold_right flat_map]. rewrite length_app.
      cbn [List.length]. rewrite length_app.
      specialize (Hy (S level)).
      unfold newline_indent at 1. cbn [List.length]. lia. }
    specialize (Hrest l Hl). specialize (Hx (S level)).
    unfold newline_indent at 1. cbn [List.length]. lia.
  - destruct d as [|[k x] d]; [cbn; lia|].
    inversion IH as [|? ? Hx Hd]; subst. cbn [snd] in Hx.
    cbn [json_size json_text List.map list_sum fold_right snd].
    cbn [List.length]. rewrite !length_app.
    assert (Hrest : forall d',
      Forall (fun kv => forall level,
                (json_size (snd kv)
                 <= S (List.length (json_text level (snd kv))))%nat) d' ->
      (fold_right Init.Nat.add 0%nat
         (List.map (fun kv => S (json_size (snd kv))) d')
       <= List.length
            (flat_map (fun kv => 44%N :: newline_indent (S level)
                                 ++ encode_basestring (fst kv) ++ lit ": "
                                 ++ json_text (S level) (snd kv)) d'))%nat).
    { intros d' H. induction H as [|[k' y] d'' Hy _ IHd]; [cbn; lia|].
      cbn [List.map fold_right flat_map fst snd]. rewrite length_app.
      cbn [List.length]. rewrite !length_app.
      specialize (Hy (S level)). cbn [snd] in Hy.
      unfold newline_indent at 1. cbn [List.length]. lia. }
    specialize (Hrest d Hd). specialize (Hx (S level)).
    unfold newline_indent at 1. cbn [List.length]. lia.
Qed.

(** The first character of the text of a value is not the byte order
    mark. *)
Lemma json_text_no_bom (level : nat) (v : json) :
  parsed_ok v = true -> has_bom (json_text level v) = false.
Proof.
  intros Hv. destruct (json_text_head level v [] Hv) as (c & t & E & _ & _ & Hc).
  rewrite List.app_nil_r in E. rewrite E. exact Hc.
Qed.

(** Round trip of the codec: what [json.dump] writes, [json.load] reads
    back. *)
Lemma json_loads_dumps (v : json) :
  parsed_ok v = true -> json_loads (json_dumps v) = inr v.
Proof.
  intros Hkeys. unfold json_loads, json_dumps.
  rewrite iterencode_concat, (json_text_no_bom 0 v Hkeys).
  pose proof (skip_ws_text 0 v [] Hkeys) as Hws.
  rewrite List.app_nil_r in Hws. rewrite Hws.
  pose proof (scan_once_text v 0 [] (S (List.length (json_text 0 v)))
                Hkeys) as Hscan.
  rewrite List.app_nil_r in Hscan. rewrite Hscan; [reflexivity | | ].
  - apply json_text_length.
  - apply delimited_nil.
Qed.

(** ** What can be written as UTF-8 *)

Lemma ascii_encodable (s : str) : ascii_str s -> encodable_str s = true.
Proof.
  intros H. unfold encodable_str. apply forallb_forall. intros c Hc.
  unfold ascii_str in H. rewrite Forall_forall in H. specialize (H c Hc).
  unfold encodable, in_range. apply negb_true_iff, andb_false_iff. left.
  apply N.leb_gt. lia.
Qed.

Lemma encodable_str_app (a b : str) :
  encodable_str (a ++ b) = (encodable_str a && encodable_str b)%bool.
Proof. apply forallb_app. Qed.

Lemma hex_digit_ascii (n : N) : (n < 16)%N -> (hex_digit n < 128)%N.
Proof. intros H. unfold hex_digit. destruct (n <? 10)%N; lia. Qed.

Lemma escape_char_encodable (c : char) :
  encodable c = true -> encodable_str (escape_char c) = true.
Proof.
  intros Hc. unfold escape_char.
  destruct (c =? 92)%N; [reflexivity|].
  destruct (c =? 34)%N; [reflexivity|].
  destruct (c =? 8)%N; [reflexivity|].
  destruct (c =? 12)%N; [reflexivity|].
  destruct (c =? 10)%N; [reflexivity|].
  destruct (c =? 13)%N; [reflexivity|].
  destruct (c =? 9)%N; [reflexivity|].
  destruct (N.ltb_spec c 32%N) as [Hlt|Hge].
  - apply ascii_encodable. unfold ascii_str.
    apply Forall_app. split; [repeat constructor|].
    repeat constructor; apply hex_digit_ascii.
    + apply N.Div0.div_lt_upper_bound. lia.
    + apply N.mod_lt. lia.
  - unfold encodable_str. cbn [forallb]. now rewrite Hc.
Qed.

Lemma escaped_encodable (s : str) :
  encodable_str s = true -> encodable_str (flat_map escape_char s) = true.
Proof.
  induction s as [|c s IH]; [reflexivity|].
  unfold encodable_str in *. cbn [forallb flat_map]. intros H.
  apply andb_true_iff in H as [Hc Hs].
  rewrite forallb_app. apply andb_true_iff. split.
  - now apply escape_char_encodable.
  - now apply IH.
Qed.

Lemma encode_basestring_encodable (s : str) :
  encodable_str s = true -> encodable_str (encode_basestring s) = true.
Proof.
  intros H. unfold encode_basestring.
  change (34%N :: flat_map escape_char s ++ [34%N])
    with ([34%N] ++ flat_map escape_char s ++ [34%N]).
  rewrite !encodable_str_app, (escaped_encodable s H). reflexivity.
Qed.

Lemma newline_indent_encodable (level : nat) :
  encodable_str (newline_indent level) = true.
Proof.
  unfold newline_indent, encodable_str. cbn [forallb].
  change (encodable 10%N) with true. cbn [andb].
  induction (2 * level)%nat as [|n IH]; [reflexivity|].
  cbn [repeat forallb]. change (encodable 32%N) with true. exact IH.
Qed.

Lemma float_text_encodable (x : pyfloat) :
  parsed_ok (JFloat x) = true -> encodable_str (float_text x) = true.
Proof.
  destruct x as [|[|]|r]; try reflexivity.
  intros H. apply parsed_ok_float in H as [H _].
  apply ascii_encodable, float_literal_ascii, H.
Qed.

Lemma encode_scalar_encodable (v : json) (t : str) :
  encode_scalar v = Some t -> encodable_json v = true ->
  parsed_ok v = true ->
  encodable_str t = true.
Proof.
  destruct v as [|[|]|n|x|s|l|d]; cbn [encode_scalar encodable_json];
    intros H Hv Hok; inversion H; subst; try reflexivity.
  - apply ascii_encodable, ascii_str_int.
  - now apply float_text_encodable.
  - now apply encode_basestring_encodable.
Qed.

(** Every chunk of a value whose strings can be encoded can be encoded:
    the write goes through. *)
Lemma iterencode_encodable (v : json) :
  forall level,
    encodable_json v = true ->
    parsed_ok v = true ->
    forallb encodable_str (iterencode level v) = true.
Proof.
  induction v as [|b|n|x|s|l IH|d IH] using json_induction;
    intros level Hv Hok.
  - reflexivity.
  - destruct b; reflexivity.
  - cbn [iterencode encode_scalar forallb].
    rewrite (ascii_encodable _ (ascii_str_int n)). reflexivity.
  - cbn [iterencode encode_scalar forallb].
    rewrite (float_text_encodable x Hok). reflexivity.
  - cbn [iterencode encode_scalar forallb].
    cbn [encodable_json] in Hv.
    rewrite (encode_basestring_encodable s Hv). reflexivity.
  - destruct l as [|x l]; [reflexivity|].
    cbn [iterencode]. rewrite forallb_app. apply andb_true_iff. split.
    2: { cbn [forallb]. rewrite newline_indent_encodable. reflexivity. }
    cbn [encodable_json] in Hv. cbn [parsed_ok] in Hok.
    assert (Hsep : encodable_str (44%N :: newline_indent (S level)) = true).
    { change (44%N :: newline_indent (S level))
        with ([44%N] ++ newline_indent (S level)).
      rewrite encodable_str_app, newline_indent_encodable. reflexivity. }
    assert (Hopen : encodable_str (91%N :: newline_indent (S level)) = true).
    { change (91%N :: newline_indent (S level))
        with ([91%N] ++ newline_indent (S level)).
      rewrite encodable_str_app, newline_indent_encodable. reflexivity. }
    revert Hopen. generalize (91%N :: newline_indent (S level)) as buf.
    revert IH Hv Hok. generalize (x :: l) as l'. clear x l.
    induction l' as [|y l' IHl]; intros IH Hv Hok buf Hbuf; [reflexivity|].
    inversion IH as [|? ? Hy Hl]; subst.
    cbn [forallb] in Hv. apply andb_true_iff in Hv as [Hvy Hvl].
    cbn [forallb] in Hok. apply andb_true_iff in Hok as [Hoy Hol].
    cbn [list_chunks]. rewrite forallb_app. apply andb_true_iff. split.
    + unfold item_chunks. destruct (encode_scalar y) as [t|] eqn:E.
      * cbn [forallb]. rewrite encodable_str_app, Hbuf.
        rewrite (encode_scalar_encodable y t E Hvy Hoy). reflexivity.
      * cbn [forallb]. rewrite Hbuf. cbn [andb]. now apply Hy.
    + now apply IHl.
  - destruct d as [|[k x] d]; [reflexivity|].
    cbn [iterencode]. rewrite !forallb_app.
    assert (Hsep : encodable_str (44%N :: newline_indent (S level)) = true).
    { change (44%N :: newline_indent (S level))
        with ([44%N] ++ newline_indent (S level)).
      rewrite encodable_str_app, newline_indent_encodable. reflexivity. }
    apply andb_true_iff. split.
    { cbn [forallb]. rewrite newline_indent_encodable. reflexivity. }
    apply andb_true_iff. split.
    2: { cbn [forallb]. rewrite newline_indent_encodable. reflexivity. }
    cbn [encodable_json] in Hv. cbn [parsed_ok] in Hok.
    apply andb_true_iff in Hok as [_ Hok].
    assert (Hitems : forall d' first,
      Forall (fun kv => forall level,
                encodable_json (snd kv) = true ->
                parsed_ok (snd kv) = true ->
                forallb encodable_str (iterencode level (snd kv)) = true) d' ->
      forallb (fun kv => encodable_str (fst kv)
                         && encodable_json (snd kv))%bool d' = true ->
      forallb (fun kv => parsed_ok (snd kv)) d' = true ->
      forallb encodable_str
        (dict_chunks (iterencode (S level))
                     (44%N :: newline_indent (S level)) first d') = true);
      [|now apply Hitems].
    clear k x d IH Hv Hok.
    induction d' as [|[k y] d' IHd]; intros first IH Hv Hok; [reflexivity|].
    inversion IH as [|? ? Hy Hd]; subst. cbn [snd] in Hy.
    cbn [forallb fst snd] in Hv.
    apply andb_true_iff in Hv as [Hky Hvd].
    apply andb_true_iff in Hky as [Hk Hvy].
    cbn [forallb snd] in Hok. apply andb_true_iff in Hok as [Hoy Hod].
    cbn [dict_chunks]. rewrite !forallb_app.
    apply andb_true_iff. split.
    { destruct first; [reflexivity|]. cbn [forallb]. now rewrite Hsep. }
    apply andb_true_iff. split.
    { cbn [forallb]. rewrite (encode_basestring_encodable k Hk).
      reflexivity. }
    apply andb_true_iff. split.
    + unfold value_chunks. destruct (encode_scalar y) as [t|] eqn:E.
      * cbn [forallb]. rewrite (encode_scalar_encodable y t E Hvy Hoy).
        reflexivity.
      * now apply Hy.
    + now apply IHd.
Qed.

(** ** What the parser returns *)

Lemma str_eqb_sym (a b : str) : str_eqb a b = str_eqb b a.
Proof.
  destruct (str_eqb a b) eqn:E.
  - apply str_eqb_eq in E. subst. symmetry. apply str_eqb_refl.
  - symmetry. apply str_eqb_neq. apply str_eqb_neq in E. congruence.
Qed.

Lemma keys_distinct_snoc (ks : list str) (k : str) :
  keys_distinct ks = true -> existsb (str_eqb k) ks = false ->
  keys_distinct (ks ++ [k]) = true.
Proof.
  induction ks as [|k0 ks IH]; intros Hd Hk; [reflexivity|].
  cbn [keys_distinct app existsb] in *.
  apply andb_true_iff in Hd as [H0 Hd].
  apply orb_false_iff in Hk as [Hk0 Hk].
  rewrite existsb_app. cbn [existsb].
  rewrite (str_eqb_sym k0 k), Hk0, !orb_false_r, H0. cbn [andb].
  now apply IH.
Qed.

Lemma dict_set_keys (k : str) (v : json) (d : list (str * json)) :
  List.map fst (dict_set k v d)
  = if existsb (str_eqb k) (List.map fst d) then List.map fst d
    else List.map fst d ++ [k].
Proof.
  induction d as [|[k' v'] d IH]; [reflexivity|].
  cbn [dict_set List.map fst existsb].
  destruct (str_eqb k k') eqn:E; cbn [orb List.map fst].
  - reflexivity.
  - rewrite IH. now destruct (existsb (str_eqb k) (List.map fst d)).
Qed.

Lemma dict_set_distinct (k : str) (v : json) (d : list (str * json)) :
  keys_distinct (List.map fst d) = true ->
  keys_distinct (List.map fst (dict_set k v d)) = true.
Proof.
  intros H. rewrite dict_set_keys.
  destruct (existsb (str_eqb k) (List.map fst d)) eqn:E; [exact H|].
  now apply keys_distinct_snoc.
Qed.

Lemma dict_set_values (k : str) (v : json) (d : list (str * json)) :
  forallb (fun kv => parsed_ok (snd kv)) d = true ->
  parsed_ok v = true ->
  forallb (fun kv => parsed_ok (snd kv)) (dict_set k v d) = true.
Proof.
  intros Hd Hv. induction d as [|[k' v'] d IH]; cbn [dict_set forallb snd].
  - now rewrite Hv.
  - cbn [forallb snd] in Hd. apply andb_true_iff in Hd as [H1 H2].
    destruct (str_eqb k k'); cbn [forallb snd].
    + now rewrite Hv, H2.
    + now rewrite H1, IH.
Qed.

Lemma dict_of_pairs_keys (l : list (str * json)) :
  forallb (fun kv => parsed_ok (snd kv)) l = true ->
  parsed_ok (JDict (dict_of_pairs l)) = true.
Proof.
  unfold dict_of_pairs. cbn [parsed_ok].
  assert (H : forall l init,
    keys_distinct (List.map fst init) = true ->
    forallb (fun kv => parsed_ok (snd kv)) init = true ->
    forallb (fun kv => parsed_ok (snd kv)) l = true ->
    let d := fold_left (fun d kv => dict_set (fst kv) (snd kv) d) l init in
    (keys_distinct (List.map fst d)
     && forallb (fun kv => parsed_ok (snd kv)) d)%bool = true).
  { clear l. induction l as [|[k v] l IH]; intros init Hk Hv Hl.
    - cbn [fold_left]. now rewrite Hk, Hv.
    - cbn [fold_left fst snd]. cbn [forallb snd] in Hl.
      apply andb_true_iff in Hl as [Hlv Hl]. apply IH.
      + now apply dict_set_distinct.
      + now apply dict_set_values.
      + exact Hl. }
  intros Hl. now apply (H l []).
Qed.

Lemma forallb_rev {A} (p : A -> bool) (l : list A) :
  forallb p (rev l) = forallb p l.
Proof.
  induction l as [|x l IH]; [reflexivity|].
  cbn [rev forallb]. rewrite forallb_app, IH. cbn [forallb].
  rewrite andb_true_r. apply andb_comm.
Qed.

Lemma unorm_length (u : Decimal.uint) :
  (List.length (uint_str (Decimal.unorm u))
   <= Nat.max 1 (List.length (uint_str u)))%nat.
Proof.
  induction u;
    try (cbn [Decimal.unorm uint_str List.length];
         apply Nat.max_le_iff; right; apply Nat.le_refl).
  - cbn. lia.
  - change (Decimal.unorm (Decimal.D0 u)) with (Decimal.unorm u).
    etransitivity; [exact IHu|]. cbn [uint_str List.length].
    apply Nat.max_le_compat_l. apply Nat.le_succ_diag_r.
Qed.

(** What [float] makes of a literal is read back from its text. *)
Section Invariant.

Hypothesis float_reads_back : repr_round_trip.

(** The number that the parser reads is within the limit of [int], or a
    float that is read back from its text. *)
Lemma scan_number_parsed_ok (s : str) (v : json) (r : str) :
  scan_number s = inr (v, r) -> parsed_ok v = true.
Proof.
  unfold scan_number.
  destruct (number_parts s) as [[[[neg u] tail] r0]|] eqn:E; [|discriminate].
  destruct tail as [|c tail].
  - destruct (Nat.ltb_spec int_max_str_digits (List.length (uint_str u)))
      as [Hlong|Hshort]; [discriminate|].
    intros H. inversion H. subst. cbn [parsed_ok]. apply Nat.leb_le.
    replace (Z.abs_N (if neg then - Z.of_N (N.of_uint u)
                      else Z.of_N (N.of_uint u)))
      with (N.of_uint u) by (destruct neg; lia).
    rewrite DecimalN.Unsigned.to_of.
    pose proof (unorm_length u). unfold int_max_str_digits in *. lia.
  - intros H. inversion H. subst. apply float_reads_back.
    exact (number_parts_literal _ _ _ _ _ _ E).
Qed.

(** Every value that the parser builds is one that it reads back: the
    keys of its dicts are distinct, and so on. *)
Lemma scan_parsed_ok (fuel : nat) :
  (forall s v r, scan_once fuel s = inr (v, r) -> parsed_ok v = true)
  /\ (forall s acc v r,
        array_items fuel s acc = inr (v, r) ->
        forallb parsed_ok acc = true -> parsed_ok v = true)
  /\ (forall s acc v r,
        object_items fuel s acc = inr (v, r) ->
        forallb (fun kv => parsed_ok (snd kv)) acc = true ->
        parsed_ok v = true).
Proof.
  induction fuel as [|f (IHs & IHa & IHo)].
  - repeat split; intros; discriminate.
  - split; [|split].
    + intros s v r. cbn [scan_once].
      destruct s as [|c s']; [discriminate|].
      destruct (c =? 34)%N.
      { destruct (scanstring (List.length s') s') as [[t r']|];
          [|discriminate].
        intros H. inversion H. reflexivity. }
      destruct (c =? 123)%N.
      { destruct (skip_ws s') as [|c1 s2]; [discriminate|].
        destruct (c1 =? 125)%N; [intros H; inversion H; reflexivity|].
        destruct (c1 =? 34)%N; [|discriminate].
        intros H. now apply (IHo _ _ _ _ H). }
      destruct (c =? 91)%N.
      { destruct (skip_ws s') as [|c1 s2]; [discriminate|].
        destruct (c1 =? 93)%N; [intros H; inversion H; reflexivity|].
        intros H. now apply (IHa _ _ _ _ H). }
      destruct (strip_prefix (lit "null") (c :: s'));
        [intros H; inversion H; reflexivity|].
      destruct (strip_prefix (lit "true") (c :: s'));
        [intros H; inversion H; reflexivity|].
      destruct (strip_prefix (lit "false") (c :: s'));
        [intros H; inversion H; reflexivity|].
      destruct (strip_prefix (lit "NaN") (c :: s'));
        [intros H; inversion H; reflexivity|].
      destruct (strip_prefix (lit "Infinity") (c :: s'));
        [intros H; inversion H; reflexivity|].
      destruct (strip_prefix (lit "-Infinity") (c :: s'));
        [intros H; inversion H; reflexivity|].
      apply scan_number_parsed_ok.
    + intros s acc v r. cbn [array_items].
      destruct (scan_once f s) as [e|[v0 s1]] eqn:E; [discriminate|].
      apply IHs in E.
      destruct (skip_ws s1) as [|c s2]; [discriminate|].
      destruct (c =? 93)%N.
      { intros H Hacc. inversion H. subst.
        assert (Hall : forallb parsed_ok (rev (v0 :: acc)) = true)
          by (rewrite forallb_rev; cbn [forallb]; now rewrite E, Hacc).
        exact Hall. }
      destruct (c =? 44)%N; [|discriminate].
      intros H Hacc. apply (IHa _ _ _ _ H). cbn [forallb].
      now rewrite E, Hacc.
    + intros s acc v r. cbn [object_items].
      destruct (scanstring (List.length s) s) as [[k s1]|]; [|discriminate].
      destruct (skip_ws s1) as [|c s2]; [discriminate|].
      destruct (c =? 58)%N; [|discriminate].
      destruct (scan_once f (skip_ws s2)) as [e|[v0 s3]] eqn:E;
        [discriminate|].
      apply IHs in E.
      destruct (skip_ws s3) as [|c3 s4]; [discriminate|].
      destruct (c3 =? 125)%N.
      { intros H Hacc. inversion H. subst.
        apply (dict_of_pairs_keys (rev ((k, v0) :: acc))).
        rewrite forallb_rev. cbn [forallb snd]. now rewrite E, Hacc. }
      destruct (c3 =? 44)%N; [|discriminate].
      destruct (skip_ws s4) as [|c5 s6]; [discriminate|].
      destruct (c5 =? 34)%N; [|discriminate].
      intros H Hacc. apply (IHo _ _ _ _ H). cbn [forallb snd].
      now rewrite E, Hacc.
Qed.

Lemma json_loads_parsed_ok (text : str) (v : json) :
  json_loads text = inr v -> parsed_ok v = true.
Proof.
  unfold json_loads. destruct (has_bom text); [discriminate|].
  destruct (scan_once (S (List.length text)) (skip_ws text))
    as [e|[v0 r]] eqn:E; [discriminate|].
  destruct (skip_ws r); [|discriminate].
  intros H. inversion H. subst.
  now apply (proj1 (scan_parsed_ok _) _ _ _ E).
Qed.

End Invariant.

(** C6 (amended). When the download of a year answers, with a status
    that is neither a 4xx nor a 5xx, a JSON object that is nested within
    the limit and whose strings can all be encoded in UTF-8, and the cache
    file can be opened for writing, [_fetch_and_cache] returns that object,
    and loading the file it wrote yields the value under [days] of the
    object, or the empty list when the object has no such key. The floats
    of the object are read back from their [repr]. *)
Theorem C6_cache_round_trip (w : world) (st : state) (year : Z) (path : str)
        (status : Z) (body : str) (d : list (str * json)) :
  repr_round_trip ->
  w_get w year = Response status body ->
  status < 400 \/ 600 <= status ->
  json_loads body = inr (JDict d) ->
  (json_depth (JDict d) <= nesting_limit)%nat ->
  encodable_json (JDict d) = true ->
  w_can_write w path = true ->
  let r := _fetch_and_cache w year path st in
  fst r = inr (JDict d)
  /\ fst (_load_cache path (snd r))
     = inr match dict_get (lit "days") d with
           | Some days => days
           | None => JList []
           end.
Proof.
  intros Hfloat Hget Hstatus Hbody _ Henc Hwrite.
  pose proof (json_loads_parsed_ok Hfloat body (JDict d) Hbody) as Hkeys.
  pose proof (json_loads_dumps (JDict d) Hkeys) as Hround.
  pose proof (iterencode_encodable (JDict d) 0 Henc Hkeys) as Hchunks.
  assert (Hok : ((400 <=? status) && (status <? 600))%bool = false).
  { apply andb_false_iff. destruct Hstatus; [left | right].
    - apply Z.leb_gt. lia.
    - apply Z.ltb_ge. lia. }
  assert (E : _fetch_and_cache w year path st
              = (inr (JDict d),
                 mkState (file_put path (Some (json_dumps (JDict d)))
                                   (st_files st))
                         (st_requests st ++ [year])
                         (st_log st ++ [LogDownloaded year]))).
  { destruct st as [fs rq lg].
    cbv [_fetch_and_cache try_except bind note_request raise_for_status
         dump_to_file get_files set_files raise ret log
         st_files st_requests st_log].
    rewrite Hget, Hok, Hbody, Hwrite, Hchunks. reflexivity. }
  cbv zeta. rewrite E. cbn [fst snd]. split; [reflexivity|].
  cbv [_load_cache try_except bind load_file get_files lift raise ret log
       st_files st_requests st_log get_days].
  rewrite file_lookup_put_same, Hround.
  destruct (dict_get (lit "days") d); reflexivity.
Qed.
End Claims.

(** * Further properties *)

Section More.

Variable decimal : char -> option N.

Context {py : Python}.

Hypothesis decimal_ascii :
  forall c, (c < 128)%N -> decimal c = ascii_digit c.

(** ** Reading the cache *)

Lemma load_cache_eq (path : str) (st : state) :
  exists lg,
    _load_cache path st
    = (inr (cached_value (st_files st) path),
       mkState (st_files st) (st_requests st) (st_log st ++ lg))
    /\ (lg = []
        \/ exists e, lg = [LogReadFailed path e]
                     /\ cached_value (st_files st) path = JList []).
Proof.
  destruct st as [fs rq lg].
  cbv [_load_cache try_except bind load_file get_files lift raise ret log
       st_files st_requests st_log cached_value].
  destruct (file_lookup path fs) as [[text|]|].
  1: destruct (json_loads text) as [e0|v].
  2: destruct (get_days v) as [e|x].
  3: { exists []. rewrite List.app_nil_r. split; [reflexivity | now left]. }
  all: eexists [_]; split; [reflexivity | right; eauto].
Qed.

(** X1. [_load_cache] never raises and changes neither the directory nor
    the requests made; it logs one record of a read failure, and then
    returns the empty list, or it logs nothing. *)
Theorem load_cache_never_raises (path : str) (st : state) :
  exists v lg,
    _load_cache path st
    = (inr v, mkState (st_files st) (st_requests st) (st_log st ++ lg))
    /\ (lg = [] \/ exists e, lg = [LogReadFailed path e] /\ v = JList []).
Proof.
  destruct (load_cache_eq path st) as (lg & E & H).
  exists (cached_value (st_files st) path), lg. split; assumption.
Qed.

(** X2. [_fetch_and_cache] makes exactly one request and logs exactly one
    record, the download when it returns and the failure with the error it
    raises otherwise; no entry of the directory other than [cache_path] is
    changed. *)
Theorem fetch_and_cache_effects (w : world) (year : Z) (cache_path : str)
        (st : state) :
  exists r fs',
    _fetch_and_cache w year cache_path st
    = (r, mkState fs' (st_requests st ++ [year])
                  (st_log st
                   ++ [match r with
                       | inr _ => LogDownloaded year
                       | inl e => LogDownloadFailed year e
                       end]))
    /\ forall n, n <> cache_path ->
                 file_lookup n fs' = file_lookup n (st_files st).
Proof.
  destruct st as [fs rq lg].
  cbv [_fetch_and_cache try_except bind note_request raise_for_status
       dump_to_file get_files set_files raise ret log
       st_files st_requests st_log].
  destruct (w_get w year) as [|status body].
  { eexists (inl _), _. split; [reflexivity | reflexivity]. }
  destruct ((400 <=? status) && (status <? 600))%bool.
  { eexists (inl _), _. split; [reflexivity | reflexivity]. }
  destruct (json_loads body) as [e0|data].
  { eexists (inl _), _. split; [reflexivity | reflexivity]. }
  destruct (w_can_write w cache_path).
  2: { eexists (inl _), _. split; [reflexivity | reflexivity]. }
  destruct (forallb encodable_str (iterencode 0 data)).
  - eexists (inr _), _. split; [reflexivity|].
    intros n Hn. now apply file_lookup_put_other.
  - eexists (inl _), _. split; [reflexivity|].
    intros n Hn. now apply file_lookup_put_other.
Qed.

(** X3. A body that is a JSON document but not an object is cached as it
    is: the turn of the loop for that year writes the file, reads it back,
    logs that reading it failed, and goes on with no record added. The
    document is nested within the limit, and its floats are read back from
    their [repr]. *)
Theorem non_object_body_is_cached (w : world) (st : state) (year : Z)
        (data : list json) (status : Z) (body : str) (v : json) :
  repr_round_trip ->
  file_exists (cache_name year) (st_files st) = false ->
  w_get w year = Response status body ->
  status < 400 \/ 600 <= status ->
  json_loads body = inr v ->
  (forall d, v <> JDict d) ->
  (json_depth v <= nesting_limit)%nat ->
  encodable_json v = true ->
  w_can_write w (cache_name year) = true ->
  load_year w data year st
  = (inr data,
     mkState (file_put (cache_name year) (Some (json_dumps v)) (st_files st))
             (st_requests st ++ [year])
             (st_log st ++ [LogDownloaded year;
                            LogReadFailed (cache_name year) AttributeError])).
Proof.
  intros Hfloat Hmiss Hget Hstatus Hbody Hobj _ Henc Hwrite.
  pose proof (json_loads_parsed_ok Hfloat body v Hbody) as Hkeys.
  pose proof (json_loads_dumps v Hkeys) as Hround.
  pose proof (iterencode_encodable v 0 Henc Hkeys) as Hchunks.
  assert (Hok : ((400 <=? status) && (status <? 600))%bool = false).
  { apply andb_false_iff. destruct Hstatus; [left | right].
    - apply Z.leb_gt. lia.
    - apply Z.ltb_ge. lia. }
  destruct st as [fs rq lg]. simpl in Hmiss.
  cbv [load_year _fetch_and_cache _load_cache load_file try_except bind
       note_request raise_for_status dump_to_file get_files set_files raise
       ret log lift st_files st_requests st_log].
  rewrite Hmiss. cbn [negb].
  rewrite Hget, Hok, Hbody, Hwrite, Hchunks.
  rewrite file_lookup_put_same.
  change (List.concat (iterencode 0 v)) with (json_dumps v).
  rewrite Hround.
  assert (Hdays : get_days v = inl AttributeError).
  { destruct v; try reflexivity. now destruct (Hobj d). }
  rewrite Hdays. cbn [py_iter]. rewrite List.app_nil_r, <- List.app_assoc.
  reflexivity.
Qed.

(** ** Text that cannot be written *)

Lemma encodable_str_concat (chunks : list str) :
  forallb encodable_str chunks = encodable_str (List.concat chunks).
Proof.
  induction chunks as [|c chunks IH]; simpl; [reflexivity|].
  unfold encodable_str in *. now rewrite forallb_app, IH.
Qed.

Lemma encodable_str_flat_map {A} (f : A -> str) (l : list A) :
  encodable_str (flat_map f l) = forallb (fun x => encodable_str (f x)) l.
Proof.
  induction l as [|x l IH]; simpl; [reflexivity|].
  unfold encodable_str in *. now rewrite forallb_app, IH.
Qed.

Lemma escape_char_keeps (c : char) :
  encodable_str (escape_char c) = true -> encodable c = true.
Proof.
  unfold escape_char.
  destruct (N.eqb_spec c 92); [subst; reflexivity|].
  destruct (N.eqb_spec c 34); [subst; reflexivity|].
  destruct (N.eqb_spec c 8); [subst; reflexivity|].
  destruct (N.eqb_spec c 12); [subst; reflexivity|].
  destruct (N.eqb_spec c 10); [subst; reflexivity|].
  destruct (N.eqb_spec c 13); [subst; reflexivity|].
  destruct (N.eqb_spec c 9); [subst; reflexivity|].
  destruct (N.ltb_spec c 32) as [Hlt|Hge].
  - intros _. unfold encodable, in_range.
    apply negb_true_iff, andb_false_iff. left. apply N.leb_gt. lia.
  - simpl. now rewrite andb_true_r.
Qed.

Lemma encode_basestring_keeps (s : str) :
  encodable_str (encode_basestring s) = true -> encodable_str s = true.
Proof.
  unfold encode_basestring. intros H.
  change (34%N :: flat_map escape_char s ++ [34%N])
    with ([34%N] ++ flat_map escape_char s ++ [34%N]) in H.
  unfold encodable_str in H. rewrite !forallb_app in H.
  apply andb_true_iff in H as [_ H]. apply andb_true_iff in H as [H _].
  fold (encodable_str (flat_map escape_char s)) in H.
  rewrite encodable_str_flat_map in H.
  unfold encodable_str. rewrite forallb_forall in *.
  intros c Hc. apply escape_char_keeps. now apply H.
Qed.

(** A text that can be written comes from a value whose strings can. *)
Lemma json_text_keeps (v : json) :
  forall level,
    encodable_str (json_text level v) = true -> encodable_json v = true.
Proof.
  induction v as [| | | | |l IH|d IH] using json_induction; intros level H;
    try reflexivity.
  - now apply encode_basestring_keeps.
  - destruct l as [|x l]; [reflexivity|].
    cbn [json_text] in H.
    change (91%N :: ?a) with ([91%N] ++ a) in H.
    unfold encodable_str in H. rewrite !forallb_app in H.
    repeat (apply andb_true_iff in H as [? H]).
    cbn [encodable_json forallb]. inversion IH as [|? ? Hx Hl]; subst.
    apply andb_true_iff. split; [now apply (Hx (S level))|].
    match goal with
    | Hf : forallb encodable (flat_map _ l) = true |- _ =>
        fold (encodable_str (flat_map
                (fun y => 44%N :: newline_indent (S level)
                          ++ json_text (S level) y) l)) in Hf;
        rewrite encodable_str_flat_map in Hf; rename Hf into Hrest
    end.
    rewrite forallb_forall in *. intros y Hy.
    rewrite Forall_forall in Hl. apply (Hl y Hy (S level)).
    specialize (Hrest y Hy).
    change (44%N :: ?a) with ([44%N] ++ a) in Hrest.
    unfold encodable_str in Hrest. rewrite !forallb_app in Hrest.
    repeat (apply andb_true_iff in Hrest as [? Hrest]). exact Hrest.
  - destruct d as [|[k x] d]; [reflexivity|].
    cbn [json_text] in H.
    change (123%N :: ?a) with ([123%N] ++ a) in H.
    unfold encodable_str in H. rewrite !forallb_app in H.
    repeat (apply andb_true_iff in H as [? H]).
    cbn [encodable_json forallb fst snd]. inversion IH as [|? ? Hx Hl]; subst.
    simpl in Hx.
    apply andb_true_iff. split.
    { apply andb_true_iff. split.
      - now apply encode_basestring_keeps.
      - now apply (Hx (S level)). }
    match goal with
    | Hf : forallb encodable (flat_map _ d) = true |- _ =>
        fold (encodable_str (flat_map
                (fun kv : str * json =>
                   44%N :: newline_indent (S level)
                   ++ encode_basestring (fst kv) ++ lit ": "
                   ++ json_text (S level) (snd kv)) d)) in Hf;
        rewrite encodable_str_flat_map in Hf; rename Hf into Hrest
    end.
    rewrite forallb_forall in *. intros [k' y] Hy.
    rewrite Forall_forall in Hl. specialize (Hl (k', y) Hy). simpl in Hl.
    specialize (Hrest (k', y) Hy). cbn [fst snd] in *.
    change (44%N :: ?a) with ([44%N] ++ a) in Hrest.
    unfold encodable_str in Hrest. rewrite !forallb_app in Hrest.
    repeat (apply andb_true_iff in Hrest as [? Hrest]).
    apply andb_true_iff. split.
    + now apply encode_basestring_keeps.
    + now apply (Hl (S level)).
Qed.

Lemma iterencode_unencodable (v : json) :
  encodable_json v = false ->
  forallb encodable_str (iterencode 0 v) = false.
Proof.
  intros H. rewrite encodable_str_concat, iterencode_concat.
  destruct (encodable_str (json_text 0 v)) eqn:E; [|reflexivity].
  apply json_text_keeps in E. congruence.
Qed.

(** When a chunk cannot be written, what is on disk is the document
    without a part of its end. *)
Lemma written_chunks_prefix (chunks : list str) :
  forallb encodable_str chunks = false ->
  exists rest,
    rest <> [] /\ List.concat chunks = written_chunks chunks ++ rest.
Proof.
  induction chunks as [|c chunks IH]; simpl; [discriminate|].
  destruct (encodable_str c) eqn:E; simpl.
  - intros H. destruct (IH H) as (rest & Hne & Hrest).
    exists rest. split; [exact Hne|]. now rewrite Hrest, List.app_assoc.
  - intros _. exists (c ++ List.concat chunks). split; [|reflexivity].
    destruct c; [discriminate E | discriminate].
Qed.

(** X4. A document with a string that UTF-8 cannot encode is never cached
    whole: the download raises UnicodeEncodeError while writing and leaves
    a file that holds the document less a part of its end; as the file now
    exists, no later refresh requests that year again. The document is
    nested within the limit. *)
Theorem unencodable_document_blocks_year (w : world) (st : state) (year : Z)
        (status : Z) (body : str) (v : json) :
  w_get w year = Response status body ->
  status < 400 \/ 600 <= status ->
  json_loads body = inr v ->
  (json_depth v <= nesting_limit)%nat ->
  encodable_json v = false ->
  w_can_write w (cache_name year) = true ->
  exists t rest,
    rest <> [] /\ json_dumps v = t ++ rest
    /\ _fetch_and_cache w year (cache_name year) st
       = (inl UnicodeEncodeError,
          mkState (file_put (cache_name year) (Some t) (st_files st))
                  (st_requests st ++ [year])
                  (st_log st ++ [LogDownloadFailed year UnicodeEncodeError]))
    /\ forall self' w' lg,
         exists rq,
           st_requests
             (snd (run decimal self' w'
                       (mkState (file_put (cache_name year) (Some t)
                                          (st_files st))
                                (st_requests st ++ [year]) lg)))
           = (st_requests st ++ [year]) ++ rq
           /\ ~ In year rq.
Proof.
  intros Hget Hstatus Hbody _ Henc Hwrite.
  pose proof (iterencode_unencodable v Henc) as Hchunks.
  destruct (written_chunks_prefix _ Hchunks) as (rest & Hne & Hrest).
  assert (Hok : ((400 <=? status) && (status <? 600))%bool = false).
  { apply andb_false_iff. destruct Hstatus; [left | right].
    - apply Z.leb_gt. lia.
    - apply Z.ltb_ge. lia. }
  exists (written_chunks (iterencode 0 v)), rest.
  split; [exact Hne|]. split; [exact Hrest|]. split.
  - destruct st as [fs rq lg].
    cbv [_fetch_and_cache try_except bind note_request raise_for_status
         dump_to_file get_files set_files raise ret log
         st_files st_requests st_log].
    rewrite Hget, Hok, Hbody, Hwrite, Hchunks. reflexivity.
  - intros self' w' lg.
    match goal with
    | |- context [run decimal self' w' ?s] =>
        destruct (run_requests decimal self' w' s) as (rq & R & F)
    end.
    exists rq. split; [exact R|]. intros Hin.
    destruct (F year Hin) as [_ Hmiss]. simpl in Hmiss.
    rewrite file_exists_put, str_eqb_refl in Hmiss. discriminate.
Qed.

(** ** The cleanup *)

Lemma sweep_all_names (self : HolidayFetcher) (fs : files) :
  sweep decimal self (List.map fst fs) fs
  = filter (fun e => negb (stale decimal self (fst e))) fs.
Proof.
  unfold sweep. apply filter_ext_in. intros [n c] Hin. cbn [fst].
  rewrite file_exists_names.
  replace (file_exists n fs) with true; [now rewrite andb_true_r|].
  symmetry. apply file_exists_In. apply in_map_iff. now exists (n, c).
Qed.

(** The cleanup loop with its log, when every stale name can be removed. *)
Lemma cleanup_loop_log (self : HolidayFetcher) (w : world) (l : list str)
      (st : state) :
  (forall n, In n l -> stale decimal self n = true ->
             w_can_remove w n = true) ->
  for_each l (cleanup_file decimal self w) st
  = (inr tt, mkState (sweep decimal self l (st_files st)) (st_requests st)
                     (st_log st
                      ++ List.map LogCleaned (filter (stale decimal self) l))).
Proof.
  revert st. induction l as [|x l IH]; intros st Hrm; simpl.
  - rewrite List.app_nil_r, sweep_nil. now destruct st.
  - unfold bind. rewrite cleanup_file_eq.
    destruct (stale decimal self x) eqn:Hx.
    + rewrite (Hrm x (or_introl eq_refl) Hx).
      rewrite IH by (intros n Hn; apply Hrm; now right).
      simpl. rewrite file_remove_sweep by exact Hx.
      now rewrite <- List.app_assoc.
    + rewrite IH by (intros n Hn; apply Hrm; now right).
      now rewrite sweep_skip by exact Hx.
Qed.

(** X5. When every stale file can be removed, [_cleanup_old_cache]
    returns, the directory is left with exactly the entries that are not
    stale, in their order and with their content, and the log gains one
    record for each stale name, in the order of the listing. *)
Theorem cleanup_removes_exactly_stale (self : HolidayFetcher) (w : world)
        (st : state) :
  (forall n, file_exists n (st_files st) = true ->
             stale decimal self n = true -> w_can_remove w n = true) ->
  _cleanup_old_cache decimal self w st
  = (inr tt,
     mkState (filter (fun e => negb (stale decimal self (fst e))) (st_files st))
             (st_requests st)
             (st_log st
              ++ List.map LogCleaned
                   (filter (stale decimal self) (List.map fst (st_files st))))).
Proof.
  intros Hrm. unfold _cleanup_old_cache, bind, get_files.
  rewrite cleanup_loop_log.
  - now rewrite sweep_all_names.
  - intros n Hn. apply Hrm. now apply file_exists_In.
Qed.

Lemma cleanup_nothing_stale (self : HolidayFetcher) (w : world) (st : state) :
  (forall n, In n (List.map fst (st_files st)) ->
             stale decimal self n = false) ->
  _cleanup_old_cache decimal self w st = (inr tt, st).
Proof.
  intros Hno. unfold _cleanup_old_cache, bind, get_files.
  rewrite cleanup_loop_log.
  - rewrite sweep_all_names.
    replace (filter (stale decimal self) (List.map fst (st_files st)))
      with (@nil str).
    + simpl. rewrite List.app_nil_r.
      replace (filter (fun e => negb (stale decimal self (fst e)))
                      (st_files st)) with (st_files st); [now destruct st|].
      symmetry. apply forallb_filter_id. apply forallb_forall.
      intros e He. apply negb_true_iff. apply Hno. now apply in_map.
    + symmetry. induction (List.map fst (st_files st)) as [|n l IH];
        [reflexivity|].
      simpl. rewrite (Hno n (or_introl eq_refl)).
      apply IH. intros m Hm. apply Hno. now right.
  - intros n Hn Hs. rewrite (Hno n Hn) in Hs. discriminate.
Qed.

Lemma swept_not_stale (self : HolidayFetcher) (fs : files) (n : str) :
  In n (List.map fst (sweep decimal self (List.map fst fs) fs)) ->
  stale decimal self n = false.
Proof.
  intros Hin. apply file_exists_In in Hin.
  rewrite sweep_exists, file_exists_names in Hin.
  apply andb_true_iff in Hin as [Hex Hkeep].
  rewrite Hex, andb_true_r in Hkeep. now apply negb_true_iff in Hkeep.
Qed.

(** X6. A cleanup that has returned has nothing left to do: run again on
    the state it left, [_cleanup_old_cache] returns without removing or
    logging anything. *)
Theorem cleanup_twice (self : HolidayFetcher) (w : world) (st st1 : state) :
  _cleanup_old_cache decimal self w st = (inr tt, st1) ->
  _cleanup_old_cache decimal self w st1 = (inr tt, st1).
Proof.
  intros E.
  destruct (cleanup_spec decimal self w st)
    as [[lg E1]|(l1 & x & l2 & lg & _ & _ & _ & _ & E1)];
    rewrite E1 in E; [|discriminate].
  inversion E as [Hst]. apply cleanup_nothing_stale. simpl.
  intros n Hn. now apply swept_not_stale in Hn.
Qed.

(** ** The scan *)

(** The whole days from [now] to a midnight: the days between the two
    dates, less one when [now] is past midnight. *)
Lemma sub_days_calendar (d now : datetime) :
  at_midnight d = true -> valid_datetime now = true ->
  sub_days d now
  = toordinal d - toordinal now - (if at_midnight now then 0 else 1).
Proof.
  intros Hd Hnow.
  apply valid_datetime_fields in Hnow as (_ & _ & _ & Hh & Hm & Hs & Hu).
  unfold at_midnight in *. rewrite !andb_true_iff, !Z.eqb_eq in Hd.
  destruct Hd as [[[H0 H1] H2] H3].
  unfold sub_days, timedelta_days, dt_seconds. cbv zeta.
  rewrite H0, H1, H2, H3.
  destruct (Z.eqb_spec (dt_hour now) 0) as [Eh|Eh];
    destruct (Z.eqb_spec (dt_minute now) 0) as [Em|Em];
    destruct (Z.eqb_spec (dt_second now) 0) as [Es|Es];
    destruct (Z.eqb_spec (dt_microsecond now) 0) as [Eu|Eu];
    cbn [andb]; Z.div_mod_to_equations; lia.
Qed.

Lemma scan_day_from (now : datetime) (nearest : option Holiday) (day : json)
      (h : Holiday) :
  scan_day decimal now nearest day = inr (Some h) ->
  nearest = Some h \/ scanned_from decimal now h.
Proof.
  unfold scan_day.
  destruct (subscript day (lit "date")) as [?|dv]; [discriminate|].
  destruct (strptime decimal dv) as [?|d] eqn:Ed; [discriminate|].
  destruct (dt_ge d now) eqn:Hge; [|intros H; left; congruence].
  destruct (subscript day (lit "isOffDay")) as [?|off]; [discriminate|].
  destruct (truthy off); [|intros H; left; congruence].
  destruct (match nearest with
            | Some n => sub_days d now <? days_left n
            | None => true
            end); [|intros H; left; congruence].
  destruct (subscript day (lit "name")) as [?|nm]; [discriminate|].
  intros H. inversion H. right. exists d. simpl. auto.
Qed.

Lemma scan_from (now : datetime) (data : list json) (acc : option Holiday)
      (h : Holiday) :
  (forall n, acc = Some n -> scanned_from decimal now n) ->
  scan decimal now data acc = inr (Some h) ->
  scanned_from decimal now h.
Proof.
  revert acc. induction data as [|x data IH]; intros acc Hacc; simpl.
  - intros H. inversion H. now apply Hacc.
  - destruct (scan_day decimal now acc x) as [?|acc'] eqn:E; [discriminate|].
    apply IH. intros n ->.
    destruct (scan_day_from now acc x n E) as [->|H];
      [now apply Hacc | exact H].
Qed.

Lemma run_emits_scanned (self : HolidayFetcher) (w : world) (st : state)
      (h : Holiday) :
  fst (run decimal self w st) = data_ready (Some h) ->
  scanned_from decimal (w_now w) h.
Proof.
  unfold run, run_body, bind.
  destruct (foldM (load_year w) (required_years self) [] st) as [[e|data] st1];
    [discriminate|].
  destruct (_cleanup_old_cache decimal self w st1) as [[e|[]] st2];
    [discriminate|].
  unfold lift.
  destruct (scan decimal (w_now w) data None) as [e|r] eqn:E;
    [discriminate|].
  simpl. intros H. inversion H. subst r.
  apply (scan_from (w_now w) data None h); [discriminate | exact E].
Qed.

(** X7. The [date] of an emitted holiday is read by [strptime] as a day
    that is not before [now], and its [days_left] is the number of
    calendar days from today to that day, less one unless [now] is
    midnight to the microsecond. *)
Theorem run_days_left_calendar (self : HolidayFetcher) (w : world)
        (st : state) (h : Holiday) :
  valid_datetime (w_now w) = true ->
  fst (run decimal self w st) = data_ready (Some h) ->
  exists d,
    strptime decimal (date h) = inr d
    /\ dt_ge d (w_now w) = true
    /\ days_left h
       = toordinal d - toordinal (w_now w)
         - (if at_midnight (w_now w) then 0 else 1).
Proof.
  intros Hnow Hrun.
  destruct (run_emits_scanned self w st h Hrun) as (d & Ed & Hge & Hleft).
  exists d. split; [exact Ed|]. split; [exact Hge|].
  rewrite Hleft. apply sub_days_calendar; [|exact Hnow].
  now apply (strptime_valid decimal (date h) d).
Qed.

(** A well-formed record never makes the scan fail. *)
Lemma scan_day_well_formed (now : datetime) (nearest : option Holiday)
      (day : json) :
  holiday_record decimal day <> None ->
  exists r, scan_day decimal now nearest day = inr r.
Proof.
  unfold holiday_record, scan_day.
  destruct (subscript day (lit "name")) as [?|nm]; [congruence|].
  destruct (subscript day (lit "date")) as [?|dv]; [congruence|].
  destruct (subscript day (lit "isOffDay")) as [?|off]; [congruence|].
  destruct off as [|off| | | | |]; try congruence.
  destruct (strptime decimal dv) as [?|d]; [congruence|]. intros _.
  destruct (dt_ge d now); [|eauto].
  destruct (truthy (JBool off)); [|eauto].
  destruct (match nearest with
            | Some n => sub_days d now <? days_left n
            | None => true
            end); eauto.
Qed.

Lemma scan_well_formed (now : datetime) (data : list json)
      (acc : option Holiday) :
  (forall day, In day data -> holiday_record decimal day <> None) ->
  exists r, scan decimal now data acc = inr r.
Proof.
  revert acc. induction data as [|x data IH]; intros acc Hwf; simpl; [eauto|].
  destruct (scan_day_well_formed now acc x) as [r E];
    [apply Hwf; now left|].
  rewrite E. apply IH. intros day Hd. apply Hwf. now right.
Qed.

Lemma scan_day_date_error (now : datetime) (nearest : option Holiday)
      (day : json) (e : exn) :
  date_error decimal day = Some e ->
  scan_day decimal now nearest day = inl e.
Proof.
  unfold date_error, scan_day.
  destruct (subscript day (lit "date")) as [e'|dv]; [congruence|].
  destruct (strptime decimal dv) as [e'|d]; [congruence | discriminate].
Qed.

(** X8. The date of a record is read before anything else of it is looked
    at: a record from which no date can be read (not an object, no key
    [date], a date that is not a string or not in the form of the format),
    coming after well-formed records, makes the refresh report that error,
    whatever else the record holds and whatever follows it; the report
    comes after the cache was filled and cleaned. *)
Theorem run_bad_date_fails_after_cleanup (self : HolidayFetcher) (w : world)
        (st st1 st2 : state) (l1 l2 : list json) (day : json) (e : exn) :
  foldM (load_year w) (required_years self) [] st
  = (inr (l1 ++ day :: l2), st1) ->
  _cleanup_old_cache decimal self w st1 = (inr tt, st2) ->
  (forall x, In x l1 -> holiday_record decimal x <> None) ->
  date_error decimal day = Some e ->
  run decimal self w st = (fetch_failed e, st2).
Proof.
  intros E1 E2 Hwf Herr.
  rewrite (run_scanned decimal self w _ _ _ _ E1 E2).
  rewrite scan_app.
  destruct (scan_well_formed (w_now w) l1 None Hwf) as [r Er].
  rewrite Er. cbn [scan].
  now rewrite (scan_day_date_error (w_now w) r day e Herr).
Qed.

(** ** One refresh after another *)

Lemma cached_days_lookup (fs fs' : files) (path : str) :
  file_lookup path fs' = file_lookup path fs ->
  cached_days fs' path = cached_days fs path.
Proof. unfold cached_days, cached_value. now intros ->. Qed.

(** The turn of the loop for a year whose cache file exists. *)
Lemma load_year_cached (w : world) (data : list json) (y : Z) (st : state) :
  file_exists (cache_name y) (st_files st) = true ->
  exists lg,
    load_year w data y st
    = (match cached_days (st_files st) (cache_name y) with
       | inr more => inr (data ++ more)
       | inl e => inl e
       end,
       mkState (st_files st) (st_requests st) (st_log st ++ lg)).
Proof.
  intros Hex. destruct (load_cache_eq (cache_name y) st) as (lg & E & _).
  exists lg. unfold load_year, bind, get_files. rewrite Hex. cbn [negb].
  unfold ret at 1. rewrite E. unfold cached_days, lift.
  destruct (py_iter (cached_value (st_files st) (cache_name y)));
    reflexivity.
Qed.

(** A turn of the loop that ends normally has appended what the cache
    file of the year holds at its end. *)
Lemma load_year_result (w : world) (data : list json) (y : Z)
      (st : state) (data' : list json) (st' : state) :
  load_year w data y st = (inr data', st') ->
  exists more,
    data' = data ++ more
    /\ cached_days (st_files st') (cache_name y) = inr more
    /\ file_exists (cache_name y) (st_files st') = true.
Proof.
  intros H.
  assert (Hex' : file_exists (cache_name y) (st_files st') = true).
  { destruct (load_year_spec w [y] data y st (or_introl eq_refl))
      as (r & s & E & _ & Hex & _).
    rewrite H in E. inversion E. subst. now apply (Hex data'). }
  destruct (file_exists (cache_name y) (st_files st)) eqn:Hex.
  - destruct (load_year_cached w data y st Hex) as (lg & E).
    rewrite E in H.
    destruct (cached_days (st_files st) (cache_name y)) as [e|more] eqn:Ec;
      [discriminate|].
    inversion H. subst. exists more. simpl. auto.
  - unfold load_year, bind, get_files in H. rewrite Hex in H. cbn [negb] in H.
    destruct (_fetch_and_cache w y (cache_name y) st) as [[e|v] sa];
      [discriminate|].
    unfold ret at 1 in H.
    destruct (load_cache_eq (cache_name y) sa) as (lg & E & _).
    rewrite E in H. unfold lift in H.
    destruct (py_iter (cached_value (st_files sa) (cache_name y)))
      as [e|more] eqn:Ec; [discriminate|].
    unfold ret in H. inversion H. subst. exists more. simpl in *. auto.
Qed.

Lemma load_years_result (w : world) (l : list Z) :
  forall (data : list json) (st : state) (data' : list json) (st' : state),
    foldM (load_year w) l data st = (inr data', st') ->
    exists mores,
      data' = data ++ List.concat mores
      /\ Forall2 (fun y more =>
                    cached_days (st_files st') (cache_name y) = inr more)
                 l mores
      /\ forall y, In y l ->
                   file_exists (cache_name y) (st_files st') = true.
Proof.
  induction l as [|y l IH]; intros data st data' st' H.
  - inversion H. subst. exists []. simpl. rewrite List.app_nil_r.
    split; [reflexivity|]. split; [constructor | intros ? []].
  - cbn [foldM] in H. unfold bind in H.
    destruct (load_year w data y st) as [[e|d1] s1] eqn:E1; [discriminate|].
    destruct (load_year_result w data y st d1 s1 E1) as (more & -> & Hc & Hex).
    destruct (IH _ _ _ _ H) as (mores & -> & Hall & Hexs).
    destruct (load_years_spec w l l (data ++ more) s1 (incl_refl l))
      as (r & s & E & [P _] & _).
    rewrite H in E. inversion E. subst r s.
    exists (more :: mores). simpl. rewrite List.app_assoc.
    split; [reflexivity|]. split.
    + constructor; [|exact Hall].
      rewrite (cached_days_lookup (st_files s1)); [exact Hc|].
      now apply P.
    + intros z [<-|Hz]; [|now apply Hexs].
      eapply preserved_exists; eassumption.
Qed.

Lemma load_years_cached (w : world) (fs : files) (l : list Z)
      (mores : list (list json)) :
  Forall2 (fun y more => cached_days fs (cache_name y) = inr more) l mores ->
  (forall y, In y l -> file_exists (cache_name y) fs = true) ->
  forall (data : list json) (rq : list Z) (lg0 : list log_record),
  exists lg,
    foldM (load_year w) l data (mkState fs rq lg0)
    = (inr (data ++ List.concat mores), mkState fs rq (lg0 ++ lg)).
Proof.
  induction 1 as [|y more l mores Hy Hall IH]; intros Hex data rq lg0.
  - exists []. simpl. unfold ret. now rewrite !List.app_nil_r.
  - cbn [foldM]. unfold bind.
    destruct (load_year_cached w data y (mkState fs rq lg0)
                (Hex y (or_introl eq_refl))) as (lg1 & E1).
    rewrite E1. cbn [st_files st_requests st_log]. rewrite Hy.
    destruct (IH (fun z Hz => Hex z (or_intror Hz)) (data ++ more) rq
                 (lg0 ++ lg1)) as (lg2 & E2).
    rewrite E2. exists (lg1 ++ lg2). simpl.
    now rewrite !List.app_assoc.
Qed.

Lemma Forall2_impl_In {A B} (P Q : A -> B -> Prop) (l : list A)
      (l' : list B) :
  Forall2 P l l' ->
  (forall x y, In x l -> P x y -> Q x y) ->
  Forall2 Q l l'.
Proof.
  induction 1 as [|x y l l' Hxy Hall IH]; intros Himp; constructor.
  - apply Himp; [now left | exact Hxy].
  - apply IH. intros a b Ha. apply Himp. now right.
Qed.

(** X9. A refresh that follows a refresh that emitted its result, with
    the clock and the required years unchanged, emits the same result
    without a request and without a change to the directory. *)
Theorem refresh_twice (today : datetime) (w : world) (st st1 : state)
        (nearest : option Holiday) :
  valid_datetime today = true ->
  run decimal (init today) w st = (data_ready nearest, st1) ->
  exists lg,
    run decimal (init today) w st1
    = (data_ready nearest,
       mkState (st_files st1) (st_requests st1) (st_log st1 ++ lg)).
Proof.
  intros Hvalid Hrun. apply valid_year in Hvalid.
  set (self := init today) in *.
  destruct (foldM (load_year w) (required_years self) [] st)
    as [[e|data] sa] eqn:E.
  { rewrite (run_loop_failed decimal self w _ _ _ E) in Hrun. discriminate. }
  destruct (cleanup_spec decimal self w sa)
    as [[lg1 E1]|(l1 & x & l2 & lg1 & _ & _ & _ & _ & E1)].
  2: { rewrite (run_cleanup_failed decimal self w _ _ _ _ _ E E1) in Hrun.
       discriminate. }
  rewrite (run_scanned decimal self w _ _ _ _ E E1) in Hrun.
  destruct (scan decimal (w_now w) data None) as [e|r] eqn:Escan;
    [discriminate|].
  inversion Hrun as [[Hr Hst]]. subst r. clear Hrun.
  destruct (load_years_result w _ _ _ _ _ E) as (mores & Hdata & Hall & Hex).
  simpl in Hdata.
  assert (Hkeep : forall y, In y (required_years self) ->
            file_lookup (cache_name y)
              (sweep decimal self (List.map fst (st_files sa)) (st_files sa))
            = file_lookup (cache_name y) (st_files sa)).
  { intros y Hy. apply sweep_lookup_kept.
    apply (required_not_stale decimal decimal_ascii); [|exact Hy].
    simpl in Hy. destruct Hy as [<-|[<-|[]]]; lia. }
  set (fs1 := sweep decimal self (List.map fst (st_files sa)) (st_files sa))
    in *.
  destruct (load_years_cached w fs1 (required_years self) mores)
    with (data := @nil json) (rq := st_requests sa) (lg0 := st_log sa ++ lg1)
    as (lg2 & E2).
  { eapply Forall2_impl_In; [exact Hall|]. intros y more Hy Hc.
    cbv beta in *. rewrite <- Hc. apply cached_days_lookup. now apply Hkeep. }
  { intros y Hy. apply file_exists_lookup. rewrite (Hkeep y Hy).
    apply file_exists_lookup. now apply Hex. }
  simpl in E2. rewrite <- Hdata in E2.
  assert (E3 : _cleanup_old_cache decimal self w
                 (mkState fs1 (st_requests sa) ((st_log sa ++ lg1) ++ lg2))
               = (inr tt,
                  mkState fs1 (st_requests sa) ((st_log sa ++ lg1) ++ lg2))).
  { apply cleanup_nothing_stale. simpl. intros n Hn.
    now apply swept_not_stale in Hn. }
  exists lg2. simpl.
  rewrite (run_scanned decimal self w _ _ _ _ E2 E3), Escan. reflexivity.
Qed.

(** ** Without the network *)

Lemma load_year_same (w1 w2 : world) (data : list json) (y : Z) (st : state) :
  file_exists (cache_name y) (st_files st) = true ->
  load_year w1 data y st = load_year w2 data y st.
Proof.
  intros Hex. unfold load_year, bind, get_files. now rewrite Hex.
Qed.

Lemma load_years_same (w1 w2 : world) (l : list Z) :
  forall (data : list json) (st : state),
    (forall y, In y l ->
               file_exists (cache_name y) (st_files st) = true) ->
    foldM (load_year w1) l data st = foldM (load_year w2) l data st.
Proof.
  induction l as [|y l IH]; intros data st Hex; [reflexivity|].
  cbn [foldM]. unfold bind.
  rewrite (load_year_same w1 w2 data y st (Hex y (or_introl eq_refl))).
  destruct (load_year_cached w2 data y st (Hex y (or_introl eq_refl)))
    as (lg & E).
  rewrite E. destruct (cached_days (st_files st) (cache_name y)) as [e|more];
    [reflexivity|].
  apply IH. simpl. intros z Hz. apply Hex. now right.
Qed.

Lemma cleanup_same (self : HolidayFetcher) (w1 w2 : world) (st : state) :
  (forall n, w_can_remove w1 n = w_can_remove w2 n) ->
  _cleanup_old_cache decimal self w1 st = _cleanup_old_cache decimal self w2 st.
Proof.
  intros Hrm. unfold _cleanup_old_cache, bind, get_files.
  generalize (List.map fst (st_files st)) as l. intros l. revert st.
  induction l as [|x l IH]; intros st; [reflexivity|].
  cbn [for_each]. unfold bind. rewrite !cleanup_file_eq, Hrm.
  destruct (stale decimal self x); [|apply IH].
  destruct (w_can_remove w2 x); [apply IH | reflexivity].
Qed.

(** X10. With the cache files of the required years in place, a refresh
    does not depend on the network: in two worlds that differ only in what
    the server would answer, it emits the same signal and leaves the same
    state. *)
Theorem cached_refresh_ignores_network (self : HolidayFetcher)
        (w1 w2 : world) (st : state) :
  same_but_network w1 w2 ->
  (forall y, In y (required_years self) ->
             file_exists (cache_name y) (st_files st) = true) ->
  run decimal self w1 st = run decimal self w2 st.
Proof.
  intros [Hnow Hrm] Hex. unfold run, run_body, bind.
  rewrite (load_years_same w1 w2 _ [] st Hex).
  destruct (foldM (load_year w2) (required_years self) [] st)
    as [[e|data] sa]; [reflexivity|].
  rewrite (cleanup_same self w1 w2 sa Hrm), Hnow. reflexivity.
Qed.

(** X11. A refresh never rewrites or removes the cache file of a required
    year that it finds in place: whatever the refresh emits, the file
    reads afterwards as it did before. *)
Theorem refresh_keeps_cached_year (today : datetime) (w : world) (st : state)
        (y : Z) :
  valid_datetime today = true ->
  In y (required_years (init today)) ->
  file_exists (cache_name y) (st_files st) = true ->
  file_lookup (cache_name y) (st_files (snd (run decimal (init today) w st)))
  = file_lookup (cache_name y) (st_files st).
Proof.
  intros Hvalid Hy Hex. apply valid_year in Hvalid.
  set (self := init today) in *.
  assert (Hns : stale decimal self (cache_name y) = false).
  { apply (required_not_stale decimal decimal_ascii); [|exact Hy].
    simpl in Hy. destruct Hy as [<-|[<-|[]]]; lia. }
  destruct (load_years_spec w (required_years self) (required_years self)
              [] st (incl_refl _)) as (r & sa & E & [P _] & _).
  destruct r as [e|data].
  { rewrite (run_loop_failed decimal self w _ _ _ E). simpl. now apply P. }
  destruct (cleanup_spec decimal self w sa)
    as [[lg1 E1]|(l1 & x & l2 & lg1 & _ & _ & _ & _ & E1)].
  - rewrite (run_scanned decimal self w _ _ _ _ E E1). simpl.
    rewrite sweep_lookup_kept by exact Hns. now apply P.
  - rewrite (run_cleanup_failed decimal self w _ _ _ _ _ E E1). simpl.
    rewrite sweep_lookup_kept by exact Hns. now apply P.
Qed.

(** ** The requests of a refresh *)

(** A turn of the loop requests its year when the cache file is missing,
    and leaves the other names of the directory as they are. *)
Lemma load_year_requests (w : world) (data : list json) (y : Z)
      (st : state) (r : exn + list json) (st' : state) :
  load_year w data y st = (r, st') ->
  st_requests st'
  = st_requests st
    ++ (if file_exists (cache_name y) (st_files st) then [] else [y])
  /\ forall n, n <> cache_name y ->
               file_exists n (st_files st') = file_exists n (st_files st).
Proof.
  intros H.
  assert (Hfiles : forall n, n <> cache_name y ->
            file_exists n (st_files st') = file_exists n (st_files st)).
  { destruct (load_year_spec w [y] data y st (or_introl eq_refl))
      as (r0 & s & E & _ & _ & Hfs).
    rewrite H in E. inversion E. subst r0 s. intros n Hn.
    destruct Hfs as [->|[t ->]]; [reflexivity|].
    rewrite file_exists_put.
    replace (str_eqb n (cache_name y)) with false; [reflexivity|].
    symmetry. now apply str_eqb_neq. }
  split; [|exact Hfiles].
  destruct (file_exists (cache_name y) (st_files st)) eqn:Hex.
  - destruct (load_year_cached w data y st Hex) as (lg & E).
    rewrite E in H. inversion H. simpl. now rewrite List.app_nil_r.
  - unfold load_year, bind, get_files in H. rewrite Hex in H. cbn [negb] in H.
    destruct (fetch_and_cache_spec w y (cache_name y) st)
      as (r1 & fs1 & lg1 & E1 & _).
    rewrite E1 in H. destruct r1 as [e|v].
    + inversion H. reflexivity.
    + unfold ret at 1 in H.
      match type of H with
      | context [_load_cache ?p ?s] =>
          destruct (load_cache_eq p s) as (lg2 & E2 & _)
      end.
      rewrite E2 in H. unfold lift in H. simpl in H.
      destruct (py_iter (cached_value fs1 (cache_name y)));
        inversion H; reflexivity.
Qed.

Lemma load_years_requests (w : world) (l : list Z) :
  NoDup l ->
  forall (data : list json) (st : state) (data' : list json) (st' : state),
    foldM (load_year w) l data st = (inr data', st') ->
    st_requests st'
    = st_requests st
      ++ filter (fun y => negb (file_exists (cache_name y) (st_files st))) l.
Proof.
  induction 1 as [|y l Hy Hnd IH]; intros data st data' st' H.
  - inversion H. simpl. now rewrite List.app_nil_r.
  - cbn [foldM] in H. unfold bind in H.
    destruct (load_year w data y st) as [[e|d1] s1] eqn:E1; [discriminate|].
    destruct (load_year_requests w data y st _ _ E1) as [Hrq Hfs].
    rewrite (IH _ _ _ _ H), Hrq, <- List.app_assoc. f_equal.
    cbn [filter].
    replace (filter (fun z => negb (file_exists (cache_name z) (st_files s1))) l)
      with (filter (fun z => negb (file_exists (cache_name z) (st_files st))) l).
    + now destruct (file_exists (cache_name y) (st_files st)).
    + apply filter_ext_in. intros z Hz. f_equal. symmetry. apply Hfs.
      intros C. apply cache_name_inj in C. congruence.
Qed.

(** X12. A refresh that emits its result has requested exactly the
    required years whose cache file was missing when it started, each
    once, the current year before the next. *)
Theorem refresh_requests_missing_years (today : datetime) (w : world)
        (st st1 : state) (nearest : option Holiday) :
  run decimal (init today) w st = (data_ready nearest, st1) ->
  st_requests st1
  = st_requests st
    ++ filter (fun y => negb (file_exists (cache_name y) (st_files st)))
              (required_years (init today)).
Proof.
  intros Hrun. set (self := init today) in *.
  destruct (foldM (load_year w) (required_years self) [] st)
    as [[e|data] sa] eqn:E.
  { rewrite (run_loop_failed decimal self w _ _ _ E) in Hrun. discriminate. }
  destruct (cleanup_spec decimal self w sa)
    as [[lg1 E1]|(l1 & x & l2 & lg1 & _ & _ & _ & _ & E1)].
  2: { rewrite (run_cleanup_failed decimal self w _ _ _ _ _ E E1) in Hrun.
       discriminate. }
  rewrite (run_scanned decimal self w _ _ _ _ E E1) in Hrun.
  inversion Hrun as [[Hsig Hst]]. simpl.
  apply (load_years_requests w (required_years self)) with (data := [])
    (data' := data); [|exact E].
  simpl. constructor; [|constructor; [intros []|constructor]].
  intros [C|[]]. lia.
Qed.

(** ** Names and dates *)

Lemma cache_name_recognised_checked :
  forallb (fun n =>
             let y := Z.of_nat n in
             match match_year ascii_digit (cache_name y) with
             | Some y' => ((y' =? y) && (1000 <=? y) && (y <=? 9999))%bool
             | None => ((y <? 1000) || (9999 <? y))%bool
             end) (seq 1 (Z.to_nat 10000)) = true.
Proof. vm_compute. reflexivity. Qed.

(** X13. The name under which the refresh caches a year is recognised by
    the pattern of the cleanup, with that year, exactly when the year has
    four digits: among the years 1 to 10000 that a fetcher can require,
    the files of the years before 1000 and of the year 10000 are not
    recognised. *)
Theorem cache_name_recognised (y : Z) :
  1 <= y <= 10000 ->
  match_year decimal (cache_name y)
  = if ((1000 <=? y) && (y <=? 9999))%bool then Some y else None.
Proof.
  intros Hy.
  rewrite (match_year_ascii decimal decimal_ascii)
    by apply ascii_str_cache_name.
  pose proof cache_name_recognised_checked as H.
  rewrite forallb_forall in H. specialize (H (Z.to_nat y)).
  cbv zeta in H. rewrite Z2Nat.id in H by lia.
  assert (Hin : In (Z.to_nat y) (seq 1 (Z.to_nat 10000))).
  { apply in_seq. lia. }
  specialize (H Hin).
  destruct (match_year ascii_digit (cache_name y)) as [y'|].
  - rewrite !andb_true_iff in H. destruct H as [[H1 H2] H3].
    apply Z.eqb_eq in H1. subst y'. now rewrite H2, H3.
  - apply orb_true_iff in H as [H|H].
    + apply Z.ltb_lt in H.
      replace (1000 <=? y) with false; [reflexivity|].
      symmetry. apply Z.leb_gt. exact H.
    + apply Z.ltb_lt in H.
      replace (y <=? 9999) with false; [now rewrite andb_false_r|].
      symmetry. apply Z.leb_gt. exact H.
Qed.

Lemma decimal_digit (k : N) :
  (k <= 9)%N -> decimal (48 + k)%N = Some k.
Proof.
  intros Hk. rewrite decimal_ascii by lia.
  unfold ascii_digit, in_range.
  replace (48 <=? 48 + k)%N with true by (symmetry; apply N.leb_le; lia).
  replace (48 + k <=? 57)%N with true by (symmetry; apply N.leb_le; lia).
  cbn [andb]. f_equal. lia.
Qed.

Lemma re_year_four (y : Z) (s : str) :
  0 <= y <= 9999 -> re_year decimal (four_digits y ++ s) = Some (y, s).
Proof.
  intros Hy. unfold four_digits, two_digits, re_year. cbn [app].
  assert (Ha : 0 <= y / 100 / 10 <= 9) by (Z.div_mod_to_equations; lia).
  assert (Hb : 0 <= (y / 100) mod 10 <= 9) by (Z.div_mod_to_equations; lia).
  assert (Hc : 0 <= y mod 100 / 10 <= 9) by (Z.div_mod_to_equations; lia).
  assert (Hd : 0 <= (y mod 100) mod 10 <= 9) by (Z.div_mod_to_equations; lia).
  rewrite !decimal_digit by lia.
  f_equal. f_equal.
  rewrite !N2Z.inj_add, !N2Z.inj_mul, !Z2N.id by lia.
  change (Z.of_N 10) with 10.
  Z.div_mod_to_equations. lia.
Qed.

(** The numbers from 1 to 31, one by one. *)
Ltac split_nat n k :=
  match k with
  | O => idtac
  | S ?k' => destruct n as [|n]; [|split_nat n k']
  end.

Ltac each_upto d :=
  let n := fresh "n" in
  let Hn := fresh "Hn" in
  let E := fresh "E" in
  assert (E : d = Z.of_nat (Z.to_nat d)) by (symmetry; apply Z2Nat.id; lia);
  assert (Hn : (1 <= Z.to_nat d <= 31)%nat) by lia;
  revert E Hn; generalize (Z.to_nat d); intros n E Hn; subst d;
  split_nat n 32%nat; try (exfalso; lia).

Lemma re_month_two (m : Z) (s : str) :
  1 <= m <= 12 -> exists tl, re_month (two_digits m ++ s) = (m, s) :: tl.
Proof.
  intros Hm. each_upto m; eexists; vm_compute; reflexivity.
Qed.

Lemma re_day_two (d : Z) (s : str) :
  1 <= d <= 31 -> re_day decimal (two_digits d ++ s) = Some (d, s).
Proof.
  intros Hd. each_upto d; vm_compute; try reflexivity;
    rewrite decimal_ascii by reflexivity; vm_compute; reflexivity.
Qed.

Lemma days_in_month_le (y m : Z) : days_in_month y m <= 31.
Proof.
  unfold days_in_month.
  destruct (m =? 2); [destruct (is_leap y); lia|].
  destruct ((m =? 4) || (m =? 6) || (m =? 9) || (m =? 11))%bool; lia.
Qed.

(** X14. Every date that the calendar has, written as YYYY-MM-DD with
    leading zeros, is read by [strptime] as midnight of that date. *)
Theorem strptime_iso_date (y m d : Z) :
  valid_date y m d = true ->
  strptime decimal (JStr (iso_date y m d)) = inr (mkDatetime y m d 0 0 0 0).
Proof.
  intros Hvalid. pose proof Hvalid as Hv.
  unfold valid_date in Hv. rewrite !andb_true_iff in Hv.
  destruct Hv as [[[[[H1 H2] H3] H4] H5] H6].
  apply Z.leb_le in H1, H2, H3, H4, H5, H6.
  pose proof (days_in_month_le y m) as Hle.
  unfold strptime, re_date, iso_date.
  rewrite re_year_four by lia.
  cbn [strip_prefix]. rewrite N.eqb_refl.
  destruct (re_month_two m (45%N :: two_digits d)) as [tl Em]; [lia|].
  rewrite Em. cbn [first_some snd fst strip_prefix]. rewrite N.eqb_refl.
  rewrite <- (List.app_nil_r (two_digits d)).
  rewrite re_day_two by lia.
  now rewrite Hvalid.
Qed.

Lemma first_some_In {A B} (f : A -> option B) (l : list A) (y : B) :
  first_some f l = Some y -> exists x, In x l /\ f x = Some y.
Proof.
  induction l as [|x l IH]; simpl; [discriminate|].
  destruct (f x) as [y'|] eqn:E.
  - intros H. inversion H. subst. exists x. auto.
  - intros H. destruct (IH H) as (x' & Hin & Hx). exists x'. auto.
Qed.

Lemma re_month_length (s r : str) (m : Z) :
  In (m, r) (re_month s) ->
  (1 + List.length r <= List.length s <= 2 + List.length r)%nat.
Proof.
  unfold re_month. destruct s as [|a [|b s2]]; intros H;
    repeat match type of H with
      | context [if ?c then _ else _] => destruct c
      end;
    simpl in H;
    repeat (destruct H as [H|H]; [inversion H; simpl; lia|]);
    destruct H.
Qed.

Lemma re_day_length (s r : str) (d : Z) :
  re_day decimal s = Some (d, r) ->
  (1 + List.length r <= List.length s <= 2 + List.length r)%nat.
Proof.
  unfold re_day. destruct s as [|a [|b s2]]; cbv zeta; intros H;
    repeat match type of H with
      | context [if ?c then _ else _] => destruct c
      | context [match decimal ?c with _ => _ end] => destruct (decimal c)
      end;
    try discriminate; inversion H; simpl; lia.
Qed.

(** X15. A text that [strptime] reads has from eight to ten characters:
    a date followed by anything, a time of day for one, is refused. *)
Theorem strptime_length (s : str) (d : datetime) :
  strptime decimal (JStr s) = inr d ->
  (8 <= List.length s <= 10)%nat.
Proof.
  unfold strptime, re_date.
  destruct (re_year decimal s) as [[y s1]|] eqn:Ey; [|discriminate].
  destruct (strip_prefix [45%N] s1) as [s2|] eqn:E1; [|discriminate].
  match goal with
  | |- context [first_some ?f (re_month s2)] =>
      destruct (first_some f (re_month s2)) as [[[[y' m] dd] s4]|] eqn:Ef;
        [|discriminate];
      apply first_some_In in Ef as ([m' s3'] & Hin & Hf)
  end.
  cbn [fst snd] in Hf.
  destruct (strip_prefix [45%N] s3') as [s3|] eqn:E2; [|discriminate].
  destruct (re_day decimal s3) as [[d' s4']|] eqn:Ed; [|discriminate].
  inversion Hf. subst.
  destruct s4 as [|c s4]; [|discriminate]. intros _.
  apply re_day_length in Ed. apply re_month_length in Hin.
  apply strip_prefix_Some in E1, E2. subst s1 s3'.
  unfold re_year in Ey.
  destruct s as [|a [|b [|c [|e s']]]]; try discriminate.
  destruct (decimal a), (decimal b), (decimal c), (decimal e);
    try discriminate.
  inversion Ey. subst. simpl in *. lia.
Qed.

(** ** The widget *)

Variable repr_container : json -> str.

(** X16. The widget shows the result of the last call of [_update_ui]
    only: the title, the content and the visibility of the icon do not
    depend on what was shown before, and neither does the picture of the
    icon whenever the icon is visible. *)
Theorem update_ui_last_wins (h1 h2 : option Holiday) (u : widget) :
  let a := _update_ui repr_container h2 (_update_ui repr_container h1 u) in
  let b := _update_ui repr_container h2 u in
  wg_title a = wg_title b
  /\ wg_content a = wg_content b
  /\ icon_visible a = icon_visible b
  /\ (icon_visible a = true -> icon a = icon b).
Proof.
  unfold _update_ui. destruct h2 as [h2|]; [|now repeat split].
  destruct (days_left h2 <? 2); [now repeat split|].
  destruct h1 as [h1|]; [destruct (days_left h1 <? 2)|];
    cbn; repeat split; discriminate.
Qed.

(** The loop over the years fails at a year whose download fails. *)
Lemma load_years_fetch_fails (w : world) (year : Z) (l : list Z) :
  fetch_fails w year = true ->
  forall (data : list json) (st : state),
    In year l ->
    file_exists (cache_name year) (st_files st) = false ->
    exists e st1, foldM (load_year w) l data st = (inl e, st1).
Proof.
  intros Hfail. induction l as [|y l IH]; intros data st Hy Hm; [destruct Hy|].
  cbn [foldM]. unfold bind.
  destruct (Z.eq_dec y year) as [->|Hne].
  - unfold load_year, bind, get_files. rewrite Hm. cbn [negb].
    destruct (fetch_fails_spec w year (cache_name year) st Hfail) as [e E].
    rewrite E. eauto.
  - destruct (load_year_spec w [y] data y st (or_introl eq_refl))
      as (r & st1 & E & _ & _ & Hfs).
    rewrite E. destruct r as [e|data1]; [eauto|].
    destruct Hy as [Hy|Hy]; [congruence|].
    apply (IH data1 st1 Hy).
    destruct Hfs as [->|[t ->]]; [exact Hm|].
    rewrite file_exists_put, Hm, orb_false_r.
    apply str_eqb_neq. intros C. apply cache_name_inj in C. congruence.
Qed.

(** X17. When the download of a required year whose cache file is
    missing fails, [update_holiday] leaves the widget as it was, hands the
    error to the log, and leaves the retry timer stopped: nothing schedules
    another attempt. *)
Theorem update_holiday_failure_keeps_widget (today : datetime) (w : world)
        (p : plugin) (st : state) (year : Z) :
  In year (required_years (init today)) ->
  file_exists (cache_name year) (st_files st) = false ->
  fetch_fails w year = true ->
  exists e,
    fst (update_holiday decimal repr_container today w p st)
    = mkPlugin (p_widget p) false (p_errors p ++ [e]).
Proof.
  intros Hin Hmiss Hfail.
  destruct (load_years_fetch_fails w year (required_years (init today)) Hfail
              [] st Hin Hmiss) as (e & st1 & E).
  exists e. unfold update_holiday.
  now rewrite (run_loop_failed decimal (init today) w _ _ _ E).
Qed.

(** X18. When the refresh emits a holiday, [update_holiday] shows its
    [days_left], a number that is not negative, and makes the icon visible
    exactly when the holiday is at most two calendar days after today; at
    midnight to the microsecond, at most one. *)
Theorem update_holiday_shows_days (today : datetime) (w : world)
        (p : plugin) (st : state) (h : Holiday) :
  valid_datetime (w_now w) = true ->
  fst (run decimal (init today) w st) = data_ready (Some h) ->
  let u := p_widget (fst (update_holiday decimal repr_container today w p st))
  in
  wg_content u = int_str (days_left h) ++ days_suffix
  /\ 0 <= days_left h
  /\ exists d,
       strptime decimal (date h) = inr d
       /\ (icon_visible u = true
           <-> toordinal d - toordinal (w_now w)
               <= if at_midnight (w_now w) then 1 else 2).
Proof.
  intros Hnow Hrun.
  destruct (run_emits_scanned (init today) w st h Hrun) as (d & Ed & Hge & Hl).
  pose proof (strptime_valid decimal (date h) d Ed) as [Hd Hmid].
  rewrite (sub_days_calendar d (w_now w) Hmid Hnow) in Hl.
  assert (Hpos : 0 <= days_left h).
  { destruct (run_emits_scanned (init today) w st h Hrun)
      as (d' & Ed' & Hge' & Hl').
    rewrite Hl', sub_days_micros.
    pose proof (strptime_valid decimal (date h) d' Ed') as [Hd' _].
    rewrite (dt_ge_micros d' (w_now w) Hd' Hnow) in Hge'.
    apply Z.leb_le in Hge'. apply Z.div_pos; lia. }
  unfold update_holiday.
  destruct (run decimal (init today) w st) as [sig st1]. simpl in Hrun.
  subst sig. cbn [fst p_widget]. unfold _update_ui.
  destruct (Z.ltb_spec (days_left h) 2) as [Hlt|Hge2]; cbn.
  - split; [reflexivity|]. split; [exact Hpos|].
    exists d. split; [exact Ed|]. split; [intros _|reflexivity].
    destruct (at_midnight (w_now w)); lia.
  - split; [reflexivity|]. split; [exact Hpos|].
    exists d. split; [exact Ed|]. split; [discriminate|].
    intros H. exfalso. destruct (at_midnight (w_now w)); lia.
Qed.

End More.

(** * Worked cases *)

#[local] Existing Instance sample_python.

Lemma ascii_digit_table :
  forall c, (c < 128)%N -> ascii_digit c = ascii_digit c.
Proof. reflexivity. Defined.

Lemma sample_python_round_trip : repr_round_trip.
Proof.
  intros s E. cbn [parsed_ok parse_float sample_python]. rewrite E.
  cbn [parse_float sample_python]. rewrite E. cbn [pyfloat_eqb andb].
  apply str_eqb_refl.
Defined.


(** C2 on the records of the two sample years. *)
Lemma C2_witness :
  exists result,
    scan ascii_digit sample_now (sample_days_2025 ++ sample_days_2026) None
    = inr result
    /\ nearest_of ascii_digit sample_now
                  (sample_days_2025 ++ sample_days_2026) result
    /\ forall self w st st1 st2,
         w_now w = sample_now ->
         foldM (load_year w) (required_years self) [] st
         = (inr (sample_days_2025 ++ sample_days_2026), st1) ->
         _cleanup_old_cache ascii_digit self w st1 = (inr tt, st2) ->
         run ascii_digit self w st = (data_ready result, st2).
Proof.
  apply (C2_scan_emits_nearest ascii_digit sample_now
           (sample_days_2025 ++ sample_days_2026)).
  - reflexivity.
  - intros day [<-|[<-|[<-|[]]]]; vm_compute; discriminate.
Defined.

(** C3 as stated fails: a final response with status 300 and a JSON body
    is not a 2xx, yet the refresh does not abort and the cache file of
    that year is written. *)
Lemma C3_counterexample :
  w_get redirect_world 2025 = Response 300 sample_body_2025
  /\ file_exists (cache_name 2025) (st_files sample_empty) = false
  /\ ~ (exists e,
          fst (run ascii_digit (init sample_now) redirect_world sample_empty)
          = fetch_failed e)
  /\ file_exists
       (cache_name 2025)
       (st_files (snd (run ascii_digit (init sample_now) redirect_world
                           sample_empty))) = true.
Proof.
  split; [reflexivity|]. split; [reflexivity|]. split.
  - intros [e H]. vm_compute in H. discriminate.
  - vm_compute. reflexivity.
Defined.

(** C3 (amended) when the server answers the second year with a 500. *)
Lemma C3_witness :
  let st' := snd (run ascii_digit (init sample_now) failing_world
                      sample_empty) in
  (exists e,
     fst (run ascii_digit (init sample_now) failing_world sample_empty)
     = fetch_failed e)
  /\ file_exists (cache_name 2026) (st_files st') = false
  /\ preserved (st_files sample_empty) (st_files st')
  /\ (exists lg, st_log st' = st_log sample_empty ++ lg
                 /\ forall n, ~ In (LogCleaned n) lg).
Proof.
  apply (C3_fetch_failure_aborts ascii_digit (init sample_now) failing_world
           sample_empty 2026).
  - simpl. right. left. reflexivity.
  - reflexivity.
  - reflexivity.
Defined.

(** C4 when both cache files are there. *)
Lemma C4_witness :
  st_requests (snd (run ascii_digit (init sample_now) sample_world
                        sample_cached))
  = st_requests sample_cached.
Proof.
  apply (C4_no_fetch_when_cached ascii_digit (init sample_now) sample_world
           sample_cached).
  intros y [<-|[<-|[]]]; vm_compute; reflexivity.
Defined.

(** C5 as stated fails: a cache file whose [days] is a number lacks the
    expected shape, yet loading it yields that number, not zero records,
    and the refresh fails. *)
Lemma C5_counterexample :
  file_lookup (cache_name 2025) (st_files days_number_cached)
  = Some (Some days_number_text)
  /\ json_loads days_number_text = inr (JDict [(lit "days", JInt 5)])
  /\ fst (_load_cache (cache_name 2025) days_number_cached) = inr (JInt 5)
  /\ fst (run ascii_digit (init sample_now) sample_world days_number_cached)
     = fetch_failed TypeError.
Proof. repeat split; vm_compute; reflexivity. Defined.

(** C5 (amended) on a cache file that is not JSON. *)
Lemma C5_witness :
  fst (_load_cache (cache_name 2025) corrupt_cached) = inr (JList [])
  /\ exists lg,
       load_year sample_world [] 2025 corrupt_cached
       = (inr [], mkState (st_files corrupt_cached)
                          (st_requests corrupt_cached)
                          (st_log corrupt_cached ++ lg))
       /\ if holds_object (Some (lit "not json")) then lg = []
          else exists e, lg = [LogReadFailed (cache_name 2025) e].
Proof.
  apply (C5_corrupt_cache_yields_no_records sample_world corrupt_cached 2025
           [] (Some (lit "not json"))).
  - vm_compute. reflexivity.
  - vm_compute. reflexivity.
  - vm_compute. reflexivity.
Defined.

(** C6 as stated fails: a body whose [days] holds a lone surrogate is
    parsed, but writing it raises, and loading what is left on disk yields
    the empty list, not the [days] of the body. *)
Lemma C6_counterexample :
  json_loads surrogate_body
  = inr (JDict [(lit "days", JList [JStr [55296%N]])])
  /\ fst (_fetch_and_cache surrogate_world 2025 (cache_name 2025) sample_empty)
     = inl UnicodeEncodeError
  /\ fst (_load_cache (cache_name 2025)
            (snd (_fetch_and_cache surrogate_world 2025 (cache_name 2025)
                    sample_empty)))
     = inr (JList []).
Proof. repeat split; vm_compute; reflexivity. Defined.

(** C6 (amended) on a document with a number that has a fraction. *)
Lemma C6_witness :
  let d := [(lit "days", JList []); (lit "v", JFloat (FFinite (lit "1.5")))] in
  let r := _fetch_and_cache fraction_world 2025 (cache_name 2025)
                            sample_empty in
  fst r = inr (JDict d)
  /\ fst (_load_cache (cache_name 2025) (snd r))
     = inr match dict_get (lit "days") d with
           | Some days => days
           | None => JList []
           end.
Proof.
  apply (C6_cache_round_trip fraction_world sample_empty 2025
           (cache_name 2025) 200 fraction_body
           [(lit "days", JList []); (lit "v", JFloat (FFinite (lit "1.5")))]).
  - exact sample_python_round_trip.
  - reflexivity.
  - left. lia.
  - vm_compute. reflexivity.
  - vm_compute. lia.
  - vm_compute. reflexivity.
  - reflexivity.
Defined.

(** C7 as stated fails: the first stale file cannot be removed, and the
    refresh reports the failure while the second stale file, which could
    be removed, is still there. *)
Lemma C7_counterexample :
  stale ascii_digit (init sample_now) (lit "holidays_1999.json") = true
  /\ stale ascii_digit (init sample_now) (lit "holidays_2000.json.bak") = true
  /\ w_can_remove locked_world (lit "holidays_1999.json") = false
  /\ w_can_remove locked_world (lit "holidays_2000.json.bak") = true
  /\ fst (run ascii_digit (init sample_now) locked_world sample_stale)
     = fetch_failed OSError
  /\ file_exists (lit "holidays_2000.json.bak")
       (st_files (snd (run ascii_digit (init sample_now) locked_world
                           sample_stale))) = true.
Proof. repeat split; vm_compute; reflexivity. Defined.

(** C7 (amended) on the same directory. *)
Lemma C7_witness :
  fst (run ascii_digit (init sample_now) locked_world sample_stale)
  = fetch_failed OSError
  /\ st_files (snd (run ascii_digit (init sample_now) locked_world
                        sample_stale))
     = filter (fun e => negb (stale ascii_digit (init sample_now) (fst e))) []
       ++ (lit "holidays_1999.json", Some [])
       :: ((lit "holidays_2000.json.bak", Some [])
           :: (lit "notes.txt", Some []) :: sample_cache).
Proof.
  apply (C7_delete_error_aborts ascii_digit (init sample_now) locked_world
           sample_stale sample_stale (sample_days_2025 ++ sample_days_2026)).
  - vm_compute. reflexivity.
  - reflexivity.
  - vm_compute. repeat constructor; simpl; intuition discriminate.
  - intros e [].
  - vm_compute. reflexivity.
  - reflexivity.
Defined.

(** C8 on the sample refresh: five whole days to the first of October. *)
Lemma C8_witness :
  0 <= days_left (mkHoliday (JStr (lit "X")) (JStr (lit "2025-10-01")) 5).
Proof.
  apply (C8_days_left_nonnegative ascii_digit (init sample_now) sample_world
           sample_empty).
  - reflexivity.
  - vm_compute. reflexivity.
Defined.


(** C10 at half past ten on a record dated today. *)
Lemma C10_witness :
  at_midnight (mkDatetime 2025 9 25 0 0 0 0) = true
  /\ dt_ge (mkDatetime 2025 9 25 0 0 0 0) sample_now = at_midnight sample_now
  /\ (at_midnight sample_now = false ->
      forall nearest,
        scan_day ascii_digit sample_now nearest sample_today_record
        = inr nearest).
Proof.
  apply (C10_today_excluded_after_midnight ascii_digit sample_now
           sample_today_record (JStr (lit "2025-09-25"))
           (mkDatetime 2025 9 25 0 0 0 0)); reflexivity.
Defined.


(** ** Further worked cases *)

(** X3 on the sample data. *)
Lemma non_object_body_is_cached_witness :
  load_year list_world [] 2025 sample_empty
  = (inr [],
     mkState (file_put (cache_name 2025) (Some (json_dumps (JList [])))
                       (st_files sample_empty))
             (st_requests sample_empty ++ [2025])
             (st_log sample_empty
              ++ [LogDownloaded 2025;
                  LogReadFailed (cache_name 2025) AttributeError])).
Proof.
  apply (non_object_body_is_cached list_world sample_empty 2025 [] 200
           (lit "[]") (JList [])).
  - exact sample_python_round_trip.
  - reflexivity.
  - reflexivity.
  - left. lia.
  - vm_compute. reflexivity.
  - discriminate.
  - vm_compute. lia.
  - reflexivity.
  - reflexivity.
Defined.

(** X4 on the sample data. *)
Lemma unencodable_document_blocks_year_witness :
  exists t rest,
    rest <> []
    /\ json_dumps (JDict [(lit "days", JList [JStr [55296%N]])]) = t ++ rest
    /\ _fetch_and_cache surrogate_world 2025 (cache_name 2025) sample_empty
       = (inl UnicodeEncodeError,
          mkState (file_put (cache_name 2025) (Some t) (st_files sample_empty))
                  (st_requests sample_empty ++ [2025])
                  (st_log sample_empty
                   ++ [LogDownloadFailed 2025 UnicodeEncodeError]))
    /\ forall self' w' lg,
         exists rq,
           st_requests
             (snd (run ascii_digit self' w'
                       (mkState (file_put (cache_name 2025) (Some t)
                                          (st_files sample_empty))
                                (st_requests sample_empty ++ [2025]) lg)))
           = (st_requests sample_empty ++ [2025]) ++ rq
           /\ ~ In 2025 rq.
Proof.
  apply (unencodable_document_blocks_year ascii_digit surrogate_world
           sample_empty 2025 200 surrogate_body).
  - reflexivity.
  - left. lia.
  - vm_compute. reflexivity.
  - vm_compute. lia.
  - reflexivity.
  - reflexivity.
Defined.

(** X5 on the sample data. *)
Lemma cleanup_removes_exactly_stale_witness :
  _cleanup_old_cache ascii_digit (init sample_now) sample_world sample_stale
  = (inr tt,
     mkState (filter (fun e => negb (stale ascii_digit (init sample_now)
                                           (fst e)))
                     (st_files sample_stale))
             (st_requests sample_stale)
             (st_log sample_stale
              ++ List.map LogCleaned
                   (filter (stale ascii_digit (init sample_now))
                           (List.map fst (st_files sample_stale))))).
Proof.
  apply (cleanup_removes_exactly_stale ascii_digit (init sample_now)
           sample_world sample_stale).
  intros n _ _. reflexivity.
Defined.

(** X6 on the sample data. *)
Lemma cleanup_twice_witness :
  _cleanup_old_cache ascii_digit (init sample_now) sample_world
    (snd (_cleanup_old_cache ascii_digit (init sample_now) sample_world
                             sample_stale))
  = (inr tt,
     snd (_cleanup_old_cache ascii_digit (init sample_now) sample_world
                             sample_stale)).
Proof.
  apply (cleanup_twice ascii_digit (init sample_now) sample_world
           sample_stale).
  vm_compute. reflexivity.
Defined.

(** X7 on the sample data. *)
Lemma run_days_left_calendar_witness :
  exists d,
    strptime ascii_digit (date sample_holiday) = inr d
    /\ dt_ge d (w_now sample_world) = true
    /\ days_left sample_holiday
       = toordinal d - toordinal (w_now sample_world)
         - (if at_midnight (w_now sample_world) then 0 else 1).
Proof.
  apply (run_days_left_calendar ascii_digit (init sample_now) sample_world
           sample_empty sample_holiday).
  - reflexivity.
  - vm_compute. reflexivity.
Defined.

(** X8 on the sample data. *)
Lemma run_bad_date_fails_after_cleanup_witness :
  run ascii_digit (init sample_now) sample_world bad_date_cached
  = (fetch_failed ValueError, bad_date_cached).
Proof.
  apply (run_bad_date_fails_after_cleanup ascii_digit (init sample_now)
           sample_world bad_date_cached bad_date_cached bad_date_cached
           [sample_record "X" "2025-10-01" true] sample_days_2026
           bad_date_record ValueError).
  - vm_compute. reflexivity.
  - vm_compute. reflexivity.
  - intros x [<-|[]]. vm_compute. discriminate.
  - vm_compute. reflexivity.
Defined.

(** X9 on the sample data. *)
Lemma refresh_twice_witness :
  exists lg,
    run ascii_digit (init sample_now) sample_world
        (snd (run ascii_digit (init sample_now) sample_world sample_stale))
    = (data_ready (Some sample_holiday),
       mkState
         (st_files (snd (run ascii_digit (init sample_now) sample_world
                             sample_stale)))
         (st_requests (snd (run ascii_digit (init sample_now) sample_world
                                sample_stale)))
         (st_log (snd (run ascii_digit (init sample_now) sample_world
                           sample_stale)) ++ lg)).
Proof.
  apply (refresh_twice ascii_digit ascii_digit_table sample_now sample_world
           sample_stale).
  - reflexivity.
  - vm_compute. reflexivity.
Defined.

(** X10 on the sample data. *)
Lemma cached_refresh_ignores_network_witness :
  run ascii_digit (init sample_now) sample_world sample_cached
  = run ascii_digit (init sample_now) failing_world sample_cached.
Proof.
  apply (cached_refresh_ignores_network ascii_digit (init sample_now)
           sample_world failing_world sample_cached).
  - split; [reflexivity | intros n; reflexivity].
  - intros y [<-|[<-|[]]]; vm_compute; reflexivity.
Defined.

(** X11 on the sample data. *)
Lemma refresh_keeps_cached_year_witness :
  file_lookup (cache_name 2025)
    (st_files (snd (run ascii_digit (init sample_now) locked_world
                        sample_stale)))
  = file_lookup (cache_name 2025) (st_files sample_stale).
Proof.
  apply (refresh_keeps_cached_year ascii_digit ascii_digit_table sample_now
           locked_world sample_stale 2025).
  - reflexivity.
  - simpl. left. reflexivity.
  - vm_compute. reflexivity.
Defined.

(** X13 on the sample data. *)
Lemma cache_name_recognised_witness :
  match_year ascii_digit (cache_name 2025)
  = if ((1000 <=? 2025) && (2025 <=? 9999))%bool then Some 2025 else None.
Proof.
  apply (cache_name_recognised ascii_digit ascii_digit_table 2025). lia.
Defined.

(** X14 on the sample data. *)
Lemma strptime_iso_date_witness :
  strptime ascii_digit (JStr (iso_date 2025 10 1))
  = inr (mkDatetime 2025 10 1 0 0 0 0).
Proof.
  apply (strptime_iso_date ascii_digit ascii_digit_table 2025 10 1).
  reflexivity.
Defined.

(** X15 on the sample data. *)
Lemma strptime_length_witness :
  (8 <= List.length (lit "2025-10-01") <= 10)%nat.
Proof.
  apply (strptime_length ascii_digit (lit "2025-10-01")
           (mkDatetime 2025 10 1 0 0 0 0)).
  vm_compute. reflexivity.
Defined.

(** X17 on the sample data. *)
Lemma update_holiday_failure_keeps_widget_witness :
  exists e,
    fst (update_holiday ascii_digit no_repr sample_now failing_world
                        sample_plugin sample_empty)
    = mkPlugin (p_widget sample_plugin) false (p_errors sample_plugin ++ [e]).
Proof.
  apply (update_holiday_failure_keeps_widget ascii_digit no_repr sample_now
           failing_world sample_plugin sample_empty 2026).
  - simpl. right. left. reflexivity.
  - reflexivity.
  - reflexivity.
Defined.

(** X18 on the sample data. *)
Lemma update_holiday_shows_days_witness :
  let u := p_widget (fst (update_holiday ascii_digit no_repr sample_now
                                         sample_world sample_plugin
                                         sample_empty)) in
  wg_content u = int_str (days_left sample_holiday) ++ days_suffix
  /\ 0 <= days_left sample_holiday
  /\ exists d,
       strptime ascii_digit (date sample_holiday) = inr d
       /\ (icon_visible u = true
           <-> toordinal d - toordinal (w_now sample_world)
               <= if at_midnight (w_now sample_world) then 1 else 2).
Proof.
  apply (update_holiday_shows_days ascii_digit no_repr sample_now sample_world
           sample_plugin sample_empty sample_holiday).
  - reflexivity.
  - vm_compute. reflexivity.
Defined.

(** X12 on the sample data. *)
Lemma refresh_requests_missing_years_witness :
  st_requests (snd (run ascii_digit (init sample_now) sample_world
                        sample_empty))
  = st_requests sample_empty
    ++ filter (fun y => negb (file_exists (cache_name y)
                                          (st_files sample_empty)))
              (required_years (init sample_now)).
Proof.
  apply (refresh_requests_missing_years ascii_digit sample_now sample_world
           sample_empty
           (snd (run ascii_digit (init sample_now) sample_world sample_empty))
           (Some sample_holiday)).
  vm_compute. reflexivity.
Defined.
